(** * Chatbot_Webapp: the ingestion and answering pipelines

    A shallow embedding of [config.py], [pdf_processor.py], [chat_manager.py],
    [model_manager.py] and the persona widget of [ui_components.py].

    Python values are modelled as follows:
    - a [str] is the list of its Unicode code points;
    - an exception is its class together with [str(e)], and fallible code
      returns an [outcome];
    - the objects the program mutates ([ChatManager], [PDFProcessor],
      [ModelManager], the temporary files on disk) live in one explicit
      program state that every method threads;
    - the hosted services (embeddings, Pinecone, the chat model, PyPDF2) are
      oracles over an abstract service state, and every call to one of them
      is appended to a log of events. *)

From Corelib Require Import PrimFloat.
From Stdlib Require Import ZArith NArith Lia.
From stdpp Require Import base option list gmap strings pretty.

Open Scope Z_scope.

(** ** Python strings *)

Module Py.

(** A Python [str]: the sequence of its code points. *)
Abbreviation str := (list N).

Definition char_of_ascii (a : Ascii.ascii) : N := Ascii.N_of_ascii a.

(** An ASCII literal of the source. *)
Definition lit (s : string) : str := map char_of_ascii (String.list_ascii_of_string s).

(** [len(s)] *)
Definition len {A} (l : list A) : Z := Z.of_nat (length l).

(** [c.isspace()] for a single code point: the characters [str.strip()]
    removes when called without argument. *)
Definition isspace (c : N) : bool :=
  (((9 <=? c) && (c <=? 13)) || ((28 <=? c) && (c <=? 32))
   || (c =? 133) || (c =? 160) || (c =? 5760)
   || ((8192 <=? c) && (c <=? 8202))
   || (c =? 8232) || (c =? 8233) || (c =? 8239) || (c =? 8287)
   || (c =? 12288))%N.

Fixpoint lstrip (s : str) : str :=
  match s with
  | [] => []
  | c :: rest => if isspace c then lstrip rest else s
  end.

Definition rstrip (s : str) : str := rev (lstrip (rev s)).

(** [s.strip()] *)
Definition strip (s : str) : str := rstrip (lstrip s).

(** Truth value of a string or of a list: non-empty. *)
Definition truthy {A} (s : list A) : bool :=
  match s with [] => false | _ :: _ => true end.

(** [sep.join(parts)] *)
Fixpoint join (sep : str) (parts : list str) : str :=
  match parts with
  | [] => []
  | [p] => p
  | p :: rest => p ++ sep ++ join sep rest
  end.

(** [str(n)] for an integer. *)
Definition str_of_Z (n : Z) : str := lit (pretty n).

(** [a == b] on strings. *)
Definition str_eqb (a b : str) : bool := bool_decide (a = b).

(** Exceptions: the class and the message [str(e)]. *)
Inductive exn_class :=
  | Exception | ValueError | IndexError | AttributeError | OSError | ServiceError.

Record exn := mk_exn { exn_cls : exn_class; exn_msg : str }.

(** Result of a call that may raise. *)
Inductive outcome (A : Type) : Type :=
  | Return (a : A)
  | Raise (e : exn).
Arguments Return {A} a.
Arguments Raise {A} e.

#[global] Instance outcome_ret : MRet outcome := fun A a => Return a.

#[global] Instance outcome_bind : MBind outcome := fun A B k m =>
  match m with
  | Return a => k a
  | Raise e => Raise e
  end.

End Py.
Import Py.

(** ** config.py *)

Module Config.

Definition PINECONE_CLOUD : str := lit "aws".
Definition PINECONE_REGION : str := lit "us-east-1".

Definition TEXT_CHUNK_SIZE : Z := 1000.
Definition TEXT_CHUNK_OVERLAP : Z := 200.

Definition NL : str := [10%N].

Definition TEXT_SEPARATORS : list str :=
  [NL ++ NL; NL; lit ". "; lit "! "; lit "? "; lit " "; []].

Definition VECTOR_DIMENSION : Z := 1536.
Definition VECTOR_METRIC : str := lit "cosine".
Definition RETRIEVAL_K : Z := 3.

Inductive preset :=
  | HelpfulAssistant | TechnicalExpert | CreativeWriter
  | FormalBusinessAssistant | CasualFriendlyHelper.

(** [Config.SYSTEM_PROMPTS], by key. *)
Definition SYSTEM_PROMPTS (k : preset) : str :=
  match k with
  | HelpfulAssistant =>
      lit "You are a helpful AI assistant. Provide clear, concise, and accurate responses."
  | TechnicalExpert =>
      lit "You are a technical expert. Provide detailed, accurate technical information and explanations."
  | CreativeWriter =>
      lit "You are a creative writer. Respond with imaginative, engaging, and creative content."
  | FormalBusinessAssistant =>
      lit "You are a formal business assistant. Provide professional, concise, and business-appropriate responses."
  | CasualFriendlyHelper =>
      lit "You are a casual, friendly helper. Respond in a warm, conversational tone."
  end.

End Config.

(** ** The text splitter [split_text_into_chunks] instantiates

    [RecursiveCharacterTextSplitter] is the class of the
    [langchain_text_splitters] package imported by [pdf_processor.py]; the
    repository constructs it with [length_function=len] and otherwise default
    arguments ([keep_separator=True], [is_separator_regex=False],
    [strip_whitespace=True]).  The definitions below follow that class's
    [split_text], [_split_text], [_split_text_with_regex], [_merge_splits] and
    [_join_docs]; separators are literals (they are passed through
    [re.escape]). *)

Module TextSplitter.

Section Splitter.

Variable chunk_size : Z.
Variable chunk_overlap : Z.

(** [text.startswith(sep)] *)
Fixpoint startswith (sep text : str) : bool :=
  match sep, text with
  | [], _ => true
  | _ :: _, [] => false
  | a :: sep', b :: text' => if (a =? b)%N then startswith sep' text' else false
  end.

(** [re.search(re.escape(sep), text)]: some occurrence of the literal. *)
Fixpoint search (sep text : str) : bool :=
  startswith sep text ||
  match text with
  | [] => false
  | _ :: text' => search sep text'
  end.

(** [re.split(re.escape(sep), text)] for a non-empty literal: the pieces
    between the non-overlapping occurrences, left to right.  [skip] counts the
    characters of a matched separator still to be consumed and [piece] is the
    current piece, reversed. *)
Fixpoint re_split_from (sep : str) (skip : nat) (piece : str) (text : str)
  : list str :=
  match text with
  | [] => [rev piece]
  | c :: text' =>
      match skip with
      | S k => re_split_from sep k piece text'
      | O =>
          if startswith sep text
          then rev piece :: re_split_from sep (length sep - 1) [] text'
          else re_split_from sep 0 (c :: piece) text'
      end
  end.

Definition re_split (sep text : str) : list str := re_split_from sep 0 [] text.

(** [_split_text_with_regex(text, separator, keep_separator=True)]: each
    separator stays at the head of the piece that follows it; empty pieces
    are dropped. *)
Definition _split_text_with_regex (text separator : str) : list str :=
  let splits :=
    if truthy separator then
      match re_split separator text with
      | [] => []
      | first :: others => first :: map (fun p => separator ++ p) others
      end
    else map (fun c => [c]) text in
  filter (fun s => s <> []) splits.

(** [_join_docs(docs, separator)] with [strip_whitespace=True]. *)
Definition _join_docs (docs : list str) (separator : str) : option str :=
  let text := strip (join separator docs) in
  match text with
  | [] => None
  | _ => Some text
  end.

(** The condition of the [while] loop of [_merge_splits]. *)
Definition keep_popping (separator_len _len total : Z) (current_doc : list str)
  : bool :=
  (chunk_overlap <? total)
  || ((chunk_size <? total + _len + (if 0 <? len current_doc then separator_len else 0))
      && (0 <? total)).

(** The [while] loop of [_merge_splits]: drop pieces from the front of
    [current_doc] until what is left fits the overlap. *)
Fixpoint pop_front (separator_len _len total : Z) (current_doc : list str)
  : outcome (Z * list str) :=
  match current_doc with
  | [] =>
      if keep_popping separator_len _len total []
      then Raise (mk_exn IndexError (lit "list index out of range"))
      else Return (total, [])
  | d0 :: rest =>
      if keep_popping separator_len _len total current_doc
      then pop_front separator_len _len
             (total - (len d0 + (if 1 <? len current_doc then separator_len else 0)))
             rest
      else Return (total, current_doc)
  end.

Record merge_state := MergeState {
  docs : list str;
  current_doc : list str;
  total : Z
}.

(** One iteration of [for d in splits] in [_merge_splits]. *)
Definition merge_step (separator : str) (st : merge_state) (d : str)
  : outcome merge_state :=
  let separator_len := len separator in
  let _len := len d in
  (st1 ←
     (if chunk_size <? total st + _len
                       + (if 0 <? len (current_doc st) then separator_len else 0)
      then
        if 0 <? len (current_doc st) then
          let docs1 :=
            match _join_docs (current_doc st) separator with
            | Some doc => docs st ++ [doc]
            | None => docs st
            end in
          '(total1, current1) ←
              pop_front separator_len _len (total st) (current_doc st);
          Return (MergeState docs1 current1 total1)
        else Return st
      else Return st);
   let current2 := current_doc st1 ++ [d] in
   Return (MergeState (docs st1) current2
             (total st1 + (_len + (if 1 <? len current2 then separator_len else 0))))).

Fixpoint merge_loop (separator : str) (st : merge_state) (splits : list str)
  : outcome merge_state :=
  match splits with
  | [] => Return st
  | d :: rest =>
      (st1 ← merge_step separator st d ; merge_loop separator st1 rest)
  end.

(** [_merge_splits(splits, separator)] *)
Definition _merge_splits (splits : list str) (separator : str)
  : outcome (list str) :=
  (st ← merge_loop separator (MergeState [] [] 0) splits;
   match _join_docs (current_doc st) separator with
   | Some doc => Return (docs st ++ [doc])
   | None => Return (docs st)
   end).

(** The loop [for s in splits] of [_split_text]: [recurse] is the recursive
    call on the remaining separators, absent when [new_separators] is
    empty.  The state is [(final_chunks, _good_splits)]. *)
Fixpoint split_pieces (recurse : option (str -> outcome (list str)))
    (final_chunks _good_splits : list str) (splits : list str)
  : outcome (list str * list str) :=
  match splits with
  | [] => Return (final_chunks, _good_splits)
  | s :: rest =>
      if len s <? chunk_size
      then split_pieces recurse final_chunks (_good_splits ++ [s]) rest
      else
        (final1 ←
           (if truthy _good_splits
            then (merged_text ← _merge_splits _good_splits [];
                  Return (final_chunks ++ merged_text))
            else Return final_chunks);
         final2 ←
           match recurse with
           | None => Return (final1 ++ [s])
           | Some f => (other_info ← f s ; Return (final1 ++ other_info))
           end;
         split_pieces recurse final2 [] rest)
  end.

(** The body of [_split_text] once [separator] and [new_separators] are
    chosen.  With [keep_separator=True] the pieces are merged with the empty
    separator. *)
Definition split_with (separator : str)
    (recurse : option (str -> outcome (list str))) (text : str)
  : outcome (list str) :=
  let splits := _split_text_with_regex text separator in
  ('(final_chunks, _good_splits) ← split_pieces recurse [] [] splits;
   if truthy _good_splits
   then (merged_text ← _merge_splits _good_splits [];
         Return (final_chunks ++ merged_text))
   else Return final_chunks).

(** [_split_text(text, separators)].  The [for] loop over [separators] picks
    the first separator that is empty or occurs in [text]; [new_separators]
    is what follows it.  When the loop ends without [break] the separator is
    [separators[-1]], passed here as [last_separator]: every recursive call
    receives a non-empty suffix of the list, whose last element is the same. *)
Fixpoint _split_text_from (separators : list str) (last_separator : str)
    (text : str) : outcome (list str) :=
  match separators with
  | [] => split_with last_separator None text
  | _s :: new_separators =>
      if negb (truthy _s) then split_with _s None text
      else if search _s text then
        split_with _s
          (if truthy new_separators
           then Some (_split_text_from new_separators last_separator)
           else None)
          text
      else _split_text_from new_separators last_separator text
  end.

Definition _split_text (text : str) (separators : list str)
  : outcome (list str) :=
  match separators with
  | [] => Raise (mk_exn IndexError (lit "list index out of range"))
  | s0 :: rest => _split_text_from separators (List.last rest s0) text
  end.

End Splitter.

(** [RecursiveCharacterTextSplitter(chunk_size, chunk_overlap, length_function=len,
    separators).split_text(text)].  The constructor refuses an overlap larger
    than the chunk size and replaces an empty separator list by its default. *)
Definition split_text (chunk_size chunk_overlap : Z) (separators : list str)
    (text : str) : outcome (list str) :=
  if chunk_size <? chunk_overlap
  then Raise (mk_exn ValueError
                (lit "Got a larger chunk overlap (" ++ str_of_Z chunk_overlap
                 ++ lit ") than chunk size (" ++ str_of_Z chunk_size
                 ++ lit "), should be smaller."))
  else
    let _separators :=
      if truthy separators then separators
      else [[10%N; 10%N]; [10%N]; lit " "; []] in
    _split_text chunk_size chunk_overlap text _separators.

End TextSplitter.


(** ** Objects of the program *)

Abbreviation bytes := (list Byte.byte).

(** The model handles [ModelManager] can hold. *)
Inductive llm := AzureChatOpenAI | HuggingFaceEndpoint.
Inductive embeddings_client := AzureOpenAIEmbeddings.
Inductive pinecone_client := Pinecone.

Record Document := { page_content : str }.

(** A [PineconeVectorStore] bound to an index. *)
Record PineconeVectorStore := { vs_index_name : str }.

Inductive chat_message :=
  | HumanMessage (content : str)
  | AIMessage (content : str).

Record ModelManager := {
  current_model : option llm;
  model_type : option str;
  embeddings : option embeddings_client;
  pc : option pinecone_client
}.

(** [PDFProcessor.model_manager] is the [ModelManager] object of the
    [ChatManager] that owns the processor: it is stored once, in
    [ChatManager]. *)
Record PDFProcessor := {
  vectorstore : option PineconeVectorStore;
  current_index_name : option str
}.

(** [memory] is the message list of the [ConversationBufferMemory]. *)
Record ChatManager := {
  model_manager : ModelManager;
  pdf_processor : PDFProcessor;
  memory : list chat_message
}.

(** The prompt of a [RetrievalQA] chain: the template built by
    [create_rag_chain], or the library's default when none is given. *)
Inductive qa_prompt :=
  | PROMPT (template : str) (input_variables : list str)
  | default_prompt.

Record RetrievalQA := {
  qa_llm : option llm;
  qa_vectorstore : PineconeVectorStore;
  qa_search_type : option str;
  qa_k : Z;
  qa_prompt_of : qa_prompt
}.

(** What [qa_chain.invoke] returns: [result["result"]] and
    [result.get("source_documents")]. *)
Record qa_result := {
  result : str;
  source_documents : option (list Document)
}.

Inductive chain_prompt :=
  | ChatPromptTemplate (system_template human_template : str)
  | PromptTemplate (template : str).

(** An [LLMChain]; its [memory] is the [ChatManager]'s. *)
Record LLMChain := {
  chain_llm : option llm;
  chain_prompt_of : chain_prompt
}.

(** ** Calls that leave the program

    Every call to the operating system or to a hosted service is logged with
    its arguments and with what came back. *)
Inductive event :=
  | EvNamedTemporaryFile (r : outcome str)
  | EvWrite (pdf_path : str) (data : bytes) (r : outcome unit)
  | EvUnlink (pdf_path : str) (r : outcome unit)
  | EvStatus (message : str) (r : outcome unit)
  | EvEmbedQuery (text : str) (r : outcome (list float))
  | EvListIndexes (r : outcome (list str))
  | EvCreateIndex (name : str) (dimension : Z) (metric cloud region : str)
      (r : outcome unit)
  | EvDescribeIndex (name : str) (r : outcome bool)
  | EvSleep (seconds : Z)
  | EvFromDocuments (documents : list Document) (index_name : str)
      (r : outcome PineconeVectorStore)
  | EvRetrievalQA (chain : RetrievalQA) (query : str)
      (system_prompt : option str) (r : outcome qa_result)
  | EvLLMChain (chain : LLMChain) (history : list chat_message) (input : str)
      (r : outcome str).

(** The world outside the program, over a state [W] of its own: each
    operation answers from the current state and moves to the next one.
    - [NamedTemporaryFile] names the file it created;
    - [write] and [unlink] only decide whether the operation fails, their
      effect on the disk is in [save_upload] and [os_unlink] below;
    - [PdfReader] gives [extract_text()] of every page of a PDF payload;
    - [describe_index] is [describe_index(name).status['ready']];
    - [from_documents] embeds and upserts the documents;
    - [RetrievalQA_invoke] and [LLMChain_invoke] run a chain: retrieval and
      generation. *)
Class Services (W : Type) := {
  NamedTemporaryFile : W -> W * outcome str;
  write : W -> str -> bytes -> W * outcome unit;
  unlink : W -> str -> W * outcome unit;
  PdfReader : bytes -> outcome (list (option str));
  embed_query : W -> str -> W * outcome (list float);
  list_indexes : W -> W * outcome (list str);
  create_index : W -> str -> Z -> str -> str -> str -> W * outcome unit;
  describe_index : W -> str -> W * outcome bool;
  sleep : W -> Z -> W;
  from_documents :
    W -> list Document -> option embeddings_client -> str ->
    W * outcome PineconeVectorStore;
  RetrievalQA_invoke :
    W -> RetrievalQA -> str -> option str -> W * outcome qa_result;
  LLMChain_invoke :
    W -> LLMChain -> list chat_message -> str -> W * outcome str
}.

(** ** Program state and the monad of methods *)

Record State (W : Type) := mkState {
  chat_manager : ChatManager;
  files : gmap str bytes;
  services : W;
  log : list event
}.
Arguments mkState {W}.
Arguments chat_manager {W}.
Arguments files {W}.
Arguments services {W}.
Arguments log {W}.

Definition M (W A : Type) : Type := State W -> State W * outcome A.

#[global] Instance M_ret {W} : MRet (M W) := fun A a st => (st, Return a).

#[global] Instance M_bind {W} : MBind (M W) := fun A B k m st =>
  match m st with
  | (st1, Return a) => k a st1
  | (st1, Raise e) => (st1, Raise e)
  end.

Section Program.

Context {W : Type} `{Services W}.

Definition raise {A} (e : exn) : M W A := fun st => (st, Raise e).

(** [raise Exception(msg)] *)
Definition raise_Exception {A} (msg : str) : M W A := raise (mk_exn Exception msg).

(** A pure computation that may raise. *)
Definition lift {A} (r : outcome A) : M W A := fun st => (st, r).

(** [try: body except Exception as e: handler(e)] *)
Definition try_except {A} (body : M W A) (handler : exn -> M W A) : M W A :=
  fun st =>
    match body st with
    | (st1, Return a) => (st1, Return a)
    | (st1, Raise e) => handler e st1
    end.

(** [try: body finally: cleanup] *)
Definition try_finally {A} (body : M W A) (cleanup : M W unit) : M W A :=
  fun st =>
    let '(st1, r) := body st in
    match cleanup st1 with
    | (st2, Return _) => (st2, r)
    | (st2, Raise e) => (st2, Raise e)
    end.

(** A call to the outside world, logged. *)
Definition service {A} (op : W -> W * outcome A) (ev : outcome A -> event)
  : M W A :=
  fun st =>
    let '(w, r) := op (services st) in
    (mkState (chat_manager st) (files st) w (log st ++ [ev r]), r).

Definition get_chat_manager : M W ChatManager := fun st => (st, Return (chat_manager st)).

Definition set_chat_manager (cm : ChatManager) : M W unit :=
  fun st => (mkState cm (files st) (services st) (log st), Return tt).

(** A change to the files on disk. *)
Definition update_files (f : gmap str bytes -> gmap str bytes) : M W unit :=
  fun st => (mkState (chat_manager st) (f (files st)) (services st) (log st), Return tt).

(** [os.path.exists(pdf_path)] *)
Definition os_path_exists (pdf_path : str) : M W bool :=
  fun st => (st, Return (bool_decide (is_Some (files st !! pdf_path)))).

(** [time.sleep(seconds)] *)
Definition time_sleep (seconds : Z) : M W unit :=
  fun st =>
    (mkState (chat_manager st) (files st) (sleep (services st) seconds)
       (log st ++ [EvSleep seconds]), Return tt).

(** [raise AttributeError] for a method looked up on [None]. *)
Definition none_has_no_attribute {A} (attr : string) : M W A :=
  raise (mk_exn AttributeError
           (lit "'NoneType' object has no attribute '" ++ lit attr ++ lit "'")).

(** [l[0]] *)
Definition item0 {A} (l : list A) : M W A :=
  match l with
  | x :: _ => mret x
  | [] => raise (mk_exn IndexError (lit "list index out of range"))
  end.

(** ** pdf_processor.py *)

(** A page survives [if p and p.strip()], stripped. *)
Definition kept_page (p : option str) : option str :=
  match p with
  | Some t => if truthy t && truthy (strip t) then Some (strip t) else None
  | None => None
  end.

(** Opening [pdf_path] for reading. *)
Definition read_file (pdf_path : str) : M W bytes :=
  fun st =>
    match files st !! pdf_path with
    | Some data => (st, Return data)
    | None =>
        (st, Raise (mk_exn OSError
                      (lit "[Errno 2] No such file or directory: '"
                       ++ pdf_path ++ lit "'")))
    end.

Definition extract_text_from_pdf (pdf_path : str) : M W (str * Z) :=
  try_except
    (data ← read_file pdf_path;
     pages ← lift (PdfReader data);
     let pages := omap kept_page pages in
     let text := join Config.NL pages in
     if negb (truthy (strip text))
     then raise (mk_exn ValueError
                   (lit "No text could be extracted from the PDF file."))
     else mret (text, len pages))
    (fun e => raise_Exception (lit "Error reading PDF: " ++ exn_msg e)).

Definition split_text_into_chunks (text : str) : M W (list str) :=
  try_except
    (texts ← lift (TextSplitter.split_text Config.TEXT_CHUNK_SIZE
                     Config.TEXT_CHUNK_OVERLAP Config.TEXT_SEPARATORS text);
     if negb (truthy texts)
     then raise (mk_exn ValueError
                   (lit "No text chunks were created from the PDF."))
     else mret texts)
    (fun e => raise_Exception (lit "Error splitting text: " ++ exn_msg e)).

Definition test_embeddings (sample_text : str) : M W Z :=
  try_except
    (cm ← get_chat_manager;
     match embeddings (model_manager cm) with
     | None => none_has_no_attribute "embed_query"
     | Some _ =>
         vector ← service (fun w => embed_query w sample_text)
                    (EvEmbedQuery sample_text);
         mret (len vector)
     end)
    (fun e => raise_Exception (lit "Embedding test failed: " ++ exn_msg e)).

(** The loop [for i in range(polls): ... else: raise] of
    [setup_pinecone_index]: [polls] iterations are left. *)
Fixpoint wait_until_ready (index_name : str) (polls : nat) : M W unit :=
  match polls with
  | O => raise_Exception (lit "Pinecone index creation timeout")
  | S polls' =>
      ready ← service (fun w => describe_index w index_name)
                (EvDescribeIndex index_name);
      if ready : bool then mret tt
      else time_sleep 1;; wait_until_ready index_name polls'
  end.

Definition setup_pinecone_index (index_name : str) : M W (bool * str) :=
  try_except
    (cm ← get_chat_manager;
     match pc (model_manager cm) with
     | None => none_has_no_attribute "list_indexes"
     | Some _ =>
         existing_indexes ← service list_indexes EvListIndexes;
         if negb (bool_decide (index_name ∈ existing_indexes)) then
           service
             (fun w => create_index w index_name Config.VECTOR_DIMENSION
                         Config.VECTOR_METRIC Config.PINECONE_CLOUD
                         Config.PINECONE_REGION)
             (EvCreateIndex index_name Config.VECTOR_DIMENSION
                Config.VECTOR_METRIC Config.PINECONE_CLOUD
                Config.PINECONE_REGION);;
           wait_until_ready index_name 30;;
           mret (true, lit "created")
         else mret (true, lit "existing")
     end)
    (fun e =>
       raise_Exception (lit "Error setting up Pinecone index: " ++ exn_msg e)).

Definition create_documents (text_chunks : list str) : list Document :=
  map Build_Document text_chunks.

Definition upload_to_pinecone (documents : list Document) (index_name : str)
  : M W bool :=
  try_except
    (cm ← get_chat_manager;
     vs ← service
            (fun w => from_documents w documents
                        (embeddings (model_manager cm)) index_name)
            (EvFromDocuments documents index_name);
     set_chat_manager
       {| model_manager := model_manager cm;
          pdf_processor :=
            {| vectorstore := Some vs; current_index_name := Some index_name |};
          memory := memory cm |};;
     mret true)
    (fun e => raise_Exception (lit "Failed to upload to Pinecone: " ++ exn_msg e)).

(** [if status_callback: status_callback(message)] *)
Definition report (status_callback : option (W -> str -> W * outcome unit))
    (message : str) : M W unit :=
  match status_callback with
  | Some callback => service (fun w => callback w message) (EvStatus message)
  | None => mret tt
  end.

(** The [with tempfile.NamedTemporaryFile(delete=False, suffix=".pdf")]
    block: the file exists once it is created and holds the upload once the
    write went through. *)
Definition save_upload (data : bytes) : M W str :=
  pdf_path ← service NamedTemporaryFile EvNamedTemporaryFile;
  update_files (insert pdf_path []);;
  service (fun w => write w pdf_path data) (EvWrite pdf_path data);;
  update_files (insert pdf_path data);;
  mret pdf_path.

(** [os.unlink(pdf_path)] *)
Definition os_unlink (pdf_path : str) : M W unit :=
  fun st =>
    match files st !! pdf_path with
    | None =>
        (st, Raise (mk_exn OSError
                      (lit "[Errno 2] No such file or directory: '"
                       ++ pdf_path ++ lit "'")))
    | Some _ =>
        (service (fun w => unlink w pdf_path) (EvUnlink pdf_path);;
         update_files (delete pdf_path)) st
    end.

(** The [try] block of [process_pdf]. *)
Definition process_pdf_steps (pdf_path index_name : str)
    (status_callback : option (W -> str -> W * outcome unit))
  : M W (bool * str) :=
  (* Step 1: Read PDF *)
  report status_callback (lit "Reading PDF document...");;
  '(text, num_pages) ← extract_text_from_pdf pdf_path;
  report status_callback
    (lit "PDF Read Successfully - " ++ str_of_Z num_pages ++ lit " pages");;
  (* Step 2: Split text into chunks *)
  report status_callback (lit "Splitting text into chunks...");;
  texts ← split_text_into_chunks text;
  report status_callback
    (lit "Created " ++ str_of_Z (len texts) ++ lit " text chunks");;
  (* Step 3: Test embedding *)
  report status_callback (lit "Testing embeddings...");;
  sample ← item0 texts;
  vector_dim ← test_embeddings sample;
  report status_callback (lit "Vector Dimension: " ++ str_of_Z vector_dim);;
  (* Step 4: Setup Pinecone index *)
  report status_callback (lit "Setting up Pinecone index...");;
  '(success, index_status) ← setup_pinecone_index index_name;
  report status_callback
    ((if str_eqb index_status (lit "created")
      then lit "Created new" else lit "Using existing")
     ++ lit " Pinecone index: " ++ index_name);;
  (* Step 5: Create documents *)
  report status_callback (lit "Creating document vectors...");;
  let documents := create_documents texts in
  report status_callback
    (lit "Prepared " ++ str_of_Z (len documents) ++ lit " documents");;
  (* Step 6: Upload to Pinecone *)
  report status_callback (lit "Uploading to Pinecone...");;
  upload_to_pinecone documents index_name;;
  report status_callback (lit "Vector Store Ready in Pinecone!");;
  mret (true,
        lit "PDF processed successfully! Created " ++ str_of_Z (len documents)
        ++ lit " chunks from " ++ str_of_Z num_pages ++ lit " pages.").

(** The [finally] block of [process_pdf]. *)
Definition cleanup (pdf_path : str) : M W unit :=
  present ← os_path_exists pdf_path;
  if present : bool
  then try_except (os_unlink pdf_path) (fun _ => mret tt)
  else mret tt.

Definition process_pdf (uploaded_file : bytes) (index_name : str)
    (status_callback : option (W -> str -> W * outcome unit))
  : M W (bool * str) :=
  pdf_path ← save_upload uploaded_file;
  try_finally
    (try_except
       (process_pdf_steps pdf_path index_name status_callback)
       (fun e => mret (false, lit "Error processing PDF: " ++ exn_msg e)))
    (cleanup pdf_path).

(** ** model_manager.py *)

Definition is_initialized (mm : ModelManager) : bool :=
  bool_decide (is_Some (current_model mm)).

(** ** chat_manager.py *)

(** The template of [create_rag_chain]. *)
Definition prompt_template : str :=
  lit "{system_prompt}" ++ Config.NL ++ Config.NL
  ++ lit "Use the following pieces of context to answer the question at the end."
  ++ Config.NL
  ++ lit "If you don't know the answer based on the context, just say that you don't know, don't try to make up an answer."
  ++ Config.NL ++ Config.NL
  ++ lit "Context: {context}" ++ Config.NL ++ Config.NL
  ++ lit "Question: {question}" ++ Config.NL ++ Config.NL
  ++ lit "Answer: ".

(** [RetrievalQA.from_chain_type] as [create_rag_chain] calls it: a
    similarity retriever over the vector store and the persona template. *)
Definition persona_chain (cm : ChatManager) (vs : PineconeVectorStore)
  : RetrievalQA :=
  {| qa_llm := current_model (model_manager cm);
     qa_vectorstore := vs;
     qa_search_type := Some (lit "similarity");
     qa_k := Config.RETRIEVAL_K;
     qa_prompt_of :=
       PROMPT prompt_template
         [lit "system_prompt"; lit "context"; lit "question"] |}.

(** [RetrievalQA.from_chain_type] as the [except] branch of [get_response]
    calls it: no [chain_type_kwargs], so the library's prompt. *)
Definition plain_chain (cm : ChatManager) (vs : PineconeVectorStore)
  : RetrievalQA :=
  {| qa_llm := current_model (model_manager cm);
     qa_vectorstore := vs;
     qa_search_type := None;
     qa_k := Config.RETRIEVAL_K;
     qa_prompt_of := default_prompt |}.

(** The closure [rag_wrapper] returned by [create_rag_chain]: the chain and
    the persona it captured. *)
Record rag_wrapper := {
  wrapped_chain : RetrievalQA;
  wrapped_system_prompt : str
}.

Definition create_rag_chain (system_prompt : str) : M W rag_wrapper :=
  cm ← get_chat_manager;
  match vectorstore (pdf_processor cm) with
  | None =>
      raise (mk_exn ValueError
               (lit "No vector store available. Please process a PDF first."))
  | Some vs =>
      mret {| wrapped_chain := persona_chain cm vs;
              wrapped_system_prompt := system_prompt |}
  end.

(** [chain({"query": question})] for a [rag_wrapper]: the wrapper adds the
    persona to the chain's inputs. *)
Definition call_rag_wrapper (chain : rag_wrapper) (query : str) : M W qa_result :=
  service
    (fun w => RetrievalQA_invoke w (wrapped_chain chain) query
                (Some (wrapped_system_prompt chain)))
    (EvRetrievalQA (wrapped_chain chain) query
       (Some (wrapped_system_prompt chain))).

(** The chain of the [except] branch of [get_response], invoked with the
    query alone. *)
Definition fallback_chain : M W RetrievalQA :=
  cm ← get_chat_manager;
  match vectorstore (pdf_processor cm) with
  | None => none_has_no_attribute "as_retriever"
  | Some vs => mret (plain_chain cm vs)
  end.

Definition create_conversation_chain (system_prompt : str) : M W LLMChain :=
  cm ← get_chat_manager;
  let prompt :=
    if bool_decide (model_type (model_manager cm) = Some (lit "azure"))
    then ChatPromptTemplate system_prompt (lit "{input}")
    else PromptTemplate
           (system_prompt ++ Config.NL ++ Config.NL ++ lit "Question: {input}"
            ++ Config.NL ++ lit "Answer:") in
  mret {| chain_llm := current_model (model_manager cm);
          chain_prompt_of := prompt |}.

(** [chain.invoke({"input": question})["text"]] for an [LLMChain] that holds
    the manager's memory: the exchange is saved to the memory when the call
    returns. *)
Definition invoke_conversation (chain : LLMChain) (question : str) : M W str :=
  cm ← get_chat_manager;
  text ← service (fun w => LLMChain_invoke w chain (memory cm) question)
           (EvLLMChain chain (memory cm) question);
  set_chat_manager
    {| model_manager := model_manager cm;
       pdf_processor := pdf_processor cm;
       memory := memory cm ++ [HumanMessage question; AIMessage text] |};;
  mret text.

(** [result["result"], result.get("source_documents", [])] *)
Definition answer_of (r : qa_result) : str * list Document :=
  (result r, default [] (source_documents r)).

Definition get_response (question system_prompt : str) (use_rag : bool)
  : M W (str * list Document) :=
  try_except
    (cm ← get_chat_manager;
     if negb (is_initialized (model_manager cm)) then
       mret (lit "No model initialized. Please select and initialize a model first.",
             [])
     else if use_rag && negb (bool_decide (is_Some (vectorstore (pdf_processor cm)))) then
       mret (lit "RAG is enabled but no PDF has been processed. Please process a PDF first or disable RAG.",
             [])
     else if use_rag && bool_decide (is_Some (vectorstore (pdf_processor cm))) then
       (* RAG response *)
       try_except
         (chain ← create_rag_chain system_prompt;
          r ← call_rag_wrapper chain question;
          mret (answer_of r))
         (fun e =>
            (* Fallback: try without system_prompt if there's an issue *)
            try_except
              (qa_chain ← fallback_chain;
               r ← service (fun w => RetrievalQA_invoke w qa_chain question None)
                     (EvRetrievalQA qa_chain question None);
               mret (answer_of r))
              (fun fallback_error =>
                 mret (lit "RAG Error: " ++ exn_msg fallback_error, [])))
     else
       (* Regular conversation response *)
       chain ← create_conversation_chain system_prompt;
       text ← invoke_conversation chain question;
       mret (text, []))
    (fun e => mret (lit "Error generating response: " ++ exn_msg e, [])).

End Program.

(** [ChatManager.clear_memory]: [self.memory.clear()]. *)
Definition clear_memory (cm : ChatManager) : ChatManager :=
  {| model_manager := model_manager cm;
     pdf_processor := pdf_processor cm;
     memory := [] |}.

(** [ChatManager.reset_system] *)
Definition reset_system (cm : ChatManager) : ChatManager :=
  let cm := clear_memory cm in
  {| model_manager :=
       {| current_model := None;
          model_type := None;
          embeddings := embeddings (model_manager cm);
          pc := pc (model_manager cm) |};
     pdf_processor := {| vectorstore := None; current_index_name := None |};
     memory := memory cm |}.

(** ** ui_components.py: the persona widget *)

Module Session.

(** An entry of [session_state.messages]. *)
Record message := {
  role : str;
  content : str;
  model : option str;
  rag_used : option bool
}.

Record SessionState := {
  chat_manager : ChatManager;
  messages : list message;
  system_prompt : str;
  use_rag : bool;
  model_type : str;
  processed : bool;
  model_initialized : bool
}.

(** What the select box and the text area hold. *)
Inductive prompt_option :=
  | Preset (key : Config.preset)
  | Custom (text_area : str).

(** The prompt the widgets select: the text area for "Custom", the preset
    otherwise. *)
Definition selected_prompt (system_prompt_option : prompt_option) : str :=
  match system_prompt_option with
  | Custom text => text
  | Preset key => Config.SYSTEM_PROMPTS key
  end.

Definition render_system_prompt_selection (system_prompt_option : prompt_option)
    (session_state : SessionState) : SessionState :=
  let new_prompt := selected_prompt system_prompt_option in
  if negb (str_eqb new_prompt (system_prompt session_state)) then
    {| chat_manager := clear_memory (chat_manager session_state);
       messages := [];
       system_prompt := new_prompt;
       use_rag := use_rag session_state;
       model_type := model_type session_state;
       processed := processed session_state;
       model_initialized := model_initialized session_state |}
  else session_state.

End Session.

(** * Vocabulary of the properties *)

(** ** Logs *)

(** [respects R m]: running [m] takes every state to an [R]-related one. *)
Definition respects {W A} (R : State W -> State W -> Prop) (m : M W A) : Prop :=
  forall st, R st (m st).1.

(** The state after [m] has the files of the state before. *)
Definition same_files {W} (st st' : State W) : Prop := files st' = files st.

(** The log after [m] is the log before, followed by allowed events. *)
Definition log_grows {W} (allowed : event -> Prop) (st st' : State W) : Prop :=
  exists tr, log st' = log st ++ tr ∧ Forall allowed tr.

(** Calls to the operating system about the temporary file. *)
Definition file_event (ev : event) : Prop :=
  match ev with
  | EvNamedTemporaryFile _ | EvWrite _ _ _ | EvUnlink _ _ => True
  | _ => False
  end.

(** The outside calls of the [try] block of [process_pdf] for the index
    [index_name]. *)
Definition ingestion_event (index_name : str) (ev : event) : Prop :=
  match ev with
  | EvStatus _ _ | EvEmbedQuery _ _ | EvListIndexes _ => True
  | EvCreateIndex name dimension metric cloud region _ =>
      name = index_name
      ∧ dimension = Config.VECTOR_DIMENSION ∧ metric = Config.VECTOR_METRIC
      ∧ cloud = Config.PINECONE_CLOUD ∧ region = Config.PINECONE_REGION
  | EvDescribeIndex name _ => name = index_name
  | EvSleep seconds => seconds = 1
  | EvFromDocuments _ name _ => name = index_name
  | _ => False
  end.

(** Calls to the embedding capability: the probe, and the upload, which
    embeds every chunk before it upserts. *)
Definition is_embedding_call (ev : event) : bool :=
  match ev with
  | EvEmbedQuery _ _ | EvFromDocuments _ _ _ => true
  | _ => false
  end.

(** The status callback, when there is one, returns normally. *)
Definition callback_never_raises {W}
    (status_callback : option (W -> str -> W * outcome unit)) : Prop :=
  forall callback,
    status_callback = Some callback ->
    forall w message, (callback w message).2 = Return tt.

(** ** Index provisioning *)

(** [k] polls that found the index not ready, each followed by its
    one-second sleep. *)
Definition not_ready_polls (index_name : str) (k : nat) : list event :=
  concat (replicate k [EvDescribeIndex index_name (Return false); EvSleep 1]).

(** How a readiness wait of at most [polls] polls can end: ready at poll
    [k+1], a poll that raised, or [polls] polls without success. *)
Inductive wait_ends (index_name : str) (polls : nat)
  : list event -> outcome unit -> Prop :=
  | ends_ready k :
      (k < polls)%nat ->
      wait_ends index_name polls
        (not_ready_polls index_name k
         ++ [EvDescribeIndex index_name (Return true)])
        (Return tt)
  | ends_raised k e :
      (k < polls)%nat ->
      wait_ends index_name polls
        (not_ready_polls index_name k
         ++ [EvDescribeIndex index_name (Raise e)])
        (Raise e)
  | ends_timeout :
      wait_ends index_name polls
        (not_ready_polls index_name polls)
        (Raise (mk_exn Exception (lit "Pinecone index creation timeout"))).

(** The event is a poll of [describe_index]. *)
Definition is_poll (ev : event) : bool :=
  match ev with EvDescribeIndex _ _ => true | _ => false end.

(** Number of polls in a log. *)
Definition count_polls (tr : list event) : nat :=
  length (List.filter is_poll tr).

(** ** Pages and chunks *)

(** A page without text: [extract_text()] gave [None], the empty string or
    whitespace only. *)
Definition page_is_blank (p : option str) : bool :=
  match p with
  | None => true
  | Some t => negb (truthy (strip t))
  end.

(** The number of pages that have text. *)
Definition nonblank_pages (pages : list (option str)) : nat :=
  length (List.filter (fun p => negb (page_is_blank p)) pages).

(** No character of the text is whitespace. *)
Definition no_whitespace (text : str) : bool :=
  forallb (fun c => negb (isspace c)) text.

(** The chunks of a text cut by characters alone: a window of 1000
    characters that restarts 200 characters before its end.  [cur] is the
    window being filled and [rest] the characters still to come. *)
Fixpoint windows (cur rest : str) : list str :=
  match rest with
  | [] => if truthy cur then [cur] else []
  | c :: rest' =>
      if (1000 <=? length cur)%nat
      then cur :: windows (drop 800 cur ++ [c]) rest'
      else windows (cur ++ [c]) rest'
  end.

(** Every chunk but the last ends with the [n] characters the next one
    starts with. *)
Fixpoint overlapping (n : nat) (chunks : list str) : Prop :=
  match chunks with
  | a :: (b :: _) as later =>
      drop (length a - n) a = take n b ∧ overlapping n later
  | _ => True
  end.

(** * Scenarios: concrete worlds to run the program in

    The outside state counts the polls of [describe_index] answered so far. *)
Record Scenario := {
  sc_tempfile : outcome str;
  sc_write : outcome unit;
  sc_unlink : outcome unit;
  sc_pages : outcome (list (option str));
  sc_vector : outcome (list float);
  sc_indexes : outcome (list str);
  sc_create : outcome unit;
  sc_ready_after : nat;
  sc_upload : outcome unit;
  sc_first_answer : outcome qa_result;
  sc_retry_answer : outcome qa_result;
  sc_chat_answer : outcome str
}.

Definition scenario_services (sc : Scenario) : Services nat := {|
  NamedTemporaryFile w := (w, sc_tempfile sc);
  write w _ _ := (w, sc_write sc);
  unlink w _ := (w, sc_unlink sc);
  PdfReader _ := sc_pages sc;
  embed_query w _ := (w, sc_vector sc);
  list_indexes w := (w, sc_indexes sc);
  create_index w _ _ _ _ _ := (w, sc_create sc);
  describe_index w _ := (S w, Return (bool_decide (sc_ready_after sc ≤ w)%nat));
  sleep w _ := w;
  from_documents w _ _ index_name :=
    (w, _ ← sc_upload sc; Return {| vs_index_name := index_name |});
  RetrievalQA_invoke w chain _ _ :=
    (w, match qa_prompt_of chain with
        | PROMPT _ _ => sc_first_answer sc
        | default_prompt => sc_retry_answer sc
        end);
  LLMChain_invoke w _ _ _ := (w, sc_chat_answer sc)
|}.

Definition disk_full : exn := mk_exn OSError (lit "[Errno 28] No space left on device").
Definition busy : exn := mk_exn OSError (lit "[Errno 16] Device or resource busy").
Definition unavailable : exn := mk_exn ServiceError (lit "503 Service Unavailable").

(** A world in which the calls not listed as arguments work: an embedding
    model of dimension 3, no index yet, an index that reports ready at the
    third poll, a persona chain that raises and a plain chain that answers. *)
Definition scenario (tempfile : outcome str) (removal : outcome unit)
    (pages : list (option str)) : Scenario := {|
  sc_tempfile := tempfile;
  sc_write := Return tt;
  sc_unlink := removal;
  sc_pages := Return pages;
  sc_vector := Return [PrimFloat.zero; PrimFloat.one; PrimFloat.two];
  sc_indexes := Return [];
  sc_create := Return tt;
  sc_ready_after := 2;
  sc_upload := Return tt;
  sc_first_answer := Raise (mk_exn ValueError (lit "Missing some input keys"));
  sc_retry_answer :=
    Return {| result := lit "Hello.";
              source_documents := Some [Build_Document (lit "Hello world.")] |};
  sc_chat_answer := Return (lit "Hi!")
|}.

Definition tmp_pdf : str := lit "/tmp/tmpa1b2c3.pdf".

(** Everything works; the PDF has two pages, one of them with text. *)
Definition fair_weather : Scenario :=
  scenario (Return tmp_pdf) (Return tt)
    [Some (lit "  Hello world. "); Some (lit "  ")].

(** The temporary file cannot be created. *)
Definition full_disk : Scenario :=
  scenario (Raise disk_full) (Return tt) [Some (lit "Hello world.")].

(** The temporary file cannot be removed. *)
Definition locked_file : Scenario :=
  scenario (Return tmp_pdf) (Raise busy) [Some (lit "Hello world.")].

(** A scanned document: no page has text. *)
Definition scanned_pdf : Scenario :=
  scenario (Return tmp_pdf) (Return tt) [Some (lit "   "); None; Some []].

(** The same as [fair_weather], where the plain chain raises as well. *)
Definition provider_down : Scenario := {|
  sc_tempfile := Return tmp_pdf;
  sc_write := Return tt;
  sc_unlink := Return tt;
  sc_pages := Return [Some (lit "Hello world.")];
  sc_vector := Raise unavailable;
  sc_indexes := Return [];
  sc_create := Return tt;
  sc_ready_after := 40;
  sc_upload := Raise unavailable;
  sc_first_answer := Raise unavailable;
  sc_retry_answer := Raise unavailable;
  sc_chat_answer := Raise unavailable
|}.

Definition fresh_manager : ChatManager := {|
  model_manager :=
    {| current_model := None; model_type := None;
       embeddings := Some AzureOpenAIEmbeddings; pc := Some Pinecone |};
  pdf_processor := {| vectorstore := None; current_index_name := None |};
  memory := []
|}.

Definition initial_state : State nat := mkState fresh_manager ∅ 0%nat [].

Definition pdf_payload : bytes := [Byte.x25; Byte.x50; Byte.x44; Byte.x46].

Definition index_name0 : str := lit "pdf-chatbot-index".

(** A manager with a model and no vector store. *)
Definition manager_without_store : ChatManager := {|
  model_manager :=
    {| current_model := Some AzureChatOpenAI; model_type := Some (lit "azure");
       embeddings := Some AzureOpenAIEmbeddings; pc := Some Pinecone |};
  pdf_processor := {| vectorstore := None; current_index_name := None |};
  memory := []
|}.


(** Three paragraphs of 900 characters: a's, b's and c's. *)
Definition three_paragraphs : str :=
  repeat 97%N 900 ++ Config.NL ++ Config.NL ++ repeat 98%N 900
  ++ Config.NL ++ Config.NL ++ repeat 99%N 900.

(** A text without whitespace: the ten digits, [tens] times over. *)
Definition digits (tens : nat) : str :=
  concat (replicate tens [48; 49; 50; 51; 52; 53; 54; 55; 56; 57]%N).

Definition digits_1200 : str := digits 120.

(** A session with two turns in its log and in its memory, a model, a
    populated index and RAG switched on. *)
Definition busy_session : Session.SessionState := {|
  Session.chat_manager :=
    {| model_manager :=
         {| current_model := Some AzureChatOpenAI;
            model_type := Some (lit "azure");
            embeddings := Some AzureOpenAIEmbeddings;
            pc := Some Pinecone |};
       pdf_processor :=
         {| vectorstore := Some {| vs_index_name := lit "pdf-chatbot-index" |};
            current_index_name := Some (lit "pdf-chatbot-index") |};
       memory := [HumanMessage (lit "A"); AIMessage (lit "B")] |};
  Session.messages :=
    [ {| Session.role := lit "user"; Session.content := lit "A";
         Session.model := None; Session.rag_used := None |};
      {| Session.role := lit "assistant"; Session.content := lit "B";
         Session.model := Some (lit "azure"); Session.rag_used := Some true |} ];
  Session.system_prompt := Config.SYSTEM_PROMPTS Config.HelpfulAssistant;
  Session.use_rag := true;
  Session.model_type := lit "azure";
  Session.processed := true;
  Session.model_initialized := true
|}.

(** * More of the program *)

(** ** chat_manager.py: what the chains of a manager are *)

(** The [LLMChain] that [create_conversation_chain] returns for a manager:
    a chat prompt for the Azure model, a plain template otherwise. *)
Definition conversation_chain (cm : ChatManager) (system_prompt : str)
  : LLMChain :=
  {| chain_llm := current_model (model_manager cm);
     chain_prompt_of :=
       if bool_decide (model_type (model_manager cm) = Some (lit "azure"))
       then ChatPromptTemplate system_prompt (lit "{input}")
       else PromptTemplate
              (system_prompt ++ Config.NL ++ Config.NL
               ++ lit "Question: {input}" ++ Config.NL ++ lit "Answer:") |}.

(** The manager after an exchange was saved to its memory. *)
Definition remember (cm : ChatManager) (question text : str) : ChatManager :=
  {| model_manager := model_manager cm;
     pdf_processor := pdf_processor cm;
     memory := memory cm ++ [HumanMessage question; AIMessage text] |}.

(** The event is an invocation of a conversation chain. *)
Definition is_conversation_call (ev : event) : bool :=
  match ev with EvLLMChain _ _ _ _ => true | _ => false end.

(** The event is an invocation of a retrieval chain. *)
Definition is_retrieval_call (ev : event) : bool :=
  match ev with EvRetrievalQA _ _ _ _ => true | _ => false end.

(** ** pdf_processor.py: the order of the outside calls of an ingestion *)

(** How far the [try] block of [process_pdf] has come: nothing probed yet;
    the embedding probe answered; no index of the name is listed; the index
    was created and [polls] polls are left; a poll found the index not
    ready; the index is listed or reported ready; the documents are
    uploaded; a call raised. *)
Inductive stage :=
  | Reading
  | Probed
  | Missing
  | Polling (polls : nat)
  | Sleeping (polls : nat)
  | Ready
  | Uploaded
  | Failed.

(** The call raised. *)
Definition raised (ev : event) : bool :=
  match ev with
  | EvNamedTemporaryFile (Raise _) | EvWrite _ _ (Raise _)
  | EvUnlink _ (Raise _) | EvStatus _ (Raise _) | EvEmbedQuery _ (Raise _)
  | EvListIndexes (Raise _) | EvCreateIndex _ _ _ _ _ (Raise _)
  | EvDescribeIndex _ (Raise _) | EvFromDocuments _ _ (Raise _)
  | EvRetrievalQA _ _ _ (Raise _) | EvLLMChain _ _ _ (Raise _) => true
  | _ => false
  end.

(** The stage after a call that was possible at stage [s]: [t] when it
    returned. *)
Definition after {A} (r : outcome A) (t : stage) : stage :=
  match r with
  | Return _ => t
  | Raise _ => Failed
  end.

(** The stages between two steps, where the status callback is told
    something. *)
Definition between_steps (s : stage) : bool :=
  match s with
  | Reading | Probed | Ready | Uploaded => true
  | _ => false
  end.

(** The outside calls the [try] block of [process_pdf] can make at a stage,
    for the index [index_name], and the stage each one leads to. *)
Definition next (index_name : str) (s : stage) (ev : event) : option stage :=
  match ev with
  | EvStatus _ r => if between_steps s then Some (after r s) else None
  | EvEmbedQuery _ r =>
      match s with
      | Reading => Some (after r Probed)
      | _ => None
      end
  | EvListIndexes r =>
      match s with
      | Probed =>
          Some match r with
               | Return existing_indexes =>
                   if bool_decide (index_name ∈ existing_indexes)
                   then Ready else Missing
               | Raise _ => Failed
               end
      | _ => None
      end
  | EvCreateIndex name dimension metric cloud region r =>
      match s with
      | Missing =>
          if bool_decide (name = index_name) then Some (after r (Polling 30))
          else None
      | _ => None
      end
  | EvDescribeIndex name r =>
      match s with
      | Polling (S polls) =>
          if bool_decide (name = index_name)
          then Some match r with
                    | Return true => Ready
                    | Return false => Sleeping polls
                    | Raise _ => Failed
                    end
          else None
      | _ => None
      end
  | EvSleep seconds =>
      match s with
      | Sleeping polls =>
          if bool_decide (seconds = 1) then Some (Polling polls) else None
      | _ => None
      end
  | EvFromDocuments _ name r =>
      match s with
      | Ready =>
          if bool_decide (name = index_name) then Some (after r Uploaded)
          else None
      | _ => None
      end
  | _ => None
  end.

(** The stage a sequence of calls leads to, when every call is possible at
    the stage it is made at. *)
Fixpoint stage_after (index_name : str) (s : stage) (tr : list event)
  : option stage :=
  match tr with
  | [] => Some s
  | ev :: tr' =>
      match next index_name s ev with
      | Some s' => stage_after index_name s' tr'
      | None => None
      end
  end.

(** What a call does to the fields of the [PDFProcessor]: an upload that
    returned stores the vector store and the name of its index. *)
Definition store_step (pp : PDFProcessor) (ev : event) : PDFProcessor :=
  match ev with
  | EvFromDocuments _ name (Return vs) =>
      {| vectorstore := Some vs; current_index_name := Some name |}
  | _ => pp
  end.

Definition store_after (tr : list event) (pp : PDFProcessor) : PDFProcessor :=
  fold_left store_step tr pp.

(** The call tells that the index [index_name] can take documents: it is
    listed, or it is reported ready. *)
Definition index_is_available (index_name : str) (ev : event) : bool :=
  match ev with
  | EvListIndexes (Return existing_indexes) =>
      bool_decide (index_name ∈ existing_indexes)
  | EvDescribeIndex name (Return true) => bool_decide (name = index_name)
  | _ => false
  end.

(** [m], started at stage [s], makes calls that are possible one after the
    other, is at stage [t a] when it returns [a], and leaves the manager as
    the calls it made tell. *)
Definition follows {W A} (index_name : str) (s : stage) (m : M W A)
    (t : A -> stage) : Prop :=
  forall st : State W,
    exists (tr : list event) (s' : stage),
      log (m st).1 = log st ++ tr
      ∧ stage_after index_name s tr = Some s'
      ∧ (forall a, (m st).2 = Return a -> s' = t a)
      ∧ model_manager (chat_manager (m st).1) = model_manager (chat_manager st)
      ∧ memory (chat_manager (m st).1) = memory (chat_manager st)
      ∧ pdf_processor (chat_manager (m st).1)
        = store_after tr (pdf_processor (chat_manager st)).


#[global] Instance byte_eq_decision : EqDecision Byte.byte := Byte.byte_eq_dec.



(** The persona chain answers, with one source. *)
Definition persona_answers : Scenario := {|
  sc_tempfile := Return tmp_pdf;
  sc_write := Return tt;
  sc_unlink := Return tt;
  sc_pages := Return [Some (lit "Hello world.")];
  sc_vector := Return [PrimFloat.zero; PrimFloat.one; PrimFloat.two];
  sc_indexes := Return [index_name0];
  sc_create := Return tt;
  sc_ready_after := 0;
  sc_upload := Return tt;
  sc_first_answer :=
    Return {| result := lit "It greets the world.";
              source_documents := Some [Build_Document (lit "Hello world.")] |};
  sc_retry_answer := Raise unavailable;
  sc_chat_answer := Return (lit "Hi!")
|}.

(** ** pdf_processor.py: what the steps of an ingestion return and raise *)

(** [m], run in a state that satisfies [I], ends in a state that satisfies
    [I], with a value that satisfies [Q] when it returns and an exception
    that satisfies [E] when it raises. *)
Definition ensures {W A} (I : State W -> Prop) (m : M W A) (Q : A -> Prop)
    (E : exn -> Prop) : Prop :=
  forall st : State W,
    I st ->
    I (m st).1
    ∧ match (m st).2 with
      | Return a => Q a
      | Raise e => E e
      end.

(** What the messages of the exceptions of the five steps start with. *)
Definition step_prefixes : list str :=
  [lit "Error reading PDF: "; lit "Error splitting text: ";
   lit "Embedding test failed: "; lit "Error setting up Pinecone index: ";
   lit "Failed to upload to Pinecone: "].

(** An [Exception] as the steps raise them: the prefix of a step, then the
    message of what went wrong in it. *)
Definition raised_by_a_step (e : exn) : Prop :=
  exn_cls e = Exception
  ∧ exists prefix detail : str,
      prefix ∈ step_prefixes ∧ exn_msg e = prefix ++ detail.

(** The documents are the chunks of the text of the upload, one document
    for each chunk, in their order. *)
Definition chunks_of_upload {W} `{Services W} (uploaded_file : bytes)
    (documents : list Document) : Prop :=
  exists (pages : list (option str)) (texts : list str),
    PdfReader uploaded_file = Return pages
    ∧ TextSplitter.split_text Config.TEXT_CHUNK_SIZE Config.TEXT_CHUNK_OVERLAP
        Config.TEXT_SEPARATORS (join Config.NL (omap kept_page pages))
      = Return texts
    ∧ documents = create_documents texts.

(** The event is an upload of documents. *)
Definition is_upload (ev : event) : bool :=
  match ev with EvFromDocuments _ _ _ => true | _ => false end.

(** ** config.py: the credentials and the model parameters *)

Module Settings.

(** The attributes of [Config] read from the environment when the module is
    imported: [os.environ.get] gives [None] for a variable that is not
    set. *)
Record Environ := {
  PINECONE_API_KEY : option str;
  AZURE_OPENAI_KEY : option str;
  AZURE_OPENAI_ENDPOINT : option str;
  AZURE_DEPLOYMENT_NAME : option str;
  HUGGINGFACE_API_KEY : option str
}.

Definition AZURE_API_VERSION : str := lit "2024-02-01".
Definition AZURE_EMBEDDING_DEPLOYMENT : str := lit "text-embedding-3-small".
Definition AZURE_EMBEDDING_MODEL : str := lit "text-embedding-3-small".
Definition AZURE_EMBEDDING_API_VERSION : str := lit "2023-05-15".
Definition HUGGINGFACE_MODEL_REPO : str := lit "microsoft/DialoGPT-large".
(** 0.7, as a binary64 number. *)
Definition DEFAULT_TEMPERATURE : float := 0x1.6666666666666p-1%float.
Definition MAX_TOKENS_AZURE : Z := 800.
Definition MAX_LENGTH_HUGGINGFACE : Z := 512.
Definition EMBEDDING_CHUNK_SIZE : Z := 1000.

(** Truth value of an attribute: set, and not the empty string. *)
Definition is_set (value : option str) : bool :=
  match value with
  | Some s => truthy s
  | None => false
  end.

(** [EnvironmentError] is [OSError]. *)
Definition validate_azure_config (environ : Environ) : outcome bool :=
  let required :=
    [AZURE_OPENAI_KEY environ; AZURE_OPENAI_ENDPOINT environ;
     AZURE_DEPLOYMENT_NAME environ] in
  if negb (forallb is_set required)
  then Raise (mk_exn OSError
                (lit "Azure OpenAI credentials not set in environment"))
  else Return true.

Definition validate_pinecone_config (environ : Environ) : outcome bool :=
  if negb (is_set (PINECONE_API_KEY environ))
  then Raise (mk_exn OSError (lit "PINECONE_API_KEY not set in environment"))
  else Return true.

Definition validate_huggingface_config (environ : Environ) : outcome bool :=
  if negb (is_set (HUGGINGFACE_API_KEY environ))
  then Raise (mk_exn OSError
                (lit "HUGGINGFACE_API_KEY not set in environment"))
  else Return true.

End Settings.

(** ** model_manager.py *)

(** The installation: the environment the process was started in and the
    constructors of the client libraries, which tell whether the
    construction raises.  Their arguments are the keyword arguments of the
    source, in its order.  A construction is not recorded in the log. *)
Class Clients (W : Type) := {
  environ : Settings.Environ;
  new_Pinecone : W -> option str -> W * outcome unit;
  new_AzureOpenAIEmbeddings :
    W -> str -> str -> str -> option str -> option str -> str -> Z ->
    W * outcome unit;
  new_AzureChatOpenAI :
    W -> option str -> option str -> str -> option str -> float -> Z ->
    W * outcome unit;
  new_HuggingFaceEndpoint :
    W -> str -> option str -> float -> Z -> W * outcome unit
}.

(** [ModelManager.__init__], [PDFProcessor.__init__] and
    [ChatManager.__init__]. *)
Definition new_ModelManager : ModelManager :=
  {| current_model := None; model_type := None;
     embeddings := None; pc := None |}.

Definition new_PDFProcessor : PDFProcessor :=
  {| vectorstore := None; current_index_name := None |}.

Definition new_ChatManager : ChatManager :=
  {| model_manager := new_ModelManager;
     pdf_processor := new_PDFProcessor;
     memory := [] |}.

Section Models.

Context {W : Type} `{Clients W}.

(** The construction of a client: [handle] when it does not raise. *)
Definition construct {A} (op : W -> W * outcome unit) (handle : A) : M W A :=
  fun st =>
    let '(w, r) := op (services st) in
    (mkState (chat_manager st) (files st) w (log st),
     match r with
     | Return _ => Return handle
     | Raise e => Raise e
     end).

(** An assignment to attributes of [self] in [ModelManager]. *)
Definition update_model_manager (f : ModelManager -> ModelManager) : M W unit :=
  cm ← get_chat_manager;
  set_chat_manager
    {| model_manager := f (model_manager cm);
       pdf_processor := pdf_processor cm;
       memory := memory cm |}.

Definition initialize_components : M W bool :=
  try_except
    ((* Validate configuration *)
     lift (Settings.validate_pinecone_config environ);;
     lift (Settings.validate_azure_config environ);;
     (* Initialize Pinecone *)
     client ← construct
                (fun w => new_Pinecone w (Settings.PINECONE_API_KEY environ))
                Pinecone;
     update_model_manager
       (fun self =>
          {| current_model := current_model self;
             model_type := model_type self;
             embeddings := embeddings self;
             pc := Some client |});;
     (* Initialize embeddings *)
     client ← construct
                (fun w =>
                   new_AzureOpenAIEmbeddings w
                     Settings.AZURE_EMBEDDING_DEPLOYMENT
                     Settings.AZURE_EMBEDDING_MODEL (lit "azure")
                     (Settings.AZURE_OPENAI_KEY environ)
                     (Settings.AZURE_OPENAI_ENDPOINT environ)
                     Settings.AZURE_EMBEDDING_API_VERSION
                     Settings.EMBEDDING_CHUNK_SIZE)
                AzureOpenAIEmbeddings;
     update_model_manager
       (fun self =>
          {| current_model := current_model self;
             model_type := model_type self;
             embeddings := Some client;
             pc := pc self |});;
     mret true)
    (fun e =>
       raise_Exception (lit "Error initializing components: " ++ exn_msg e)).

Definition initialize_azure_model : M W bool :=
  try_except
    (lift (Settings.validate_azure_config environ);;
     model ← construct
               (fun w =>
                  new_AzureChatOpenAI w
                    (Settings.AZURE_OPENAI_ENDPOINT environ)
                    (Settings.AZURE_OPENAI_KEY environ)
                    Settings.AZURE_API_VERSION
                    (Settings.AZURE_DEPLOYMENT_NAME environ)
                    Settings.DEFAULT_TEMPERATURE Settings.MAX_TOKENS_AZURE)
               AzureChatOpenAI;
     update_model_manager
       (fun self =>
          {| current_model := Some model;
             model_type := Some (lit "azure");
             embeddings := embeddings self;
             pc := pc self |});;
     mret true)
    (fun e =>
       raise_Exception (lit "Error initializing Azure model: " ++ exn_msg e)).

Definition initialize_huggingface_model : M W bool :=
  try_except
    (lift (Settings.validate_huggingface_config environ);;
     model ← construct
               (fun w =>
                  new_HuggingFaceEndpoint w Settings.HUGGINGFACE_MODEL_REPO
                    (Settings.HUGGINGFACE_API_KEY environ)
                    Settings.DEFAULT_TEMPERATURE
                    Settings.MAX_LENGTH_HUGGINGFACE)
               HuggingFaceEndpoint;
     update_model_manager
       (fun self =>
          {| current_model := Some model;
             model_type := Some (lit "huggingface");
             embeddings := embeddings self;
             pc := pc self |});;
     mret true)
    (fun e =>
       raise_Exception
         (lit "Error initializing HuggingFace model: " ++ exn_msg e)).

(** [ChatManager.initialize_system] *)
Definition initialize_system : M W bool := initialize_components.

End Models.

Definition get_current_model_info (self : ModelManager) : str :=
  if bool_decide (model_type self = Some (lit "azure")) then lit "Azure OpenAI"
  else if bool_decide (model_type self = Some (lit "huggingface"))
  then lit "HuggingFace"
  else lit "No model selected".

(** The model type of a manager names the model it holds. *)
Definition model_type_names_the_model (self : ModelManager) : Prop :=
  match current_model self with
  | None => model_type self = None
  | Some AzureChatOpenAI => model_type self = Some (lit "azure")
  | Some HuggingFaceEndpoint => model_type self = Some (lit "huggingface")
  end.

(** ** app.py and ui_components.py: what a script run does to the session *)

(** The application between two script runs: the session state, whose
    [chat_manager] the methods run on, the files on disk, the world outside
    and the log of the calls made so far.  A handler is given what its
    widgets return and gives the application after it.  [st.rerun()] ends
    the script run by raising a [RerunException], which is a
    [BaseException] and passes the [except Exception] clauses around it:
    the state it leaves is the state of the handler at that point. *)
Record App (W : Type) := mkApp {
  session_state : Session.SessionState;
  app_files : gmap str bytes;
  app_services : W;
  app_log : list event
}.
Arguments mkApp {W}.
Arguments session_state {W}.
Arguments app_files {W}.
Arguments app_services {W}.
Arguments app_log {W}.

(** What the radio button of the model selection offers. *)
Inductive model_choice := RadioAzure | RadioHuggingFace.

Definition choice_str (choice : model_choice) : str :=
  match choice with
  | RadioAzure => lit "azure"
  | RadioHuggingFace => lit "huggingface"
  end.

(** [{"role": "user", "content": prompt}] *)
Definition user_message (prompt : str) : Session.message :=
  {| Session.role := lit "user"; Session.content := prompt;
     Session.model := None; Session.rag_used := None |}.

(** The entry of an answer, with the keys ["model"] and ["rag_used"]. *)
Definition assistant_message (response model_type : str) (rag_used : bool)
  : Session.message :=
  {| Session.role := lit "assistant"; Session.content := response;
     Session.model := Some model_type; Session.rag_used := Some rag_used |}.

(** The entry of the [except] branch of the chat turn: the cross mark
    U+274C, then the error. *)
Definition error_message (e : exn) : Session.message :=
  {| Session.role := lit "assistant";
     Session.content :=
       [10060%N] ++ lit " Error generating response: " ++ exn_msg e;
     Session.model := None; Session.rag_used := None |}.

Section Handlers.

Context {W : Type} `{Services W} `{Clients W}.

(** An assignment to attributes of [session_state]. *)
Definition on_session (f : Session.SessionState -> Session.SessionState)
    (app : App W) : App W :=
  mkApp (f (session_state app)) (app_files app) (app_services app)
    (app_log app).

Definition with_chat_manager (cm : ChatManager)
    (session_state : Session.SessionState) : Session.SessionState :=
  {| Session.chat_manager := cm;
     Session.messages := Session.messages session_state;
     Session.system_prompt := Session.system_prompt session_state;
     Session.use_rag := Session.use_rag session_state;
     Session.model_type := Session.model_type session_state;
     Session.processed := Session.processed session_state;
     Session.model_initialized := Session.model_initialized session_state |}.

(** [session_state.messages.append(message)] *)
Definition append_message (message : Session.message)
    (session_state : Session.SessionState) : Session.SessionState :=
  {| Session.chat_manager := Session.chat_manager session_state;
     Session.messages := Session.messages session_state ++ [message];
     Session.system_prompt := Session.system_prompt session_state;
     Session.use_rag := Session.use_rag session_state;
     Session.model_type := Session.model_type session_state;
     Session.processed := Session.processed session_state;
     Session.model_initialized := Session.model_initialized session_state |}.

(** A method of [session_state.chat_manager], run on the application. *)
Definition call_manager {A} (m : M W A) (app : App W) : App W * outcome A :=
  let '(st, r) :=
    m (mkState (Session.chat_manager (session_state app)) (app_files app)
         (app_services app) (app_log app)) in
  (mkApp (with_chat_manager (chat_manager st) (session_state app)) (files st)
     (services st) (log st),
   r).

(** The first script run of [initialize_session_state]: no key is in the
    session state.  An error of [initialize_system] is displayed and the
    run goes on.  In later runs every key is there and nothing is done. *)
Definition initialize_session_state (disk : gmap str bytes) (w : W) : App W :=
  (call_manager initialize_system
     (mkApp
        {| Session.chat_manager := new_ChatManager;
           Session.messages := [];
           Session.system_prompt :=
             lit "You are a helpful AI assistant. Provide clear, concise, and accurate responses.";
           Session.use_rag := true;
           Session.model_type := lit "azure";
           Session.processed := false;
           Session.model_initialized := false |}
        disk w [])).1.

(** [render_model_selection], for the choice of the radio button and the
    state of the button "Initialize Model".  A failed initialization is
    displayed. *)
Definition render_model_selection (choice : model_choice)
    (initialize_model : bool) (app : App W) : App W :=
  let model_type := choice_str choice in
  if (negb (Session.model_initialized (session_state app))
      || negb (str_eqb model_type (Session.model_type (session_state app))))
     && initialize_model
  then
    match
      call_manager
        (if str_eqb model_type (lit "azure") then initialize_azure_model
         else initialize_huggingface_model) app
    with
    | (app', Return success) =>
        if success : bool then
          on_session
            (fun session_state =>
               {| Session.chat_manager := Session.chat_manager session_state;
                  Session.messages := Session.messages session_state;
                  Session.system_prompt := Session.system_prompt session_state;
                  Session.use_rag := Session.use_rag session_state;
                  Session.model_type := model_type;
                  Session.processed := Session.processed session_state;
                  Session.model_initialized := true |})
            app'
        else app'
    | (app', Raise e) => app'
    end
  else app.

(** [process_pdf_with_status]: [status] is [status_container.status]. *)
Definition process_pdf_with_status (uploaded_file : bytes) (index_name : str)
    (status : W -> str -> W * outcome unit) (app : App W)
  : App W * outcome unit :=
  match call_manager (process_pdf uploaded_file index_name (Some status)) app with
  | (app', Return (success, message)) =>
      (if success : bool then
         on_session
           (fun session_state =>
              {| Session.chat_manager := Session.chat_manager session_state;
                 Session.messages := Session.messages session_state;
                 Session.system_prompt := Session.system_prompt session_state;
                 Session.use_rag := Session.use_rag session_state;
                 Session.model_type := Session.model_type session_state;
                 Session.processed := true;
                 Session.model_initialized :=
                   Session.model_initialized session_state |})
           app'
       else app',
       Return tt)
  | (app', Raise e) => (app', Raise e)
  end.

(** [render_rag_settings], for the state of the checkbox, the index name,
    the uploaded file and the state of the button "Process PDF".  After a
    change of the checkbox the script is run again. *)
Definition render_rag_settings (use_rag : bool) (index_name : str)
    (uploaded_file : option bytes) (process : bool)
    (status : W -> str -> W * outcome unit) (app : App W)
  : App W * outcome unit :=
  if negb (eqb use_rag (Session.use_rag (session_state app))) then
    (on_session
       (fun session_state =>
          {| Session.chat_manager := Session.chat_manager session_state;
             Session.messages := Session.messages session_state;
             Session.system_prompt := Session.system_prompt session_state;
             Session.use_rag := use_rag;
             Session.model_type := Session.model_type session_state;
             Session.processed := Session.processed session_state;
             Session.model_initialized :=
               Session.model_initialized session_state |})
       app,
     Return tt)
  else if use_rag then
    match uploaded_file with
    | Some data =>
        if negb (Session.processed (session_state app)) && process
        then process_pdf_with_status data index_name status app
        else (app, Return tt)
    | None => (app, Return tt)
    end
  else (app, Return tt).

(** [render_chat_management], for the states of the buttons "New Chat" and
    "Clear All": after either the script is run again. *)
Definition render_chat_management (new_chat clear_all : bool) (app : App W)
  : App W :=
  if new_chat then
    on_session
      (fun session_state =>
         {| Session.chat_manager :=
              clear_memory (Session.chat_manager session_state);
            Session.messages := [];
            Session.system_prompt := Session.system_prompt session_state;
            Session.use_rag := Session.use_rag session_state;
            Session.model_type := Session.model_type session_state;
            Session.processed := Session.processed session_state;
            Session.model_initialized :=
              Session.model_initialized session_state |})
      app
  else if clear_all then
    on_session
      (fun session_state =>
         {| Session.chat_manager :=
              reset_system (Session.chat_manager session_state);
            Session.messages := [];
            Session.system_prompt := Session.system_prompt session_state;
            Session.use_rag := Session.use_rag session_state;
            Session.model_type := Session.model_type session_state;
            Session.processed := false;
            Session.model_initialized := false |})
      app
  else app.

(** The chat turn of [render_chat_interface], for what [st.chat_input]
    returned. *)
Definition render_chat_interface (prompt : option str) (app : App W) : App W :=
  if Session.model_initialized (session_state app) then
    match prompt with
    | Some prompt =>
        if truthy prompt then
          (* Add user message to chat *)
          let app := on_session (append_message (user_message prompt)) app in
          (* Generate AI response *)
          match
            call_manager
              (get_response prompt (Session.system_prompt (session_state app))
                 (Session.use_rag (session_state app)))
              app
          with
          | (app, Return (response, sources)) =>
              on_session
                (append_message
                   (assistant_message response
                      (Session.model_type (session_state app))
                      (Session.use_rag (session_state app)
                       && Session.processed (session_state app))))
                app
          | (app, Raise e) => on_session (append_message (error_message e)) app
          end
        else app
    | None => app
    end
  else app.

(** The states of the application: after the first script run, and after
    a widget was used in a state that was reached. *)
Inductive reachable : App W -> Prop :=
  | reach_first_run disk w : reachable (initialize_session_state disk w)
  | reach_model_selection app choice initialize_model :
      reachable app ->
      reachable (render_model_selection choice initialize_model app)
  | reach_system_prompt_selection app system_prompt_option :
      reachable app ->
      reachable
        (on_session
           (Session.render_system_prompt_selection system_prompt_option) app)
  | reach_rag_settings app use_rag index_name uploaded_file process status :
      reachable app ->
      reachable
        (render_rag_settings use_rag index_name uploaded_file process status
           app).1
  | reach_chat_management app new_chat clear_all :
      reachable app ->
      reachable (render_chat_management new_chat clear_all app)
  | reach_chat_interface app prompt :
      reachable app ->
      reachable (render_chat_interface prompt app).

End Handlers.

(** The flags of the session agree with the manager: when the model is
    shown as initialized, the manager holds a model of the type shown; when
    a PDF is shown as processed, the PDF processor holds a vector store. *)
Definition flags_agree (session_state : Session.SessionState) : Prop :=
  (Session.model_initialized session_state = true ->
   is_initialized (model_manager (Session.chat_manager session_state)) = true
   ∧ model_type (model_manager (Session.chat_manager session_state))
     = Some (Session.model_type session_state))
  ∧ (Session.processed session_state = true ->
     is_Some
       (vectorstore (pdf_processor (Session.chat_manager session_state)))).

(** The log of the chat is a sequence of exchanges: a user message, then
    the answer with its model and its RAG flag. *)
Fixpoint exchanges (messages : list Session.message) : Prop :=
  match messages with
  | [] => True
  | question :: answer :: later =>
      (exists prompt, question = user_message prompt)
      ∧ (exists response model_type rag_used,
           answer = assistant_message response model_type rag_used)
      ∧ exchanges later
  | _ => False
  end.

(** The upload cannot be written to the temporary file. *)
Definition unwritable : Scenario := {|
  sc_tempfile := Return tmp_pdf;
  sc_write := Raise disk_full;
  sc_unlink := Return tt;
  sc_pages := Return [Some (lit "Hello world.")];
  sc_vector := Return [PrimFloat.zero; PrimFloat.one; PrimFloat.two];
  sc_indexes := Return [];
  sc_create := Return tt;
  sc_ready_after := 2;
  sc_upload := Return tt;
  sc_first_answer := Raise unavailable;
  sc_retry_answer := Raise unavailable;
  sc_chat_answer := Return (lit "Hi!")
|}.

(** An installation with every credential set, where every construction
    works. *)
Definition credentials : Settings.Environ := {|
  Settings.PINECONE_API_KEY := Some (lit "pc-key");
  Settings.AZURE_OPENAI_KEY := Some (lit "az-key");
  Settings.AZURE_OPENAI_ENDPOINT := Some (lit "https://example.openai.azure.com/");
  Settings.AZURE_DEPLOYMENT_NAME := Some (lit "gpt-4o");
  Settings.HUGGINGFACE_API_KEY := Some (lit "hf-key")
|}.

Definition working_clients : Clients nat := {|
  environ := credentials;
  new_Pinecone w _ := (w, Return tt);
  new_AzureOpenAIEmbeddings w _ _ _ _ _ _ _ := (w, Return tt);
  new_AzureChatOpenAI w _ _ _ _ _ _ := (w, Return tt);
  new_HuggingFaceEndpoint w _ _ _ _ := (w, Return tt)
|}.

(** The session after the first script run, and after the Azure model was
    initialized in it. *)
Definition first_run : App nat :=
  @initialize_session_state nat working_clients ∅ 0%nat.

Definition model_chosen : App nat :=
  @render_model_selection nat working_clients RadioAzure true first_run.

(** Case analysis on the branch a method takes. *)
Ltac case_branch :=
  cbv beta zeta;
  match goal with
  | |- respects _ (if ?b then _ else _) => destruct b
  | |- respects _ (match ?x with _ => _ end) => destruct x
  end.

(** * Properties *)

Arguments lit : simpl never.
Arguments str_of_Z : simpl never.
Opaque lit str_of_Z.

(** ** The persona widget *)

(** C9: when the selected persona differs from the current one, the
    conversation log and the memory buffer are emptied, the new persona is
    stored, and the model manager (the model handle), the PDF processor (the
    vector store reference) and the RAG setting are what they were. *)
Theorem persona_change_clears_history
    (system_prompt_option : Session.prompt_option)
    (session_state : Session.SessionState) :
  Session.selected_prompt system_prompt_option
    ≠ Session.system_prompt session_state ->
  let after :=
    Session.render_system_prompt_selection system_prompt_option session_state in
  Session.messages after = []
  ∧ memory (Session.chat_manager after) = []
  ∧ Session.system_prompt after = Session.selected_prompt system_prompt_option
  ∧ model_manager (Session.chat_manager after)
    = model_manager (Session.chat_manager session_state)
  ∧ pdf_processor (Session.chat_manager after)
    = pdf_processor (Session.chat_manager session_state)
  ∧ Session.use_rag after = Session.use_rag session_state
  ∧ Session.model_type after = Session.model_type session_state
  ∧ Session.processed after = Session.processed session_state
  ∧ Session.model_initialized after = Session.model_initialized session_state.
Proof.
  intros Hchanged after. subst after.
  unfold Session.render_system_prompt_selection, str_eqb.
  rewrite bool_decide_eq_false_2 by exact Hchanged.
  simpl. repeat split; reflexivity.
Qed.

(** C9 at work: choosing the technical expert in a session that talked to
    the helpful assistant empties the log. *)
Lemma persona_change_clears_history_witness :
  Session.messages
    (Session.render_system_prompt_selection
       (Session.Preset Config.TechnicalExpert) busy_session) = [].
Proof.
  apply (persona_change_clears_history
           (Session.Preset Config.TechnicalExpert) busy_session).
  vm_compute. discriminate.
Defined.

(** ** Answering *)

Section Answering.

Context {W : Type} `{Services W}.

(** C4: with a model but no vector store, a RAG question is answered by the
    fixed guidance text and no sources; the state, and with it the log of
    outside calls, is left as it was, so no chain was invoked. *)
Theorem rag_without_store_gives_guidance
    (st : State W) (question system_prompt : str) :
  is_initialized (model_manager (chat_manager st)) = true ->
  vectorstore (pdf_processor (chat_manager st)) = None ->
  get_response question system_prompt true st
  = (st,
     Return
       (lit "RAG is enabled but no PDF has been processed. Please process a PDF first or disable RAG.",
        []))
  ∧ log (get_response question system_prompt true st).1 = log st.
Proof.
  intros Hmodel Hstore.
  assert (Hrun : get_response question system_prompt true st
                 = (st,
                    Return
                      (lit "RAG is enabled but no PDF has been processed. Please process a PDF first or disable RAG.",
                       []))).
  { unfold get_response, try_except, get_chat_manager, mbind, M_bind.
    rewrite Hmodel, Hstore. reflexivity. }
  split; [exact Hrun | now rewrite Hrun].
Qed.


End Answering.

(** ** Boundaries of the two pipelines *)

Section Boundary.

Context {W : Type} `{Services W}.

Lemma try_except_returns {A} (body : M W A) (handler : exn -> M W A) st :
  (forall e st1, exists st2 a, handler e st1 = (st2, Return a)) ->
  exists st2 a, try_except body handler st = (st2, Return a).
Proof.
  intros Hhandler. unfold try_except.
  destruct (body st) as [st1 [a|e]]; eauto.
Qed.

Lemma cleanup_returns (pdf_path : str) (st : State W) :
  exists st', cleanup pdf_path st = (st', Return tt).
Proof.
  unfold cleanup, os_path_exists, try_except, os_unlink, service, update_files,
    mbind, M_bind, mret, M_ret.
  destruct (files st !! pdf_path) as [data|] eqn:Hfile; simpl.
  - rewrite Hfile.
    destruct (unlink (services st) pdf_path) as [w [[]|e]]; simpl; eauto.
  - eauto.
Qed.

Lemma get_response_returns (st : State W) (question system_prompt : str)
    (use_rag : bool) :
  exists st' text sources,
    get_response question system_prompt use_rag st
    = (st', Return (text, sources)).
Proof.
  unfold get_response.
  match goal with
  | |- context [try_except ?body ?handler st] =>
      destruct (try_except_returns body handler st)
        as (st' & [text sources] & Hrun)
  end.
  - intros e st1. eexists st1, _. reflexivity.
  - exists st', text, sources. exact Hrun.
Qed.

Lemma process_pdf_after_save (st st1 : State W) (uploaded_file : bytes)
    (index_name pdf_path : str)
    (status_callback : option (W -> str -> W * outcome unit)) :
  save_upload uploaded_file st = (st1, Return pdf_path) ->
  process_pdf uploaded_file index_name status_callback st
  = try_finally
      (try_except (process_pdf_steps pdf_path index_name status_callback)
         (fun e => mret (false, lit "Error processing PDF: " ++ exn_msg e)))
      (cleanup pdf_path) st1.
Proof.
  intros Hsave. unfold process_pdf.
  change ((save_upload uploaded_file ≫= ?k) st)
    with (match save_upload uploaded_file st with
          | (s, Return a) => k a s
          | (s, Raise e) => (s, Raise e)
          end).
  rewrite Hsave. reflexivity.
Qed.

(** C6, as the code has it: [get_response] always returns a text and a
    source list; [process_pdf] returns a flag and a message whenever the
    upload reached the temporary file, whatever fails afterwards; an error
    while creating or writing the temporary file, which happens before the
    [try] block, reaches the caller. *)
Theorem pipelines_return_once_upload_is_saved :
  (forall (st : State W) (question system_prompt : str) (use_rag : bool),
     exists st' text sources,
       get_response question system_prompt use_rag st
       = (st', Return (text, sources)))
  ∧ (forall (st st1 : State W) (uploaded_file : bytes)
       (index_name pdf_path : str)
       (status_callback : option (W -> str -> W * outcome unit)),
       save_upload uploaded_file st = (st1, Return pdf_path) ->
       exists st' success message,
         process_pdf uploaded_file index_name status_callback st
         = (st', Return (success, message)))
  ∧ (forall (st st1 : State W) (uploaded_file : bytes) (index_name : str)
       (status_callback : option (W -> str -> W * outcome unit)) (e : exn),
       save_upload uploaded_file st = (st1, Raise e) ->
       process_pdf uploaded_file index_name status_callback st
       = (st1, Raise e)).
Proof.
  split; [exact get_response_returns | split].
  - intros st st1 uploaded_file index_name pdf_path status_callback Hsave.
    rewrite (process_pdf_after_save _ _ _ _ _ _ Hsave).
    unfold try_finally.
    destruct (try_except_returns
                (process_pdf_steps pdf_path index_name status_callback)
                (fun e => mret (false, lit "Error processing PDF: " ++ exn_msg e))
                st1) as (st2 & [success message] & Hbody).
    { intros e st2. eexists st2, _. reflexivity. }
    rewrite Hbody.
    destruct (cleanup_returns pdf_path st2) as [st3 Hclean].
    rewrite Hclean. eauto.
  - intros st st1 uploaded_file index_name status_callback e Hsave.
    unfold process_pdf.
    change ((save_upload uploaded_file ≫= ?k) st)
      with (match save_upload uploaded_file st with
            | (s, Return a) => k a s
            | (s, Raise e) => (s, Raise e)
            end).
    rewrite Hsave. reflexivity.
Qed.

End Boundary.

(** ** Index provisioning *)

Section Provisioning.

Context {W : Type} `{Services W}.

Lemma wait_until_ready_ends (index_name : str) (polls : nat) (st : State W) :
  exists tr,
    log (wait_until_ready index_name polls st).1 = log st ++ tr
    ∧ chat_manager (wait_until_ready index_name polls st).1 = chat_manager st
    ∧ files (wait_until_ready index_name polls st).1 = files st
    ∧ wait_ends index_name polls tr (wait_until_ready index_name polls st).2.
Proof.
  revert st. induction polls as [|polls IH]; intros st.
  - exists []. simpl. rewrite app_nil_r. repeat split.
    apply ends_timeout.
  - simpl. unfold mbind, M_bind, service.
    destruct (describe_index (services st) index_name) as [w [[|]|e]] eqn:Hpoll.
    + exists [EvDescribeIndex index_name (Return true)]. simpl.
      repeat split. apply (ends_ready _ _ 0%nat). lia.
    + unfold time_sleep. simpl.
      match goal with
      | |- context [wait_until_ready index_name polls ?s] =>
          pose proof (IH s) as IHs;
          destruct (wait_until_ready index_name polls s) as [st2 r2]
      end.
      simpl in *. destruct IHs as (tr & Hlog & Hcm & Hfiles & Hends).
      exists ([EvDescribeIndex index_name (Return false); EvSleep 1] ++ tr).
      rewrite Hlog, Hcm, Hfiles. rewrite <- !app_assoc. simpl.
      repeat split.
      destruct Hends as [k Hk|k e Hk|].
      * apply (ends_ready _ _ (S k)). lia.
      * apply (ends_raised _ _ (S k)). lia.
      * apply (ends_timeout _ (S polls)).
    + exists [EvDescribeIndex index_name (Raise e)]. simpl.
      repeat split. apply (ends_raised _ _ 0%nat). lia.
Qed.

Lemma count_polls_app (tr1 tr2 : list event) :
  count_polls (tr1 ++ tr2) = (count_polls tr1 + count_polls tr2)%nat.
Proof. unfold count_polls. now rewrite List.filter_app, length_app. Qed.

Lemma count_polls_not_ready (index_name : str) (k : nat) :
  count_polls (not_ready_polls index_name k) = k.
Proof.
  unfold not_ready_polls.
  induction k as [|k IH]; [reflexivity|].
  change (count_polls
            ([EvDescribeIndex index_name (Return false); EvSleep 1]
             ++ concat (replicate k
                  [EvDescribeIndex index_name (Return false); EvSleep 1]))
          = S k).
  rewrite count_polls_app, IH. reflexivity.
Qed.

Lemma wait_ends_bounded (index_name : str) (polls : nat) tr r :
  wait_ends index_name polls tr r -> (count_polls tr <= polls)%nat.
Proof.
  intros [k Hk|k e Hk|];
    rewrite ?count_polls_app, count_polls_not_ready;
    unfold count_polls; simpl; lia.
Qed.

(** C8: when [setup_pinecone_index] finds no index of that name and creates
    one, what follows in the log is a readiness wait of at most 30 polls:
    polls that found the index not ready, each followed by a one-second
    sleep, ended by the first poll that reports ready (the result is then
    [(True, "created")]), by a poll that raised, or, after the 30th poll and
    its sleep, by the timeout error. *)
Theorem readiness_wait_is_bounded
    (st : State W) (index_name : str) (names : list str) (w1 w2 : W) :
  is_Some (pc (model_manager (chat_manager st))) ->
  list_indexes (services st) = (w1, Return names) ->
  index_name ∉ names ->
  create_index w1 index_name Config.VECTOR_DIMENSION Config.VECTOR_METRIC
    Config.PINECONE_CLOUD Config.PINECONE_REGION = (w2, Return tt) ->
  exists (tr : list event) (r : outcome unit),
    log (setup_pinecone_index index_name st).1
    = log st
      ++ [EvListIndexes (Return names);
          EvCreateIndex index_name Config.VECTOR_DIMENSION Config.VECTOR_METRIC
            Config.PINECONE_CLOUD Config.PINECONE_REGION (Return tt)]
      ++ tr
    ∧ wait_ends index_name 30 tr r
    ∧ (count_polls tr <= 30)%nat
    ∧ (setup_pinecone_index index_name st).2
      = match r with
        | Return _ => Return (true, lit "created")
        | Raise e =>
            Raise (mk_exn Exception
                     (lit "Error setting up Pinecone index: " ++ exn_msg e))
        end.
Proof.
  intros [client Hpc] Hlist Hnew Hcreate.
  unfold setup_pinecone_index.
  pose proof (wait_ends_bounded index_name 30) as Hbound.
  remember 30%nat as polls eqn:Hpolls.
  unfold try_except, get_chat_manager, service, mbind, M_bind, mret, M_ret.
  rewrite Hpc, Hlist. simpl.
  rewrite bool_decide_eq_false_2 by exact Hnew. simpl.
  rewrite Hcreate. simpl.
  match goal with
  | |- context [wait_until_ready index_name polls ?s] =>
      pose proof (wait_until_ready_ends index_name polls s) as Hwait;
      destruct (wait_until_ready index_name polls s) as [st2 r]
  end.
  simpl in Hwait. destruct Hwait as (tr & Hlog & _ & _ & Hends).
  exists tr, r. split; [|split; [exact Hends|split]].
  - destruct r as [[]|e]; simpl; rewrite Hlog, <- !app_assoc; reflexivity.
  - eapply Hbound, Hends.
  - destruct r as [[]|e]; reflexivity.
Qed.

End Provisioning.

(** ** What a method touches *)

Section Frame.

Context {W : Type} `{Services W}.

Variable R : State W -> State W -> Prop.
Variable allowed : event -> Prop.

Hypothesis R_refl : forall st, R st st.
Hypothesis R_trans : forall st1 st2 st3, R st1 st2 -> R st2 st3 -> R st1 st3.
Hypothesis R_call :
  forall st w ev,
    allowed ev ->
    R st (mkState (chat_manager st) (files st) w (log st ++ [ev])).
Hypothesis R_manager :
  forall st cm, R st (mkState cm (files st) (services st) (log st)).

Lemma respects_ret {A} (a : A) : respects R (mret a : M W A).
Proof. intros st. apply R_refl. Qed.

Lemma respects_raise {A} (e : exn) : respects R (raise e : M W A).
Proof. intros st. apply R_refl. Qed.

Lemma respects_lift {A} (r : outcome A) : respects R (lift r : M W A).
Proof. intros st. apply R_refl. Qed.

Lemma respects_bind {A B} (m : M W A) (k : A -> M W B) :
  respects R m -> (forall a, respects R (k a)) -> respects R (m ≫= k).
Proof.
  intros Hm Hk st. unfold mbind, M_bind.
  specialize (Hm st). destruct (m st) as [st1 [a|e]]; simpl in *.
  - eapply R_trans; [exact Hm | apply Hk].
  - exact Hm.
Qed.

Lemma respects_try_except {A} (body : M W A) (handler : exn -> M W A) :
  respects R body -> (forall e, respects R (handler e)) ->
  respects R (try_except body handler).
Proof.
  intros Hbody Hhandler st. unfold try_except.
  specialize (Hbody st). destruct (body st) as [st1 [a|e]]; simpl in *.
  - exact Hbody.
  - eapply R_trans; [exact Hbody | apply Hhandler].
Qed.

Lemma respects_try_finally {A} (body : M W A) (cleanup : M W unit) :
  respects R body -> respects R cleanup ->
  respects R (try_finally body cleanup).
Proof.
  intros Hbody Hcleanup st. unfold try_finally.
  specialize (Hbody st). destruct (body st) as [st1 r]. simpl in *.
  specialize (Hcleanup st1).
  destruct (cleanup st1) as [st2 [u|e]]; simpl in *;
    eapply R_trans; eauto.
Qed.

Lemma respects_update_files (f : gmap str bytes -> gmap str bytes) :
  (forall st,
     R st (mkState (chat_manager st) (f (files st)) (services st) (log st))) ->
  respects R (update_files f).
Proof. intros Hf st. apply Hf. Qed.

Lemma respects_service {A} (op : W -> W * outcome A) (ev : outcome A -> event) :
  (forall r, allowed (ev r)) -> respects R (service op ev).
Proof.
  intros Hev st. unfold service.
  destruct (op (services st)) as [w r]. simpl. apply R_call, Hev.
Qed.

Lemma respects_get_chat_manager : respects R get_chat_manager.
Proof. intros st. apply R_refl. Qed.

Lemma respects_set_chat_manager (cm : ChatManager) :
  respects R (set_chat_manager cm).
Proof. intros st. apply R_manager. Qed.

Lemma respects_read_file (pdf_path : str) : respects R (read_file pdf_path).
Proof.
  intros st. unfold read_file.
  destruct (files st !! pdf_path); apply R_refl.
Qed.

Lemma respects_time_sleep (seconds : Z) :
  allowed (EvSleep seconds) -> respects R (time_sleep seconds).
Proof. intros Hev st. unfold time_sleep. simpl. apply R_call, Hev. Qed.

Lemma respects_report (status_callback : option (W -> str -> W * outcome unit))
    (message : str) :
  (forall r, allowed (EvStatus message r)) ->
  respects R (report status_callback message).
Proof.
  intros Hev. destruct status_callback as [callback|]; simpl.
  - apply respects_service, Hev.
  - apply respects_ret.
Qed.

Lemma respects_extract_text_from_pdf (pdf_path : str) :
  respects R (extract_text_from_pdf pdf_path).
Proof.
  apply respects_try_except; [|intros e; apply respects_raise].
  apply respects_bind; [apply respects_read_file|intros data].
  apply respects_bind; [apply respects_lift|intros pages].
  case_branch; [apply respects_raise|apply respects_ret].
Qed.

Lemma respects_split_text_into_chunks (text : str) :
  respects R (split_text_into_chunks text).
Proof.
  apply respects_try_except; [|intros e; apply respects_raise].
  apply respects_bind; [apply respects_lift|intros texts].
  case_branch; [apply respects_raise|apply respects_ret].
Qed.

Section Ingestion.

Variable index_name : str.
Hypothesis ingestion_allowed :
  forall ev, ingestion_event index_name ev -> allowed ev.

Lemma respects_test_embeddings (sample_text : str) :
  respects R (test_embeddings sample_text).
Proof.
  apply respects_try_except; [|intros e; apply respects_raise].
  apply respects_bind; [apply respects_get_chat_manager|intros cm].
  case_branch; [|apply respects_raise].
  apply respects_bind; [|intros vector; apply respects_ret].
  apply respects_service. intros r. now apply ingestion_allowed.
Qed.

Lemma respects_wait_until_ready (polls : nat) :
  respects R (wait_until_ready index_name polls).
Proof.
  induction polls as [|polls IH]; [apply respects_raise|].
  change (respects R
            (ready ← service (fun w => describe_index w index_name)
                       (EvDescribeIndex index_name);
             if ready : bool then mret tt
             else time_sleep 1;; wait_until_ready index_name polls)).
  apply respects_bind.
  - apply respects_service. intros r. now apply ingestion_allowed.
  - intros [|]; [apply respects_ret|].
    apply respects_bind; [|intros _; exact IH].
    apply respects_time_sleep. now apply ingestion_allowed.
Qed.

Lemma respects_setup_pinecone_index :
  respects R (setup_pinecone_index index_name).
Proof.
  apply respects_try_except; [|intros e; apply respects_raise].
  apply respects_bind; [apply respects_get_chat_manager|intros cm].
  case_branch; [|apply respects_raise].
  apply respects_bind.
  { apply respects_service. intros r. now apply ingestion_allowed. }
  intros existing_indexes. case_branch; [|apply respects_ret].
  apply respects_bind.
  { apply respects_service. intros r. apply ingestion_allowed.
    repeat split. }
  intros _. apply respects_bind; [apply respects_wait_until_ready|].
  intros _. apply respects_ret.
Qed.

Lemma respects_upload_to_pinecone (documents : list Document) :
  respects R (upload_to_pinecone documents index_name).
Proof.
  apply respects_try_except; [|intros e; apply respects_raise].
  apply respects_bind; [apply respects_get_chat_manager|intros cm].
  apply respects_bind.
  { apply respects_service. intros r. now apply ingestion_allowed. }
  intros vs. apply respects_bind; [apply respects_set_chat_manager|].
  intros _. apply respects_ret.
Qed.

Lemma respects_process_pdf_steps (pdf_path : str)
    (status_callback : option (W -> str -> W * outcome unit)) :
  respects R (process_pdf_steps pdf_path index_name status_callback).
Proof.
  assert (Hreport : forall message,
             respects R (report status_callback message)).
  { intros message. apply respects_report.
    intros r. now apply ingestion_allowed. }
  unfold process_pdf_steps.
  apply respects_bind; [apply Hreport|intros _].
  apply respects_bind; [apply respects_extract_text_from_pdf|].
  intros [text num_pages].
  apply respects_bind; [apply Hreport|intros _].
  apply respects_bind; [apply Hreport|intros _].
  apply respects_bind; [apply respects_split_text_into_chunks|intros texts].
  apply respects_bind; [apply Hreport|intros _].
  apply respects_bind; [apply Hreport|intros _].
  apply respects_bind.
  { destruct texts; [apply respects_raise|apply respects_ret]. }
  intros sample.
  apply respects_bind; [apply respects_test_embeddings|intros vector_dim].
  apply respects_bind; [apply Hreport|intros _].
  apply respects_bind; [apply Hreport|intros _].
  apply respects_bind; [apply respects_setup_pinecone_index|].
  intros [success index_status].
  apply respects_bind; [apply Hreport|intros _].
  apply respects_bind; [apply Hreport|intros _].
  apply respects_bind; [apply Hreport|intros _].
  apply respects_bind; [apply Hreport|intros _].
  apply respects_bind; [apply respects_upload_to_pinecone|intros _].
  apply respects_bind; [apply Hreport|intros _].
  apply respects_ret.
Qed.

End Ingestion.

End Frame.

(** ** Ingestion *)

Section Ingest.

Context {W : Type} `{Services W}.

Lemma log_grows_refl allowed (st : State W) : log_grows allowed st st.
Proof. exists []. now rewrite app_nil_r. Qed.

Lemma log_grows_trans allowed (st1 st2 st3 : State W) :
  log_grows allowed st1 st2 -> log_grows allowed st2 st3 ->
  log_grows allowed st1 st3.
Proof.
  intros (tr1 & H1 & Hall1) (tr2 & H2 & Hall2).
  exists (tr1 ++ tr2). rewrite H2, H1, app_assoc. split; [reflexivity|].
  now apply Forall_app.
Qed.

Lemma log_grows_call (allowed : event -> Prop) (st : State W) w ev :
  allowed ev ->
  log_grows allowed st
    (mkState (chat_manager st) (files st) w (log st ++ [ev])).
Proof. intros Hev. exists [ev]. split; [reflexivity|]. now constructor. Qed.

Lemma log_grows_manager allowed (st : State W) cm :
  log_grows allowed st (mkState cm (files st) (services st) (log st)).
Proof. apply (log_grows_refl allowed (mkState cm _ _ _)). Qed.

Lemma log_grows_files allowed (st : State W) fs :
  log_grows allowed st (mkState (chat_manager st) fs (services st) (log st)).
Proof. apply (log_grows_refl allowed (mkState _ fs _ _)). Qed.

Lemma log_grows_process_pdf (allowed : event -> Prop)
    (uploaded_file : bytes) (index_name : str)
    (status_callback : option (W -> str -> W * outcome unit)) :
  (forall ev, ingestion_event index_name ev -> allowed ev) ->
  (forall ev, file_event ev -> allowed ev) ->
  respects (log_grows allowed)
    (process_pdf uploaded_file index_name status_callback).
Proof.
  intros Hingest Hfile.
  pose proof (log_grows_refl allowed) as Hrefl.
  pose proof (log_grows_trans allowed) as Htrans.
  pose proof (log_grows_call allowed) as Hcall.
  pose proof (log_grows_manager allowed) as Hmanager.
  pose proof (log_grows_files allowed) as Hfiles.
  unfold process_pdf.
  apply respects_bind; [assumption..| |].
  - unfold save_upload.
    apply respects_bind; [assumption..| |intros pdf_path].
    { apply respects_service with (allowed := allowed); [assumption|].
      intros r. now apply Hfile. }
    apply respects_bind; [assumption..| |intros _].
    { apply respects_update_files. intros st. apply Hfiles. }
    apply respects_bind; [assumption..| |intros _].
    { apply respects_service with (allowed := allowed); [assumption|].
      intros r. now apply Hfile. }
    apply respects_bind; [assumption..| |intros _].
    { apply respects_update_files. intros st. apply Hfiles. }
    apply respects_ret; assumption.
  - intros pdf_path. apply respects_try_finally; [assumption..| |].
    + apply respects_try_except; [assumption..| |].
      * eapply respects_process_pdf_steps; eassumption.
      * intros e. apply respects_ret; assumption.
    + unfold cleanup.
      apply respects_bind; [assumption..| |intros present].
      { intros st. apply Hrefl. }
      destruct present; [|apply respects_ret; assumption].
      apply respects_try_except; [assumption..| |].
      * intros st. unfold os_unlink.
        destruct (files st !! pdf_path); [|apply Hrefl].
        revert st. apply respects_bind; [assumption..| |intros _].
        { apply respects_service with (allowed := allowed); [assumption|].
          intros r. now apply Hfile. }
        apply respects_update_files. intros st. apply Hfiles.
      * intros e. apply respects_ret; assumption.
Qed.

(** C1, as the code has it: every [create_index] call of an ingestion run
    names the index being ingested into and passes the configured
    dimension, [Config.VECTOR_DIMENSION] = 1536, and the cosine metric,
    whatever the embedding probe returned. *)
Theorem index_is_created_with_configured_dimension
    (st : State W) (uploaded_file : bytes) (index_name : str)
    (status_callback : option (W -> str -> W * outcome unit)) :
  exists tr,
    log (process_pdf uploaded_file index_name status_callback st).1
    = log st ++ tr
    ∧ forall name dimension metric cloud region r,
        EvCreateIndex name dimension metric cloud region r ∈ tr ->
        name = index_name ∧ dimension = 1536 ∧ metric = lit "cosine".
Proof.
  destruct (log_grows_process_pdf
              (fun ev => ingestion_event index_name ev ∨ file_event ev)
              uploaded_file index_name status_callback) with (st := st)
    as (tr & Hlog & Hall); [tauto..|].
  exists tr. split; [exact Hlog|].
  intros name dimension metric cloud region r Hin.
  rewrite Forall_forall in Hall.
  destruct (Hall _ Hin) as [(-> & -> & -> & _)|[]].
  repeat split.
Qed.

Lemma save_upload_inv (st st1 : State W) (uploaded_file : bytes)
    (pdf_path : str) :
  save_upload uploaded_file st = (st1, Return pdf_path) ->
  exists w1 w2,
    NamedTemporaryFile (services st) = (w1, Return pdf_path)
    ∧ write w1 pdf_path uploaded_file = (w2, Return tt)
    ∧ st1 = mkState (chat_manager st)
              (<[pdf_path := uploaded_file]> (<[pdf_path := []]> (files st)))
              w2
              (log st ++ [EvNamedTemporaryFile (Return pdf_path);
                          EvWrite pdf_path uploaded_file (Return tt)]).
Proof.
  unfold save_upload, service, update_files, mbind, M_bind, mret, M_ret.
  destruct (NamedTemporaryFile (services st)) as [w1 [p|e]] eqn:Hcreate;
    simpl; [|discriminate].
  destruct (write w1 p uploaded_file) as [w2 [[]|e]] eqn:Hwrite;
    simpl; [|discriminate].
  intros [= <- <-]. exists w1, w2. rewrite <- app_assoc. auto.
Qed.

Lemma saved_file_is_on_disk (st st1 : State W) (uploaded_file : bytes)
    (pdf_path : str) :
  save_upload uploaded_file st = (st1, Return pdf_path) ->
  files st1 !! pdf_path = Some uploaded_file.
Proof.
  intros Hsave. apply save_upload_inv in Hsave as (w1 & w2 & _ & _ & ->).
  simpl. apply lookup_insert_eq.
Qed.

Lemma steps_keep_files (pdf_path index_name : str)
    (status_callback : option (W -> str -> W * outcome unit))
    (handler : exn -> M W (bool * str)) :
  (forall e, respects same_files (handler e)) ->
  respects same_files
    (try_except (process_pdf_steps pdf_path index_name status_callback) handler).
Proof.
  intros Hhandler.
  assert (Hrefl : forall st : State W, same_files st st) by reflexivity.
  assert (Htrans : forall st1 st2 st3 : State W,
             same_files st1 st2 -> same_files st2 st3 -> same_files st1 st3).
  { unfold same_files. intros st1 st2 st3 H12 H23. congruence. }
  apply respects_try_except; [assumption..| |exact Hhandler].
  apply respects_process_pdf_steps with (allowed := fun _ => True);
    try assumption; try reflexivity; auto.
Qed.

Lemma steps_log (pdf_path index_name : str)
    (status_callback : option (W -> str -> W * outcome unit))
    (handler : exn -> M W (bool * str)) :
  (forall e, respects (log_grows (ingestion_event index_name)) (handler e)) ->
  respects (log_grows (ingestion_event index_name))
    (try_except (process_pdf_steps pdf_path index_name status_callback) handler).
Proof.
  intros Hhandler.
  apply respects_try_except;
    [apply log_grows_trans| |exact Hhandler].
  apply respects_process_pdf_steps with (allowed := ingestion_event index_name).
  - apply log_grows_refl.
  - apply log_grows_trans.
  - apply log_grows_call.
  - apply log_grows_manager.
  - auto.
Qed.

(** C7, as the code has it: once the upload is in the temporary file, the
    last outside call of [process_pdf] is the [unlink] of that file, after
    the calls of the ingestion steps, however they ended.  When the
    [unlink] succeeds the file is gone; when it raises, the error is
    swallowed and the file stays on disk. *)
Theorem temporary_file_is_unlinked_at_the_end
    (st st1 : State W) (uploaded_file : bytes) (index_name pdf_path : str)
    (status_callback : option (W -> str -> W * outcome unit)) :
  save_upload uploaded_file st = (st1, Return pdf_path) ->
  exists (tr : list event) (u : outcome unit),
    log (process_pdf uploaded_file index_name status_callback st).1
    = log st1 ++ tr ++ [EvUnlink pdf_path u]
    ∧ Forall (ingestion_event index_name) tr
    ∧ files (process_pdf uploaded_file index_name status_callback st).1
        !! pdf_path
      = match u with
        | Return _ => None
        | Raise _ => Some uploaded_file
        end.
Proof.
  intros Hsave.
  rewrite (process_pdf_after_save _ _ _ _ _ _ Hsave).
  pose proof (saved_file_is_on_disk _ _ _ _ Hsave) as Hdisk.
  unfold try_finally.
  match goal with
  | |- context [try_except ?body ?handler st1] =>
      pose proof (steps_keep_files pdf_path index_name status_callback handler)
        as Hfiles;
      pose proof (steps_log pdf_path index_name status_callback handler)
        as Hlog;
      specialize (Hfiles (fun e st => eq_refl) st1);
      specialize (Hlog (fun e st => log_grows_refl _ st) st1);
      destruct (try_except body handler st1) as [st2 r]
  end.
  simpl in Hfiles, Hlog. unfold same_files in Hfiles.
  destruct Hlog as (tr & Hlog & Hall).
  unfold cleanup, os_path_exists, try_except, os_unlink, service, update_files,
    mbind, M_bind, mret, M_ret.
  rewrite Hfiles, Hdisk. simpl. rewrite ?Hfiles, ?Hdisk.
  destruct (unlink (services st2) pdf_path) as [w [[]|e]]; simpl.
  - exists tr, (Return tt). rewrite Hlog, <- app_assoc.
    repeat split; [assumption|]. apply lookup_delete_eq.
  - exists tr, (Raise e). rewrite Hlog, <- app_assoc.
    repeat split; assumption.
Qed.

Lemma omap_kept_page_blank (pages : list (option str)) :
  forallb page_is_blank pages = true -> omap kept_page pages = [].
Proof.
  induction pages as [|p pages IH]; [reflexivity|].
  intros Hblank. simpl in Hblank. apply andb_prop in Hblank as [Hp Hrest].
  change (omap kept_page (p :: pages))
    with (match kept_page p with
          | Some t => t :: omap kept_page pages
          | None => omap kept_page pages
          end).
  rewrite (IH Hrest).
  destruct p as [t|]; simpl in *; [|reflexivity].
  destruct (truthy (strip t)); [discriminate|].
  now rewrite andb_false_r.
Qed.

Lemma extract_text_from_blank_pdf (st : State W) (pdf_path : str)
    (data : bytes) (pages : list (option str)) :
  files st !! pdf_path = Some data ->
  PdfReader data = Return pages ->
  forallb page_is_blank pages = true ->
  extract_text_from_pdf pdf_path st
  = (st,
     Raise (mk_exn Exception
              (lit "Error reading PDF: "
               ++ lit "No text could be extracted from the PDF file."))).
Proof.
  intros Hfile Hpages Hblank.
  unfold extract_text_from_pdf, try_except, read_file, lift, mbind, M_bind.
  rewrite Hfile. simpl. rewrite Hpages. simpl.
  rewrite (omap_kept_page_blank _ Hblank). reflexivity.
Qed.

Lemma report_never_raises (st st' : State W)
    (status_callback : option (W -> str -> W * outcome unit)) (message : str)
    (r : outcome unit) :
  callback_never_raises status_callback ->
  report status_callback message st = (st', r) -> r = Return tt.
Proof.
  intros Hok. destruct status_callback as [callback|]; simpl.
  - unfold service. specialize (Hok callback eq_refl (services st) message).
    destruct (callback (services st) message) as [w r']. simpl in Hok.
    subst r'. now intros [= _ <-].
  - now intros [= _ <-].
Qed.

Lemma report_log (st st' : State W)
    (status_callback : option (W -> str -> W * outcome unit)) (message : str)
    (r : outcome unit) :
  report status_callback message st = (st', r) ->
  files st' = files st
  ∧ exists tr,
      log st' = log st ++ tr
      ∧ Forall (fun ev => is_embedding_call ev = false) tr.
Proof.
  destruct status_callback as [callback|]; simpl.
  - unfold service. destruct (callback (services st) message) as [w r'].
    intros [= <- _]. simpl. split; [reflexivity|].
    eexists. split; [reflexivity|]. now repeat constructor.
  - intros [= <- _]. split; [reflexivity|].
    exists []. now rewrite app_nil_r.
Qed.

Lemma cleanup_unlinks (st : State W) (pdf_path : str) (data : bytes) :
  files st !! pdf_path = Some data ->
  exists st' u,
    cleanup pdf_path st = (st', Return tt)
    ∧ log st' = log st ++ [EvUnlink pdf_path u].
Proof.
  intros Hdisk.
  unfold cleanup, os_path_exists, try_except, os_unlink, service, update_files,
    mbind, M_bind, mret, M_ret.
  rewrite Hdisk. simpl. rewrite Hdisk.
  destruct (unlink (services st) pdf_path) as [w [[]|e]]; simpl;
    eexists _, _; split; reflexivity.
Qed.

Lemma extraction_error_message :
  lit "Error processing PDF: "
  ++ (lit "Error reading PDF: "
      ++ lit "No text could be extracted from the PDF file.")
  = lit "Error processing PDF: Error reading PDF: No text could be extracted from the PDF file.".
Proof. vm_compute. reflexivity. Qed.

(** C3: when the upload is in the temporary file and every page of the PDF
    is blank (no text, or only whitespace), [process_pdf] returns [False]
    and none of the outside calls it made is a call to the embedding
    service ([embed_query], or [from_documents], which embeds and upserts);
    the message is that of the extraction error, unless the status callback
    raised when it was told that reading starts. *)
Theorem blank_pdf_fails_before_any_embedding
    (st st1 : State W) (uploaded_file : bytes) (index_name pdf_path : str)
    (status_callback : option (W -> str -> W * outcome unit))
    (pages : list (option str)) :
  save_upload uploaded_file st = (st1, Return pdf_path) ->
  PdfReader uploaded_file = Return pages ->
  forallb page_is_blank pages = true ->
  exists (st' : State W) (tr : list event) (message : str),
    process_pdf uploaded_file index_name status_callback st
    = (st', Return (false, message))
    ∧ log st' = log st ++ tr
    ∧ Forall (fun ev => is_embedding_call ev = false) tr
    ∧ (callback_never_raises status_callback ->
       message
       = lit "Error processing PDF: Error reading PDF: No text could be extracted from the PDF file.").
Proof.
  intros Hsave Hpages Hblank.
  rewrite (process_pdf_after_save _ _ _ _ _ _ Hsave).
  pose proof (saved_file_is_on_disk _ _ _ _ Hsave) as Hdisk.
  apply save_upload_inv in Hsave as (w1 & w2 & _ & _ & Hst1).
  assert (Hsaved : log st1
                   = log st ++ [EvNamedTemporaryFile (Return pdf_path);
                                EvWrite pdf_path uploaded_file (Return tt)])
    by now rewrite Hst1.
  clear Hst1.
  unfold try_finally, try_except, process_pdf_steps, mbind, M_bind.
  destruct (report status_callback (lit "Reading PDF document...") st1)
    as [st2 r] eqn:Hreport.
  destruct (report_log _ _ _ _ _ Hreport) as (Hfiles & tr & Hlog & Hquiet).
  rewrite <- Hfiles in Hdisk.
  destruct (cleanup_unlinks st2 pdf_path uploaded_file Hdisk)
    as (st3 & u & Hclean & Hlog3).
  assert (Hall : log st3
                 = log st
                   ++ ([EvNamedTemporaryFile (Return pdf_path);
                        EvWrite pdf_path uploaded_file (Return tt)]
                       ++ tr ++ [EvUnlink pdf_path u])).
  { rewrite Hlog3, Hlog, Hsaved, <- !app_assoc. reflexivity. }
  assert (Hnone : Forall (fun ev => is_embedding_call ev = false)
                    ([EvNamedTemporaryFile (Return pdf_path);
                      EvWrite pdf_path uploaded_file (Return tt)]
                     ++ tr ++ [EvUnlink pdf_path u])).
  { repeat (apply Forall_app; split); try assumption;
      now repeat constructor. }
  destruct r as [[]|e].
  - rewrite (extract_text_from_blank_pdf _ pdf_path uploaded_file pages);
      [|exact Hdisk|exact Hpages|exact Hblank].
    unfold mret, M_ret. rewrite Hclean.
    eexists st3, _, _. split; [reflexivity|].
    split; [exact Hall|]. split; [exact Hnone|].
    intros _. apply extraction_error_message.
  - unfold mret, M_ret. rewrite Hclean.
    eexists st3, _, _. split; [reflexivity|].
    split; [exact Hall|]. split; [exact Hnone|].
    intros Hcallback.
    pose proof (report_never_raises _ _ _ _ _ Hcallback Hreport).
    discriminate.
Qed.

(** *** The page count *)

Lemma lstrip_keeps_nonspace (l : str) (c : N) :
  isspace c = false -> lstrip (l ++ [c]) <> [].
Proof.
  intros Hc. induction l as [|a l IH]; simpl.
  - now rewrite Hc.
  - destruct (isspace a); [exact IH|discriminate].
Qed.

Lemma lstrip_suffix (s : str) : exists pre, s = pre ++ lstrip s.
Proof.
  induction s as [|c s [pre IH]]; simpl.
  - now exists [].
  - destruct (isspace c).
    + exists (c :: pre). simpl. now rewrite <- IH.
    + now exists [].
Qed.

Lemma lstrip_head (s rest : str) (c : N) :
  lstrip s = c :: rest -> isspace c = false.
Proof.
  induction s as [|a s IH]; simpl; [discriminate|].
  destruct (isspace a) eqn:Ha; [exact IH|].
  now intros [= <- _].
Qed.

Lemma strip_head (t rest : str) (c : N) :
  strip t = c :: rest -> isspace c = false.
Proof.
  unfold strip, rstrip. intros Hstrip.
  destruct (lstrip_suffix (rev (lstrip t))) as [pre Hpre].
  apply (f_equal (@rev N)) in Hpre.
  rewrite rev_involutive, rev_app_distr, Hstrip in Hpre.
  simpl in Hpre. now apply lstrip_head in Hpre.
Qed.

Lemma strip_of_nonspace_head (s : str) (c : N) :
  isspace c = false -> strip (c :: s) <> [].
Proof.
  intros Hc. unfold strip, rstrip. simpl. rewrite Hc. simpl.
  intros Hnil. apply (f_equal (@rev N)) in Hnil.
  rewrite rev_involutive in Hnil. simpl in Hnil.
  now apply (lstrip_keeps_nonspace (rev s) c Hc).
Qed.

Lemma omap_kept_page_cons (p : option str) (pages : list (option str)) :
  omap kept_page (p :: pages)
  = if page_is_blank p then omap kept_page pages
    else match p with
         | Some t => strip t :: omap kept_page pages
         | None => omap kept_page pages
         end.
Proof.
  change (omap kept_page (p :: pages))
    with (match kept_page p with
          | Some t => t :: omap kept_page pages
          | None => omap kept_page pages
          end).
  destruct p as [t|]; simpl; [|reflexivity].
  destruct (truthy (strip t)) eqn:Hstrip; simpl.
  - destruct t; [discriminate|reflexivity].
  - now rewrite andb_false_r.
Qed.

Lemma length_omap_kept_page (pages : list (option str)) :
  length (omap kept_page pages) = nonblank_pages pages.
Proof.
  unfold nonblank_pages.
  induction pages as [|p pages IH]; [reflexivity|].
  rewrite omap_kept_page_cons. simpl.
  destruct (page_is_blank p) eqn:Hp; simpl; [exact IH|].
  destruct p as [t|]; [|discriminate]. simpl. now rewrite IH.
Qed.

Lemma kept_pages_start_with_text (pages : list (option str)) :
  Forall (fun t => exists c rest, t = c :: rest ∧ isspace c = false)
    (omap kept_page pages).
Proof.
  induction pages as [|p pages IH]; [constructor|].
  rewrite omap_kept_page_cons.
  destruct (page_is_blank p) eqn:Hp; [exact IH|].
  destruct p as [t|]; [|exact IH].
  constructor; [|exact IH].
  simpl in Hp. destruct (strip t) as [|c rest] eqn:Hstrip; [discriminate|].
  exists c, rest. split; [reflexivity|]. eapply strip_head, Hstrip.
Qed.

Lemma joined_pages_have_text (pages : list (option str)) :
  truthy (strip (join Config.NL (omap kept_page pages)))
  = negb (bool_decide (nonblank_pages pages = 0%nat)).
Proof.
  rewrite <- length_omap_kept_page.
  pose proof (kept_pages_start_with_text pages) as Hkept.
  destruct (omap kept_page pages) as [|t kept]; [reflexivity|].
  apply Forall_cons in Hkept as [(c & rest & -> & Hc) _].
  simpl length. rewrite bool_decide_eq_false_2 by discriminate. simpl negb.
  assert (Hjoin : exists more, join Config.NL ((c :: rest) :: kept) = c :: more).
  { destruct kept; simpl; eauto. }
  destruct Hjoin as [more ->].
  pose proof (strip_of_nonspace_head more c Hc) as Hne.
  now destruct (strip (c :: more)).
Qed.

Lemma extract_text_from_pdf_counts (st : State W) (pdf_path : str)
    (data : bytes) (pages : list (option str)) :
  files st !! pdf_path = Some data ->
  PdfReader data = Return pages ->
  extract_text_from_pdf pdf_path st
  = (st,
     if bool_decide (nonblank_pages pages = 0%nat)
     then Raise (mk_exn Exception
                   (lit "Error reading PDF: "
                    ++ lit "No text could be extracted from the PDF file."))
     else Return (join Config.NL (omap kept_page pages),
                  Z.of_nat (nonblank_pages pages))).
Proof.
  intros Hfile Hpages.
  unfold extract_text_from_pdf, try_except, read_file, lift, mbind, M_bind.
  rewrite Hfile. simpl. rewrite Hpages. simpl.
  rewrite joined_pages_have_text.
  destruct (bool_decide (nonblank_pages pages = 0%nat)); simpl;
    [reflexivity|].
  unfold len. now rewrite length_omap_kept_page.
Qed.


Lemma extract_text_from_pdf_returns (st st' : State W) (pdf_path : str)
    (data : bytes) (text : str) (num_pages : Z) :
  files st !! pdf_path = Some data ->
  extract_text_from_pdf pdf_path st = (st', Return (text, num_pages)) ->
  exists pages,
    PdfReader data = Return pages
    ∧ text = join Config.NL (omap kept_page pages)
    ∧ num_pages = Z.of_nat (nonblank_pages pages).
Proof.
  intros Hfile Hrun.
  destruct (PdfReader data) as [pages|e] eqn:Hpages.
  - rewrite (extract_text_from_pdf_counts _ _ _ _ Hfile Hpages) in Hrun.
    destruct (bool_decide (nonblank_pages pages = 0%nat)); [discriminate|].
    injection Hrun as _ <- <-. now exists pages.
  - unfold extract_text_from_pdf, try_except, read_file, lift, mbind, M_bind
      in Hrun.
    rewrite Hfile in Hrun. simpl in Hrun. rewrite Hpages in Hrun.
    discriminate.
Qed.

Lemma split_text_into_chunks_returns (st st' : State W) (text : str)
    (texts : list str) :
  split_text_into_chunks text st = (st', Return texts) ->
  TextSplitter.split_text Config.TEXT_CHUNK_SIZE Config.TEXT_CHUNK_OVERLAP
    Config.TEXT_SEPARATORS text = Return texts.
Proof.
  unfold split_text_into_chunks, try_except, lift, mbind, M_bind.
  destruct (TextSplitter.split_text _ _ _ text) as [chunks|e];
    [|discriminate].
  destruct chunks; [discriminate|]. now intros [= _ ->].
Qed.



End Ingest.

(** ** Chunking *)

Section HardCut.

Import TextSplitter.

Lemma startswith_prefix (sep text : str) :
  startswith sep text = true -> exists rest, text = sep ++ rest.
Proof.
  revert text. induction sep as [|a sep IH]; intros text; simpl.
  - intros _. now exists text.
  - destruct text as [|b text]; [discriminate|].
    destruct (N.eqb_spec a b) as [->|]; [|discriminate].
    intros [rest ->]%IH. now exists rest.
Qed.

Lemma search_occurs (sep text : str) (c : N) :
  search sep text = true -> c ∈ sep -> c ∈ text.
Proof.
  induction text as [|b text IH]; simpl.
  - rewrite orb_false_r. intros [rest Hrest]%startswith_prefix Hin.
    rewrite Hrest. apply elem_of_app. now left.
  - intros [[rest Hrest]%startswith_prefix|Hlater]%orb_prop Hin.
    + rewrite Hrest. apply elem_of_app. now left.
    + apply elem_of_cons. right. now apply IH.
Qed.

Lemma no_whitespace_Forall (text : str) :
  no_whitespace text = true <-> Forall (fun c => isspace c = false) text.
Proof.
  unfold no_whitespace. rewrite forallb_forall, Forall_forall.
  split; intros Hall c Hc.
  - apply list_elem_of_In, Hall in Hc. now apply negb_true_iff.
  - apply negb_true_iff, Hall, list_elem_of_In, Hc.
Qed.

Lemma search_whitespace (sep text : str) (c : N) :
  no_whitespace text = true -> c ∈ sep -> isspace c = true ->
  search sep text = false.
Proof.
  intros Htext Hin Hc. destruct (search sep text) eqn:Hsearch; [|reflexivity].
  apply no_whitespace_Forall in Htext. rewrite Forall_forall in Htext.
  pose proof (Htext c (search_occurs _ _ _ Hsearch Hin)). congruence.
Qed.

Lemma lstrip_no_whitespace (s : str) :
  no_whitespace s = true -> lstrip s = s.
Proof.
  destruct s as [|c s]; simpl; [reflexivity|].
  intros [Hc _]%andb_prop. apply negb_true_iff in Hc. now rewrite Hc.
Qed.

Lemma no_whitespace_rev (s : str) :
  no_whitespace s = true -> no_whitespace (rev s) = true.
Proof.
  rewrite !no_whitespace_Forall, !Forall_forall.
  intros Hall c Hc. apply Hall.
  now apply list_elem_of_In, in_rev, list_elem_of_In in Hc.
Qed.

Lemma strip_no_whitespace (s : str) : no_whitespace s = true -> strip s = s.
Proof.
  intros Hs. unfold strip, rstrip.
  rewrite (lstrip_no_whitespace s Hs).
  rewrite (lstrip_no_whitespace (rev s) (no_whitespace_rev s Hs)).
  apply rev_involutive.
Qed.

Lemma join_singletons (s : str) : join [] (map (fun c => [c]) s) = s.
Proof.
  induction s as [|c s IH]; [reflexivity|].
  simpl. destruct s as [|c' s]; [reflexivity|].
  simpl in IH |- *. now rewrite IH.
Qed.

Lemma join_docs_singletons (s : str) :
  no_whitespace s = true ->
  _join_docs (map (fun c => [c]) s) [] = if truthy s then Some s else None.
Proof.
  intros Hs. unfold _join_docs.
  rewrite join_singletons, (strip_no_whitespace s Hs). now destruct s.
Qed.

End HardCut.

Section HardCutMerge.

Import TextSplitter.

Arguments len : simpl never.

Lemma len_nil {A} : len (@nil A) = 0.
Proof. reflexivity. Qed.

Lemma len_cons {A} (x : A) (l : list A) : len (x :: l) = 1 + len l.
Proof. unfold len. rewrite length_cons. lia. Qed.

Lemma len_app {A} (l1 l2 : list A) : len (l1 ++ l2) = len l1 + len l2.
Proof. unfold len. rewrite length_app. lia. Qed.

Lemma len_singletons (s : str) : len (map (fun c => [c]) s) = len s.
Proof. unfold len. now rewrite length_map. Qed.

Lemma pop_front_cons (separator_len _len total : Z) (d0 : str)
    (rest : list str) :
  pop_front 1000 200 separator_len _len total (d0 :: rest)
  = if keep_popping 1000 200 separator_len _len total (d0 :: rest)
    then pop_front 1000 200 separator_len _len
           (total - (len d0 + (if 1 <? len (d0 :: rest) then separator_len else 0)))
           rest
    else Return (total, d0 :: rest).
Proof. reflexivity. Qed.

Lemma keep_popping_singletons (total : Z) (current_doc : list str) :
  keep_popping 1000 200 0 1 total current_doc
  = (200 <? total) || (1000 <=? total).
Proof.
  unfold keep_popping.
  replace (if 0 <? len current_doc then 0 else 0) with 0
    by now destruct (0 <? len current_doc).
  destruct (Z.ltb_spec 200 total), (Z.ltb_spec 1000 (total + 1 + 0)),
    (Z.ltb_spec 0 total), (Z.leb_spec 1000 total); simpl; lia || reflexivity.
Qed.

Lemma pop_front_singletons (cur : str) :
  (200 <= length cur)%nat ->
  pop_front 1000 200 0 1 (len cur) (map (fun c => [c]) cur)
  = Return (200, map (fun c => [c]) (drop (length cur - 200) cur)).
Proof.
  induction cur as [|c cur IH]; intros Hlen; [simpl in Hlen; lia|].
  change (map (fun c => [c]) (c :: cur))
    with ([c] :: map (fun c => [c]) cur).
  rewrite pop_front_cons, keep_popping_singletons.
  rewrite length_cons in Hlen |- *.
  destruct (decide (200 <= length cur)%nat) as [Hmore|Hexact].
  - replace ((200 <? len (c :: cur)) || (1000 <=? len (c :: cur))) with true.
    2:{ symmetry. apply orb_true_iff. left. apply Z.ltb_lt.
        rewrite len_cons. unfold len. lia. }
    replace (len (c :: cur)
             - (len [c] + (if 1 <? len ([c] :: map (fun c => [c]) cur)
                           then 0 else 0)))
      with (len cur).
    2:{ rewrite !len_cons, len_nil.
        destruct (1 <? 1 + len (map (fun c0 : N => [c0]) cur)); lia. }
    rewrite (IH Hmore).
    replace (S (length cur) - 200)%nat with (S (length cur - 200)) by lia.
    reflexivity.
  - assert (length cur = 199%nat) as Hcur by lia.
    replace ((200 <? len (c :: cur)) || (1000 <=? len (c :: cur))) with false.
    2:{ symmetry. apply orb_false_iff. rewrite len_cons. unfold len.
        split; [apply Z.ltb_ge|apply Z.leb_gt]; lia. }
    rewrite len_cons. unfold len. rewrite Hcur. reflexivity.
Qed.

Lemma merge_step_singleton (docs : list str) (cur : str) (c : N) :
  (length cur <= 1000)%nat ->
  no_whitespace cur = true ->
  merge_step 1000 200 [] (MergeState docs (map (fun c => [c]) cur) (len cur)) [c]
  = Return
      (if (1000 <=? length cur)%nat
       then MergeState (docs ++ [cur])
              (map (fun c => [c]) (drop 800 cur ++ [c]))
              (len (drop 800 cur ++ [c]))
       else MergeState docs (map (fun c => [c]) (cur ++ [c]))
              (len (cur ++ [c]))).
Proof.
  intros Hlen Hcur. unfold merge_step.
  cbn [TextSplitter.total TextSplitter.current_doc TextSplitter.docs].
  rewrite len_singletons, len_nil, !len_cons, len_nil.
  change (1 + 0) with 1.
  destruct (Nat.leb_spec 1000 (length cur)) as [Hfull|Hroom].
  - assert (length cur = 1000%nat) as Hexact by lia.
    assert (len cur = 1000) as Hlencur by (unfold len; lia).
    rewrite Hlencur.
    change (1000 <? 1000 + 1 + (if 0 <? 1000 then 0 else 0)) with true.
    change (0 <? 1000) with true. cbv iota.
    rewrite (join_docs_singletons cur Hcur).
    replace (truthy cur) with true by now destruct cur.
    pose proof (pop_front_singletons cur ltac:(lia)) as Hpop.
    rewrite Hlencur, Hexact in Hpop.
    change (1000 - 200)%nat with 800%nat in Hpop. rewrite Hpop.
    cbn [mbind outcome_bind TextSplitter.total TextSplitter.current_doc
           TextSplitter.docs].
    assert (len (drop 800 cur ++ [c]) = 201) as ->.
    { unfold len. rewrite length_app, length_drop, Hexact. reflexivity. }
    rewrite map_app. f_equal. f_equal.
    match goal with |- context [if ?b then 0 else 0] => now destruct b end.
  - replace (1000 <? len cur + 1 + (if 0 <? len cur then 0 else 0))
      with false.
    2:{ symmetry. apply Z.ltb_ge. unfold len.
        destruct (0 <? Z.of_nat (length cur)); lia. }
    cbn [mbind outcome_bind TextSplitter.total TextSplitter.current_doc
           TextSplitter.docs].
    assert (len (cur ++ [c]) = len cur + 1) as ->.
    { rewrite len_app, len_cons, len_nil. lia. }
    rewrite map_app. f_equal. f_equal.
    match goal with |- context [if ?b then 0 else 0] => destruct b; lia end.
Qed.

Lemma no_whitespace_app (a b : str) :
  no_whitespace (a ++ b) = no_whitespace a && no_whitespace b.
Proof. apply forallb_app. Qed.

Lemma no_whitespace_drop (n : nat) (s : str) :
  no_whitespace s = true -> no_whitespace (drop n s) = true.
Proof.
  rewrite !no_whitespace_Forall. apply Forall_drop.
Qed.

Lemma merge_loop_singletons (rest : str) :
  forall (cur : str) (docs : list str),
    (length cur <= 1000)%nat ->
    no_whitespace cur = true ->
    no_whitespace rest = true ->
    exists st',
      merge_loop 1000 200 []
        (MergeState docs (map (fun c => [c]) cur) (len cur))
        (map (fun c => [c]) rest)
      = Return st'
      ∧ match _join_docs (current_doc st') [] with
        | Some doc => TextSplitter.docs st' ++ [doc]
        | None => TextSplitter.docs st'
        end
        = docs ++ windows cur rest.
Proof.
  induction rest as [|c rest IH]; intros cur docs Hlen Hcur Hrest.
  - eexists. split; [reflexivity|].
    cbn [TextSplitter.current_doc TextSplitter.docs windows].
    rewrite (join_docs_singletons cur Hcur).
    destruct (truthy cur); [reflexivity|now rewrite app_nil_r].
  - simpl in Hrest. apply andb_prop in Hrest as [Hc Hrest].
    change (map (fun c => [c]) (c :: rest))
      with ([c] :: map (fun c => [c]) rest).
    cbn [merge_loop]. rewrite (merge_step_singleton docs cur c Hlen Hcur).
    cbn [mbind outcome_bind windows].
    destruct (Nat.leb_spec 1000 (length cur)) as [Hfull|Hroom].
    + destruct (IH (drop 800 cur ++ [c]) (docs ++ [cur]))
        as (st' & Hrun & Hflush).
      * rewrite length_app, length_drop. simpl. lia.
      * rewrite no_whitespace_app, (no_whitespace_drop 800 cur Hcur).
        simpl. now rewrite Hc.
      * exact Hrest.
      * exists st'. split; [exact Hrun|].
        rewrite Hflush, <- app_assoc. reflexivity.
    + destruct (IH (cur ++ [c]) docs) as (st' & Hrun & Hflush).
      * rewrite length_app. simpl. lia.
      * rewrite no_whitespace_app, Hcur. simpl. now rewrite Hc.
      * exact Hrest.
      * exists st'. split; [exact Hrun|exact Hflush].
Qed.

Lemma windows_head (rest : str) :
  forall cur : str,
    cur <> [] ∨ rest <> [] ->
    exists more later, windows cur rest = (cur ++ more) :: later.
Proof.
  induction rest as [|c rest IH]; intros cur Hne; cbn [windows].
  - destruct Hne as [Hcur|[]]; [|reflexivity].
    destruct cur; [contradiction|]. exists [], []. now rewrite app_nil_r.
  - destruct (1000 <=? length cur)%nat.
    + eexists [], _. rewrite app_nil_r. reflexivity.
    + destruct (IH (cur ++ [c])) as (more & later & ->).
      * left. now destruct cur.
      * exists ([c] ++ more), later. now rewrite <- app_assoc.
Qed.

Lemma windows_overlapping (rest : str) :
  forall cur : str,
    (length cur <= 1000)%nat -> overlapping 200 (windows cur rest).
Proof.
  induction rest as [|c rest IH]; intros cur Hlen; cbn [windows].
  - now destruct (truthy cur).
  - destruct (Nat.leb_spec 1000 (length cur)) as [Hfull|Hroom].
    + assert (length (drop 800 cur ++ [c]) <= 1000)%nat as Hnext.
      { rewrite length_app, length_drop. simpl. lia. }
      specialize (IH (drop 800 cur ++ [c]) Hnext).
      destruct (windows_head rest (drop 800 cur ++ [c]))
        as (more & later & Hhead).
      { left. now destruct (drop 800 cur). }
      rewrite Hhead in IH |- *. cbn [overlapping]. split; [|exact IH].
      replace (length cur - 200)%nat with 800%nat by lia.
      rewrite <- app_assoc. symmetry. apply take_app_length'.
      rewrite length_drop. lia.
    + apply IH. rewrite length_app. simpl. lia.
Qed.

Lemma overlapping_lookup (n : nat) (chunks : list str) :
  overlapping n chunks ->
  forall (i : nat) (a b : str),
    chunks !! i = Some a -> chunks !! S i = Some b ->
    drop (length a - n) a = take n b.
Proof.
  induction chunks as [|x chunks IH]; intros Hover i a b Ha Hb;
    [discriminate|].
  destruct chunks as [|y chunks]; [destruct i; discriminate|].
  destruct Hover as [Hxy Hlater].
  destruct i as [|i].
  - simpl in Ha, Hb. now injection Ha as <-; injection Hb as <-.
  - apply (IH Hlater i a b Ha Hb).
Qed.

Lemma split_pieces_singletons (l : str) :
  forall final_chunks _good_splits : list str,
    split_pieces 1000 200 None final_chunks _good_splits
      (map (fun c => [c]) l)
    = Return (final_chunks, _good_splits ++ map (fun c => [c]) l).
Proof.
  induction l as [|c l IH]; intros final_chunks good; simpl.
  - now rewrite app_nil_r.
  - change (len [c] <? 1000) with true. cbv iota.
    rewrite IH, <- app_assoc. reflexivity.
Qed.

Lemma filter_singletons (l : str) :
  filter (fun s : str => s <> []) (map (fun c => [c]) l)
  = map (fun c => [c]) l.
Proof.
  induction l as [|c l IH]; [reflexivity|].
  simpl. rewrite filter_cons_True by discriminate. now rewrite IH.
Qed.

Lemma separators_spelled_out :
  Config.TEXT_SEPARATORS
  = [[10; 10]; [10]; [46; 32]; [33; 32]; [63; 32]; [32]; []]%N.
Proof. vm_compute. reflexivity. Qed.

Lemma split_text_hard_cut (text : str) :
  text <> [] ->
  no_whitespace text = true ->
  split_text Config.TEXT_CHUNK_SIZE Config.TEXT_CHUNK_OVERLAP
    Config.TEXT_SEPARATORS text
  = Return (windows [] text).
Proof.
  intros Hne Htext. rewrite separators_spelled_out.
  unfold split_text, Config.TEXT_CHUNK_SIZE, Config.TEXT_CHUNK_OVERLAP.
  change (1000 <? 200) with false.
  cbn [truthy _split_text List.last _split_text_from negb].
  rewrite (search_whitespace [10; 10]%N text 10%N Htext),
    (search_whitespace [10]%N text 10%N Htext),
    (search_whitespace [46; 32]%N text 32%N Htext),
    (search_whitespace [33; 32]%N text 32%N Htext),
    (search_whitespace [63; 32]%N text 32%N Htext),
    (search_whitespace [32]%N text 32%N Htext);
    try reflexivity; try (repeat constructor).
  unfold split_with, _split_text_with_regex. cbn [truthy].
  rewrite filter_singletons, split_pieces_singletons.
  cbn [mbind outcome_bind app].
  replace (truthy (map (fun c : N => [c]) text)) with true
    by now destruct text.
  unfold _merge_splits.
  destruct (merge_loop_singletons text [] [] ltac:(simpl; lia) eq_refl Htext)
    as (st' & Hrun & Hflush).
  change (len []) with 0 in Hrun. change (map (fun c : N => [c]) [])
    with (@nil str) in Hrun.
  rewrite Hrun. cbn [mbind outcome_bind].
  simpl in Hflush. rewrite <- Hflush.
  now destruct (_join_docs (current_doc st') []).
Qed.

End HardCutMerge.

Section Chunking.

Context {W : Type}.

(** C2, as the splitter has it: a text without any whitespace can only be
    cut by characters; chunking returns its windows of 1000 characters,
    each starting 800 characters after the one before, so that every chunk
    ends with the 200 characters its successor starts with. *)
Theorem hard_cut_chunks_overlap_by_200 (st : State W) (text : str) :
  text <> [] ->
  no_whitespace text = true ->
  split_text_into_chunks text st = (st, Return (windows [] text))
  ∧ forall (i : nat) (a b : str),
      windows [] text !! i = Some a -> windows [] text !! S i = Some b ->
      drop (length a - 200) a = take 200 b.
Proof.
  intros Hne Htext. split.
  - unfold split_text_into_chunks, try_except, lift, mbind, M_bind.
    rewrite (split_text_hard_cut text Hne Htext).
    destruct (windows_head text []) as (more & later & ->); [now right|].
    reflexivity.
  - apply overlapping_lookup, windows_overlapping. simpl. lia.
Qed.

End Chunking.

(** ** The properties at work in concrete worlds *)

(** C1 as stated fails: in a world whose embedding model returns vectors of
    dimension 3 and that has no index yet, ingestion succeeds, the probe
    sees the 3 components, and [create_index] is called with dimension
    1536. *)
Lemma probe_dimension_is_not_the_index_dimension :
  let run :=
    @process_pdf nat (scenario_services fair_weather) pdf_payload index_name0
      None initial_state in
  run.2
  = Return (true, lit "PDF processed successfully! Created 1 chunks from 1 pages.")
  ∧ log run.1 !! 2%nat
    = Some (EvEmbedQuery (lit "Hello world.")
              (Return [PrimFloat.zero; PrimFloat.one; PrimFloat.two]))
  ∧ @test_embeddings nat (scenario_services fair_weather) (lit "Hello world.")
      initial_state
    = (mkState fresh_manager ∅ 0%nat
         [EvEmbedQuery (lit "Hello world.")
            (Return [PrimFloat.zero; PrimFloat.one; PrimFloat.two])],
       Return 3)
  ∧ log run.1 !! 4%nat
    = Some (EvCreateIndex index_name0 1536 (lit "cosine") (lit "aws")
              (lit "us-east-1") (Return tt)).
Proof. vm_compute. repeat split; reflexivity. Qed.

(** C2 as stated fails: three paragraphs of 900 characters become three
    chunks, one per paragraph, and the first chunk ends with a's where the
    second, which is not the last, starts with b's. *)
Lemma paragraphs_do_not_overlap :
  @split_text_into_chunks nat three_paragraphs initial_state
  = (initial_state,
     Return [repeat 97%N 900; repeat 98%N 900; repeat 99%N 900])
  ∧ drop (length (repeat 97%N 900) - 200) (repeat 97%N 900) = repeat 97%N 200
  ∧ take 200 (repeat 98%N 900) = repeat 98%N 200
  ∧ repeat 97%N 200 <> repeat 98%N 200.
Proof.
  split; [vm_compute; reflexivity|].
  split; [vm_compute; reflexivity|].
  split; [vm_compute; reflexivity|].
  intros Heq. vm_compute in Heq. discriminate Heq.
Qed.

(** The scenario of the specification: 2900 characters, here without
    whitespace, give four chunks, at 0-1000, 800-1800, 1600-2600 and
    2400-2900. *)
Example chunks_of_2900_characters :
  TextSplitter.split_text Config.TEXT_CHUNK_SIZE Config.TEXT_CHUNK_OVERLAP
    Config.TEXT_SEPARATORS (digits 290)
  = Return [take 1000 (digits 290);
            take 1000 (drop 800 (digits 290));
            take 1000 (drop 1600 (digits 290));
            drop 2400 (digits 290)].
Proof. vm_compute. reflexivity. Qed.

(** Sentences of a short text, with chunks of at most 10 characters and an
    overlap of 4: the overlap is made of whole pieces, here the word "is". *)
Example chunks_of_sentences :
  TextSplitter.split_text 10 4 Config.TEXT_SEPARATORS
    (lit "hello world. this is a test")
  = Return [lit "hello"; lit "world"; lit ". this is"; lit "is a test"].
Proof. vm_compute. reflexivity. Qed.

(** C2 at work: 1200 digits give two chunks, the second starting with the
    last 200 characters of the first. *)
Lemma hard_cut_chunks_overlap_by_200_witness :
  @split_text_into_chunks nat digits_1200 initial_state
  = (initial_state, Return (windows [] digits_1200))
  ∧ forall (i : nat) (a b : str),
      windows [] digits_1200 !! i = Some a ->
      windows [] digits_1200 !! S i = Some b ->
      drop (length a - 200) a = take 200 b.
Proof.
  apply (hard_cut_chunks_overlap_by_200 initial_state digits_1200).
  - intros Heq. vm_compute in Heq. discriminate Heq.
  - vm_compute. reflexivity.
Defined.

(** C3 at work: a scanned document, without status callback. *)
Lemma blank_pdf_fails_before_any_embedding_witness :
  exists (st' : State nat) (tr : list event) (message : str),
    @process_pdf nat (scenario_services scanned_pdf) pdf_payload index_name0
      None initial_state
    = (st', Return (false, message))
    ∧ log st' = log initial_state ++ tr
    ∧ Forall (fun ev => is_embedding_call ev = false) tr
    ∧ (callback_never_raises (W := nat) None ->
       message
       = lit "Error processing PDF: Error reading PDF: No text could be extracted from the PDF file.").
Proof.
  apply (@blank_pdf_fails_before_any_embedding nat
           (scenario_services scanned_pdf) initial_state
           (mkState fresh_manager
              (<[tmp_pdf := pdf_payload]> (<[tmp_pdf := []]> ∅)) 0%nat
              [EvNamedTemporaryFile (Return tmp_pdf);
               EvWrite tmp_pdf pdf_payload (Return tt)])
           pdf_payload index_name0 tmp_pdf None
           [Some (lit "   "); None; Some []]).
  - reflexivity.
  - reflexivity.
  - vm_compute. reflexivity.
Defined.

(** C4 at work: a question asked before any PDF was processed. *)
Lemma rag_without_store_gives_guidance_witness :
  @get_response nat (scenario_services fair_weather) (lit "What is it about?")
    (Config.SYSTEM_PROMPTS Config.HelpfulAssistant) true
    (mkState manager_without_store ∅ 0%nat [])
  = (mkState manager_without_store ∅ 0%nat [],
     Return
       (lit "RAG is enabled but no PDF has been processed. Please process a PDF first or disable RAG.",
        [])).
Proof.
  apply (@rag_without_store_gives_guidance nat (scenario_services fair_weather)
           (mkState manager_without_store ∅ 0%nat [])
           (lit "What is it about?")
           (Config.SYSTEM_PROMPTS Config.HelpfulAssistant));
    reflexivity.
Defined.


(** C6 as stated fails: when the temporary file cannot be created,
    [process_pdf] raises. *)
Lemma full_disk_error_reaches_the_caller :
  @process_pdf nat (scenario_services full_disk) pdf_payload index_name0 None
    initial_state
  = (mkState fresh_manager ∅ 0%nat [EvNamedTemporaryFile (Raise disk_full)],
     Raise disk_full).
Proof. vm_compute. reflexivity. Qed.

(** C6 at work: with every hosted service down, ingestion still returns a
    flag and a message. *)
Lemma pipelines_return_once_upload_is_saved_witness :
  exists st' success message,
    @process_pdf nat (scenario_services provider_down) pdf_payload index_name0
      None initial_state
    = (st', Return (success, message)).
Proof.
  eapply (proj1 (proj2 (@pipelines_return_once_upload_is_saved nat
                          (scenario_services provider_down)))).
  reflexivity.
Defined.

(** C7 as stated fails: when the file cannot be unlinked, ingestion still
    reports success and the temporary file is on disk afterwards. *)
Lemma locked_file_stays_on_disk :
  let run :=
    @process_pdf nat (scenario_services locked_file) pdf_payload index_name0
      None initial_state in
  run.2
  = Return (true, lit "PDF processed successfully! Created 1 chunks from 1 pages.")
  ∧ files run.1 !! tmp_pdf = Some pdf_payload
  ∧ last (log run.1) = Some (EvUnlink tmp_pdf (Raise busy)).
Proof. vm_compute. repeat split; reflexivity. Qed.

(** C7 at work: a successful ingestion ends by unlinking its temporary
    file. *)
Lemma temporary_file_is_unlinked_at_the_end_witness :
  exists (tr : list event) (u : outcome unit),
    log (@process_pdf nat (scenario_services fair_weather) pdf_payload
           index_name0 None initial_state).1
    = [EvNamedTemporaryFile (Return tmp_pdf);
       EvWrite tmp_pdf pdf_payload (Return tt)]
      ++ tr ++ [EvUnlink tmp_pdf u]
    ∧ Forall (ingestion_event index_name0) tr
    ∧ files (@process_pdf nat (scenario_services fair_weather) pdf_payload
               index_name0 None initial_state).1 !! tmp_pdf
      = match u with
        | Return _ => None
        | Raise _ => Some pdf_payload
        end.
Proof.
  apply (@temporary_file_is_unlinked_at_the_end nat
           (scenario_services fair_weather) initial_state
           (mkState fresh_manager
              (<[tmp_pdf := pdf_payload]> (<[tmp_pdf := []]> ∅)) 0%nat
              [EvNamedTemporaryFile (Return tmp_pdf);
               EvWrite tmp_pdf pdf_payload (Return tt)])
           pdf_payload index_name0 tmp_pdf None).
  reflexivity.
Defined.

(** C8 at work: an index that is ready at the third poll. *)
Lemma readiness_wait_is_bounded_witness :
  exists (tr : list event) (r : outcome unit),
    log (@setup_pinecone_index nat (scenario_services fair_weather)
           index_name0 initial_state).1
    = [EvListIndexes (Return []);
       EvCreateIndex index_name0 Config.VECTOR_DIMENSION Config.VECTOR_METRIC
         Config.PINECONE_CLOUD Config.PINECONE_REGION (Return tt)]
      ++ tr
    ∧ wait_ends index_name0 30 tr r
    ∧ (count_polls tr <= 30)%nat
    ∧ (@setup_pinecone_index nat (scenario_services fair_weather)
         index_name0 initial_state).2
      = match r with
        | Return _ => Return (true, lit "created")
        | Raise e =>
            Raise (mk_exn Exception
                     (lit "Error setting up Pinecone index: " ++ exn_msg e))
        end.
Proof.
  apply (@readiness_wait_is_bounded nat (scenario_services fair_weather)
           initial_state index_name0 [] 0%nat 0%nat).
  - eexists. reflexivity.
  - reflexivity.
  - apply not_elem_of_nil.
  - reflexivity.
Defined.


(** * More properties of the program *)

(** ** get_response *)

Section MoreAnswering.

Context {W : Type} `{Services W}.

(** X1: without a model, every question, with RAG or without, is answered
    by the fixed text and no sources, and the state, with its log, is left
    as it was. *)
Theorem no_model_gives_fixed_message
    (st : State W) (question system_prompt : str) (use_rag : bool) :
  current_model (model_manager (chat_manager st)) = None ->
  get_response question system_prompt use_rag st
  = (st,
     Return
       (lit "No model initialized. Please select and initialize a model first.",
        [])).
Proof.
  intros Hnone.
  unfold get_response, try_except, get_chat_manager, mbind, M_bind,
    is_initialized.
  rewrite Hnone. reflexivity.
Qed.



(** [get_response] leaves the model manager and the PDF processor as they
    are. *)
Lemma get_response_keeps_the_clients
    (st : State W) (question system_prompt : str) (use_rag : bool) :
  let run := get_response question system_prompt use_rag st in
  model_manager (chat_manager run.1) = model_manager (chat_manager st)
  ∧ pdf_processor (chat_manager run.1) = pdf_processor (chat_manager st).
Proof.
  unfold get_response, try_except, get_chat_manager, mbind, M_bind.
  destruct (is_initialized (model_manager (chat_manager st)));
    cbn [negb]; [|simpl; auto].
  destruct use_rag; cbn [andb].
  - unfold create_rag_chain, call_rag_wrapper, fallback_chain, service,
      none_has_no_attribute, raise, get_chat_manager, mbind, M_bind, mret,
      M_ret.
    destruct (vectorstore (pdf_processor (chat_manager st))) as [vs|] eqn:Hvs;
      cbn [negb bool_decide]; simpl; [|auto].
    rewrite ?Hvs.
    match goal with
    | |- context [RetrievalQA_invoke ?a ?b ?c ?d] =>
        destruct (RetrievalQA_invoke a b c d) as [w1 [r1|e1]]
    end; simpl; [auto|].
    rewrite ?Hvs.
    match goal with
    | |- context [RetrievalQA_invoke ?a ?b ?c ?d] =>
        destruct (RetrievalQA_invoke a b c d) as [w2 [r2|e2]]
    end; simpl; auto.
  - change (create_conversation_chain system_prompt st)
      with (st, Return (conversation_chain (chat_manager st) system_prompt)).
    unfold invoke_conversation, get_chat_manager, set_chat_manager, service,
      mbind, M_bind, mret, M_ret.
    destruct (LLMChain_invoke (services st)
                (conversation_chain (chat_manager st) system_prompt)
                (memory (chat_manager st)) question) as [w [text|e]];
      simpl; auto.
Qed.

(** X4: [get_response] never changes the files, the model manager or the
    PDF processor.  The memory is either as before or, with RAG switched
    off and an answer returned without sources, extended by the question
    and that answer; in RAG mode it is never written. *)
Theorem get_response_only_extends_the_memory
    (st : State W) (question system_prompt : str) (use_rag : bool) :
  let run := get_response question system_prompt use_rag st in
  files run.1 = files st
  ∧ model_manager (chat_manager run.1) = model_manager (chat_manager st)
  ∧ pdf_processor (chat_manager run.1) = pdf_processor (chat_manager st)
  ∧ (memory (chat_manager run.1) = memory (chat_manager st)
     ∨ (use_rag = false
        ∧ exists text,
            run.2 = Return (text, [])
            ∧ memory (chat_manager run.1)
              = memory (chat_manager st)
                ++ [HumanMessage question; AIMessage text])).
Proof.
  unfold get_response, try_except, get_chat_manager, mbind, M_bind.
  destruct (is_initialized (model_manager (chat_manager st)));
    cbn [negb]; [|simpl; auto].
  destruct use_rag; cbn [andb].
  - unfold create_rag_chain, call_rag_wrapper, fallback_chain, service,
      none_has_no_attribute, raise, get_chat_manager, mbind, M_bind, mret,
      M_ret.
    destruct (vectorstore (pdf_processor (chat_manager st))) as [vs|] eqn:Hvs;
      cbn [negb bool_decide]; simpl; [|auto].
    rewrite ?Hvs.
    match goal with
    | |- context [RetrievalQA_invoke ?a ?b ?c ?d] =>
        destruct (RetrievalQA_invoke a b c d) as [w1 [r1|e1]]
    end; simpl; [auto|].
    rewrite ?Hvs.
    match goal with
    | |- context [RetrievalQA_invoke ?a ?b ?c ?d] =>
        destruct (RetrievalQA_invoke a b c d) as [w2 [r2|e2]]
    end; simpl; auto.
  - change (create_conversation_chain system_prompt st)
      with (st, Return (conversation_chain (chat_manager st) system_prompt)).
    unfold invoke_conversation, get_chat_manager, set_chat_manager, service,
      mbind, M_bind, mret, M_ret.
    destruct (LLMChain_invoke (services st)
                (conversation_chain (chat_manager st) system_prompt)
                (memory (chat_manager st)) question) as [w [text|e]];
      simpl; [|auto].
    repeat split. right. split; [reflexivity|]. now exists text.
Qed.

(** X5: with RAG switched off, [get_response] makes at most one outside
    call, an invocation of the conversation chain, and never one of a
    retrieval chain; with RAG switched on it makes at most two, both
    invocations of retrieval chains, and never invokes the conversation
    chain. *)
Theorem get_response_calls_the_chain_of_its_mode
    (st : State W) (question system_prompt : str) (use_rag : bool) :
  exists tr : list event,
    log (get_response question system_prompt use_rag st).1 = log st ++ tr
    ∧ (length tr <= if use_rag then 2 else 1)%nat
    ∧ Forall (fun ev =>
                (if use_rag then is_retrieval_call ev
                 else is_conversation_call ev) = true) tr.
Proof.
  unfold get_response, try_except, get_chat_manager, mbind, M_bind.
  destruct (is_initialized (model_manager (chat_manager st)));
    cbn [negb];
    [|exists []; simpl; rewrite app_nil_r;
      repeat split; [destruct use_rag; lia|constructor]].
  destruct use_rag; cbn [andb].
  - unfold create_rag_chain, call_rag_wrapper, fallback_chain, service,
      none_has_no_attribute, raise, get_chat_manager, mbind, M_bind, mret,
      M_ret.
    destruct (vectorstore (pdf_processor (chat_manager st))) as [vs|] eqn:Hvs;
      cbn [negb bool_decide]; simpl;
      [|exists []; simpl; rewrite app_nil_r; repeat split; [lia|constructor]].
    rewrite ?Hvs.
    match goal with
    | |- context [RetrievalQA_invoke ?a ?b ?c ?d] =>
        destruct (RetrievalQA_invoke a b c d) as [w1 [r1|e1]]
    end; simpl.
    { eexists [_]. split; [reflexivity|]. split; [simpl; lia|].
      now repeat constructor. }
    rewrite ?Hvs.
    match goal with
    | |- context [RetrievalQA_invoke ?a ?b ?c ?d] =>
        destruct (RetrievalQA_invoke a b c d) as [w2 [r2|e2]]
    end;
      simpl; eexists [_; _]; rewrite <- app_assoc;
      (split; [reflexivity|]); (split; [simpl; lia|]);
      now repeat constructor.
  - change (create_conversation_chain system_prompt st)
      with (st, Return (conversation_chain (chat_manager st) system_prompt)).
    unfold invoke_conversation, get_chat_manager, set_chat_manager, service,
      mbind, M_bind, mret, M_ret.
    destruct (LLMChain_invoke (services st)
                (conversation_chain (chat_manager st) system_prompt)
                (memory (chat_manager st)) question) as [w [text|e]];
      simpl;
      eexists [_]; (split; [reflexivity|]); (split; [simpl; lia|]);
      now repeat constructor.
Qed.

End MoreAnswering.

(** ** The order of the outside calls of an ingestion *)

Section Protocol.

Context {W : Type} `{Services W}.

Variable index_name : str.

Lemma stage_after_app (s : stage) (tr1 tr2 : list event) :
  stage_after index_name s (tr1 ++ tr2)
  = match stage_after index_name s tr1 with
    | Some s1 => stage_after index_name s1 tr2
    | None => None
    end.
Proof.
  revert s. induction tr1 as [|ev tr1 IH]; intros s; simpl; [reflexivity|].
  destruct (next index_name s ev); [apply IH|reflexivity].
Qed.

Lemma store_after_app (tr1 tr2 : list event) (pp : PDFProcessor) :
  store_after (tr1 ++ tr2) pp = store_after tr2 (store_after tr1 pp).
Proof. apply fold_left_app. Qed.

(** A method that makes no call and changes nothing. *)
Lemma follows_silent {A} (m : M W A) (s : stage) (t : A -> stage) :
  (forall st, (m st).1 = st) ->
  (forall st a, (m st).2 = Return a -> s = t a) ->
  follows index_name s m t.
Proof.
  intros Hstate Hret st. exists [], s. rewrite Hstate, app_nil_r.
  repeat split. apply Hret.
Qed.

Lemma follows_ret {A} (a : A) (s : stage) :
  follows index_name s (mret a : M W A) (fun _ => s).
Proof. apply follows_silent; reflexivity. Qed.

Lemma follows_raise {A} (e : exn) (s : stage) (t : A -> stage) :
  follows index_name s (raise e : M W A) t.
Proof. apply follows_silent; [reflexivity|discriminate]. Qed.

Lemma follows_bind {A B} (m : M W A) (k : A -> M W B) (s : stage)
    (t : A -> stage) (u : B -> stage) :
  follows index_name s m t ->
  (forall a, follows index_name (t a) (k a) u) ->
  follows index_name s (m ≫= k) u.
Proof.
  intros Hm Hk st. unfold mbind, M_bind.
  destruct (Hm st) as (tr1 & s1 & Hlog1 & Hrun1 & Hret1 & Hmm1 & Hmem1 & Hpp1).
  destruct (m st) as [st1 [a|e]]; simpl in *.
  - rewrite (Hret1 a eq_refl) in Hrun1.
    destruct (Hk a st1)
      as (tr2 & s2 & Hlog2 & Hrun2 & Hret2 & Hmm2 & Hmem2 & Hpp2).
    exists (tr1 ++ tr2), s2.
    rewrite Hlog2, Hlog1, Hmm2, Hmm1, Hmem2, Hmem1, Hpp2, Hpp1, app_assoc,
      stage_after_app, Hrun1, store_after_app.
    repeat split; assumption.
  - exists tr1, s1. repeat split; try assumption. discriminate.
Qed.

Lemma follows_try_except {A} (body : M W A) (handler : exn -> M W A)
    (s : stage) (t : A -> stage) :
  follows index_name s body t ->
  (forall e s', follows index_name s' (handler e) t) ->
  follows index_name s (try_except body handler) t.
Proof.
  intros Hbody Hhandler st. unfold try_except.
  destruct (Hbody st)
    as (tr1 & s1 & Hlog1 & Hrun1 & Hret1 & Hmm1 & Hmem1 & Hpp1).
  destruct (body st) as [st1 [a|e]]; simpl in *.
  - exists tr1, s1. repeat split; assumption.
  - destruct (Hhandler e s1 st1)
      as (tr2 & s2 & Hlog2 & Hrun2 & Hret2 & Hmm2 & Hmem2 & Hpp2).
    exists (tr1 ++ tr2), s2.
    rewrite Hlog2, Hlog1, Hmm2, Hmm1, Hmem2, Hmem1, Hpp2, Hpp1, app_assoc,
      stage_after_app, Hrun1, store_after_app.
    repeat split; assumption.
Qed.

(** A call that does not touch the vector store. *)
Lemma follows_service {A} (op : W -> W * outcome A) (ev : outcome A -> event)
    (s : stage) (t : A -> stage) :
  (forall r,
     next index_name s (ev r)
     = Some match r with
            | Return a => t a
            | Raise _ => Failed
            end) ->
  (forall r pp, store_step pp (ev r) = pp) ->
  follows index_name s (service op ev) t.
Proof.
  intros Hnext Hstore st. unfold service.
  destruct (op (services st)) as [w r]. simpl.
  eexists [ev r], _. simpl. rewrite Hnext. unfold store_after. simpl.
  rewrite Hstore. repeat split. now intros a ->.
Qed.

Lemma follows_report
    (status_callback : option (W -> str -> W * outcome unit)) (message : str)
    (s : stage) :
  between_steps s = true ->
  follows index_name s (report status_callback message) (fun _ => s).
Proof.
  intros Hs. destruct status_callback as [callback|]; simpl.
  - apply follows_service; [|reflexivity].
    intros r. simpl. rewrite Hs. now destruct r.
  - apply follows_ret.
Qed.

Lemma follows_extract_text_from_pdf (pdf_path : str) (s : stage) :
  follows index_name s (extract_text_from_pdf pdf_path) (fun _ => s).
Proof.
  apply follows_try_except; [|intros e s'; apply follows_raise].
  apply follows_bind with (t := fun _ => s).
  { apply follows_silent; [|reflexivity].
    intros st. unfold read_file. now destruct (files st !! pdf_path). }
  intros data. apply follows_bind with (t := fun _ => s).
  { apply follows_silent; reflexivity. }
  intros pages. cbv beta zeta.
  match goal with
  | |- follows _ _ (if ?b then _ else _) _ => destruct b
  end; [apply follows_raise|apply follows_ret].
Qed.

Lemma follows_split_text_into_chunks (text : str) (s : stage) :
  follows (W := W) index_name s (split_text_into_chunks text) (fun _ => s).
Proof.
  apply follows_try_except; [|intros e s'; apply follows_raise].
  apply follows_bind with (t := fun _ => s).
  { apply follows_silent; reflexivity. }
  intros texts. cbv beta.
  match goal with
  | |- follows _ _ (if ?b then _ else _) _ => destruct b
  end; [apply follows_raise|apply follows_ret].
Qed.

Lemma follows_get_chat_manager (s : stage) :
  follows (W := W) index_name s get_chat_manager (fun _ => s).
Proof. apply follows_silent; reflexivity. Qed.

Lemma follows_test_embeddings (sample_text : str) :
  follows index_name Reading (test_embeddings sample_text) (fun _ => Probed).
Proof.
  apply follows_try_except; [|intros e s'; apply follows_raise].
  eapply follows_bind; [apply follows_get_chat_manager|intros cm].
  destruct (embeddings (model_manager cm)) as [client|];
    [|apply follows_raise].
  apply follows_bind with (t := fun _ => Probed); [|intros v; apply follows_ret].
  apply follows_service; [|reflexivity]. now intros [v|e].
Qed.

Lemma follows_wait_until_ready (polls : nat) :
  follows index_name (Polling polls) (wait_until_ready index_name polls)
    (fun _ => Ready).
Proof.
  induction polls as [|polls IH]; [apply follows_raise|].
  change (follows index_name (Polling (S polls))
            (ready ← service (fun w => describe_index w index_name)
                       (EvDescribeIndex index_name);
             if ready : bool then mret tt
             else time_sleep 1;; wait_until_ready index_name polls)
            (fun _ => Ready)).
  apply follows_bind
    with (t := fun ready : bool => if ready then Ready else Sleeping polls).
  - apply follows_service; [|reflexivity].
    intros r. simpl. rewrite bool_decide_eq_true_2 by reflexivity.
    now destruct r as [[|]|e].
  - intros [|]; [apply follows_ret|].
    apply follows_bind with (t := fun _ => Polling polls); [|intros _; exact IH].
    intros st. exists [EvSleep 1], (Polling polls). simpl. repeat split.
Qed.

Lemma follows_setup_pinecone_index :
  follows index_name Probed (setup_pinecone_index index_name) (fun _ => Ready).
Proof.
  unfold setup_pinecone_index.
  pose proof (follows_wait_until_ready 30) as Hwait.
  remember 30%nat as polls eqn:Hpolls.
  apply follows_try_except; [|intros e s'; apply follows_raise].
  eapply follows_bind; [apply follows_get_chat_manager|intros cm].
  destruct (pc (model_manager cm)) as [client|]; [|apply follows_raise].
  apply follows_bind
    with (t := fun existing_indexes : list str =>
                 if bool_decide (index_name ∈ existing_indexes)
                 then Ready else Missing).
  { apply follows_service; [|reflexivity]. now intros [names|e]. }
  intros existing_indexes.
  destruct (bool_decide (index_name ∈ existing_indexes)); simpl;
    [apply follows_ret|].
  apply follows_bind with (t := fun _ => Polling polls).
  { apply follows_service; [|reflexivity].
    intros r. simpl. rewrite bool_decide_eq_true_2 by reflexivity.
    subst polls. now destruct r. }
  intros _.
  apply follows_bind with (t := fun _ => Ready); [exact Hwait|].
  intros _. apply follows_ret.
Qed.

Lemma follows_upload_to_pinecone (documents : list Document) :
  follows index_name Ready (upload_to_pinecone documents index_name)
    (fun _ => Uploaded).
Proof.
  intros st.
  unfold upload_to_pinecone, try_except, get_chat_manager, set_chat_manager,
    service, raise_Exception, raise, mbind, M_bind, mret, M_ret.
  destruct (from_documents (services st) documents
              (embeddings (model_manager (chat_manager st))) index_name)
    as [w r].
  exists [EvFromDocuments documents index_name r], (after r Uploaded).
  simpl. rewrite bool_decide_eq_true_2 by reflexivity.
  destruct r as [vs|e]; simpl; repeat split; discriminate.
Qed.

Lemma follows_process_pdf_steps (pdf_path : str)
    (status_callback : option (W -> str -> W * outcome unit)) :
  follows index_name Reading
    (process_pdf_steps pdf_path index_name status_callback)
    (fun _ => Uploaded).
Proof.
  assert (Hreport : forall s message,
             between_steps s = true ->
             follows index_name s (report status_callback message)
               (fun _ => s))
    by (intros s message Hs; now apply follows_report).
  unfold process_pdf_steps.
  eapply follows_bind; [now apply Hreport|intros ?; cbv beta].
  eapply follows_bind; [apply follows_extract_text_from_pdf|].
  intros [text num_pages].
  eapply follows_bind; [now apply Hreport|intros ?; cbv beta].
  eapply follows_bind; [now apply Hreport|intros ?; cbv beta].
  eapply follows_bind; [apply follows_split_text_into_chunks|intros texts].
  eapply follows_bind; [now apply Hreport|intros ?; cbv beta].
  eapply follows_bind; [now apply Hreport|intros ?; cbv beta].
  apply follows_bind with (t := fun _ => Reading).
  { destruct texts; [apply follows_raise|apply follows_ret]. }
  intros sample.
  eapply follows_bind; [apply follows_test_embeddings|intros vector_dim].
  eapply follows_bind; [now apply Hreport|intros ?; cbv beta].
  eapply follows_bind; [now apply Hreport|intros ?; cbv beta].
  eapply follows_bind; [apply follows_setup_pinecone_index|].
  intros [success index_status].
  eapply follows_bind; [now apply Hreport|intros ?; cbv beta].
  eapply follows_bind; [now apply Hreport|intros ?; cbv beta].
  cbv zeta.
  eapply follows_bind; [now apply Hreport|intros ?; cbv beta].
  eapply follows_bind; [now apply Hreport|intros ?; cbv beta].
  eapply follows_bind; [apply follows_upload_to_pinecone|intros ?; cbv beta].
  eapply follows_bind; [now apply Hreport|intros ?; cbv beta].
  apply follows_ret.
Qed.

(** *** What the automaton accepts *)

Lemma stage_after_failed (tr : list event) (s' : stage) :
  stage_after index_name Failed tr = Some s' -> tr = [].
Proof.
  destruct tr as [|ev tr]; [reflexivity|].
  simpl. now destruct ev.
Qed.

Lemma next_raised (s s1 : stage) (ev : event) :
  next index_name s ev = Some s1 -> raised ev = true -> s1 = Failed.
Proof.
  destruct ev, s; simpl; intros Hnext Hraised;
    repeat case_match; simplify_eq; reflexivity.
Qed.

Lemma stage_after_raised_last (s s' : stage) (pre post : list event)
    (ev : event) :
  stage_after index_name s (pre ++ ev :: post) = Some s' ->
  raised ev = true -> post = [].
Proof.
  intros Hrun Hraised. revert s Hrun.
  induction pre as [|a pre IH]; intros s; simpl.
  - destruct (next index_name s ev) as [s1|] eqn:Hnext; [|discriminate].
    rewrite (next_raised _ _ _ Hnext Hraised). apply stage_after_failed.
  - destruct (next index_name s a) as [s1|]; [apply IH|discriminate].
Qed.

Lemma next_ready (s : stage) (ev : event) :
  next index_name s ev = Some Ready ->
  s = Ready ∨ index_is_available index_name ev = true.
Proof.
  destruct ev, s; simpl; unfold after; intros Hnext;
    repeat case_match; simplify_eq; auto.
Qed.

Lemma stage_after_upload (s s' : stage) (pre post : list event)
    (documents : list Document) (name : str)
    (r : outcome PineconeVectorStore) :
  stage_after index_name s (pre ++ EvFromDocuments documents name r :: post)
  = Some s' ->
  name = index_name
  ∧ (s = Ready
     ∨ exists ev, ev ∈ pre ∧ index_is_available index_name ev = true).
Proof.
  revert s. induction pre as [|a pre IH]; intros s; simpl.
  - destruct s; simpl; try discriminate.
    case_bool_decide; [auto|discriminate].
  - destruct (next index_name s a) as [s1|] eqn:Hnext; [|discriminate].
    intros Hrun. destruct (IH _ Hrun) as [Hname [->|(ev & Hin & Hev)]].
    + split; [exact Hname|].
      destruct (next_ready _ _ Hnext) as [->|Ha]; [now left|right].
      exists a. split; [apply list_elem_of_here|exact Ha].
    + split; [exact Hname|right].
      exists ev. split; [now apply list_elem_of_further|exact Hev].
Qed.

Lemma next_from_uploaded (s1 : stage) (ev : event) :
  next index_name Uploaded ev = Some s1 ->
  (forall pp, store_step pp ev = pp) ∧ (s1 = Uploaded ∨ s1 = Failed).
Proof.
  destruct ev; simpl; try discriminate.
  intros [= <-]. split; [reflexivity|]. destruct r; auto.
Qed.

Lemma store_after_from_uploaded (tr : list event) (s' : stage)
    (pp : PDFProcessor) :
  stage_after index_name Uploaded tr = Some s' -> store_after tr pp = pp.
Proof.
  destruct tr as [|ev tr]; [reflexivity|]. simpl.
  destruct (next index_name Uploaded ev) as [s1|] eqn:Hnext; [|discriminate].
  destruct (next_from_uploaded _ _ Hnext) as [Hstore [->| ->]]; intros Hrun.
  - unfold store_after. simpl. rewrite Hstore. clear Hnext Hstore.
    revert Hrun. induction tr as [|ev' tr IH]; [reflexivity|]. simpl.
    destruct (next index_name Uploaded ev') as [s1|] eqn:Hnext;
      [|discriminate].
    destruct (next_from_uploaded _ _ Hnext) as [Hstore [->| ->]];
      rewrite Hstore; [exact IH|].
    intros Hrun. now rewrite (stage_after_failed _ _ Hrun).
  - rewrite (stage_after_failed _ _ Hrun). unfold store_after. simpl.
    apply Hstore.
Qed.

Lemma next_uploaded (s : stage) (ev : event) :
  next index_name s ev = Some Uploaded ->
  (s = Uploaded ∧ forall pp, store_step pp ev = pp)
  ∨ (s = Ready
     ∧ exists documents vs,
         ev = EvFromDocuments documents index_name (Return vs)).
Proof.
  destruct ev, s; simpl; unfold after; intros Hnext;
    repeat case_match; simplify_eq; eauto.
  right. split; [reflexivity|].
  match goal with
  | Hname : bool_decide _ = true |- _ => apply bool_decide_eq_true_1 in Hname
  end.
  subst. eauto.
Qed.

Lemma stage_after_uploaded (s : stage) (tr : list event) :
  stage_after index_name s tr = Some Uploaded ->
  s = Uploaded
  ∨ exists documents vs,
      EvFromDocuments documents index_name (Return vs) ∈ tr
      ∧ forall pp,
          store_after tr pp
          = {| vectorstore := Some vs;
               current_index_name := Some index_name |}.
Proof.
  revert s. induction tr as [|ev tr IH]; intros s; simpl.
  - intros [= ->]. now left.
  - destruct (next index_name s ev) as [s1|] eqn:Hnext; [|discriminate].
    intros Hrun. destruct (IH _ Hrun) as [->|(documents & vs & Hin & Hstore)].
    + destruct (next_uploaded _ _ Hnext)
        as [[-> _]|[-> (documents & vs & ->)]]; [now left|right].
      exists documents, vs. split; [apply list_elem_of_here|].
      intros pp. unfold store_after. simpl.
      apply (store_after_from_uploaded _ _ _ Hrun).
    + right. exists documents, vs.
      split; [now apply list_elem_of_further|].
      intros pp. apply Hstore.
Qed.


(** A call found in a log made of two calls, a sequence and a last call. *)
Lemma split_bracketed {A} (a b c x : A) (mid pre post : list A) :
  [a; b] ++ mid ++ [c] = pre ++ x :: post ->
  (pre = [] ∧ x = a) ∨ (pre = [a] ∧ x = b)
  ∨ (x = c ∧ post = [])
  ∨ exists pre' post',
      mid = pre' ++ x :: post' ∧ pre = a :: b :: pre' ∧ post = post' ++ [c].
Proof.
  destruct pre as [|a' [|b' pre']]; simpl; intros Heq.
  { injection Heq as <- _. auto. }
  { injection Heq as <- <- _. auto. }
  injection Heq as <- <- Heq. do 2 right.
  destruct post as [|y post _] using rev_ind.
  - apply (app_inj_tail mid pre' c x) in Heq as [-> ->]. auto.
  - rewrite app_comm_cons, app_assoc in Heq.
    apply app_inj_tail in Heq as [-> ->]. right. now exists pre', post.
Qed.

(** *** [process_pdf] as a whole *)

Lemma save_upload_raises (st st1 : State W) (uploaded_file : bytes) (e : exn) :
  save_upload uploaded_file st = (st1, Raise e) ->
  chat_manager st1 = chat_manager st
  ∧ (log st1 = log st ++ [EvNamedTemporaryFile (Raise e)]
     ∨ exists pdf_path,
         log st1
         = log st ++ [EvNamedTemporaryFile (Return pdf_path);
                      EvWrite pdf_path uploaded_file (Raise e)]
         ∧ files st1 !! pdf_path = Some []).
Proof.
  unfold save_upload, service, update_files, mbind, M_bind, mret, M_ret.
  destruct (NamedTemporaryFile (services st)) as [w1 [p|e1]]; simpl.
  - destruct (write w1 p uploaded_file) as [w2 [[]|e2]]; simpl;
      [discriminate|].
    intros [= <- <-]. simpl. split; [reflexivity|right].
    exists p. rewrite <- app_assoc. split; [reflexivity|].
    apply lookup_insert_eq.
  - intros [= <- <-]. simpl. auto.
Qed.

Lemma cleanup_inv (st : State W) (pdf_path : str) (data : bytes) :
  files st !! pdf_path = Some data ->
  exists st' u,
    cleanup pdf_path st = (st', Return tt)
    ∧ log st' = log st ++ [EvUnlink pdf_path u]
    ∧ chat_manager st' = chat_manager st.
Proof.
  intros Hdisk.
  unfold cleanup, os_path_exists, try_except, os_unlink, service, update_files,
    mbind, M_bind, mret, M_ret.
  rewrite Hdisk. simpl. rewrite Hdisk.
  destruct (unlink (services st) pdf_path) as [w [[]|e]]; simpl;
    eexists _, _; repeat split; reflexivity.
Qed.

(** The three ways a call of [process_pdf] goes: the temporary file cannot
    be created, the upload cannot be written, or the steps run between the
    write and the [unlink]. *)
Lemma process_pdf_shape (st : State W) (uploaded_file : bytes)
    (status_callback : option (W -> str -> W * outcome unit)) :
  let run := process_pdf uploaded_file index_name status_callback st in
  (exists e,
     run.2 = Raise e
     ∧ chat_manager run.1 = chat_manager st
     ∧ (log run.1 = log st ++ [EvNamedTemporaryFile (Raise e)]
        ∨ exists pdf_path,
            log run.1
            = log st ++ [EvNamedTemporaryFile (Return pdf_path);
                         EvWrite pdf_path uploaded_file (Raise e)]
            ∧ files run.1 !! pdf_path = Some []))
  ∨ (exists pdf_path tr s' u success message,
       run.2 = Return (success, message)
       ∧ log run.1
         = log st
           ++ [EvNamedTemporaryFile (Return pdf_path);
               EvWrite pdf_path uploaded_file (Return tt)]
           ++ tr ++ [EvUnlink pdf_path u]
       ∧ stage_after index_name Reading tr = Some s'
       ∧ (success = true -> s' = Uploaded)
       ∧ model_manager (chat_manager run.1) = model_manager (chat_manager st)
       ∧ memory (chat_manager run.1) = memory (chat_manager st)
       ∧ pdf_processor (chat_manager run.1)
         = store_after tr (pdf_processor (chat_manager st))
       ∧ exists st1,
           let steps :=
             process_pdf_steps pdf_path index_name status_callback st1 in
           files st1 !! pdf_path = Some uploaded_file
           ∧ log steps.1 = log st1 ++ tr
           ∧ Return (success, message)
             = match steps.2 with
               | Return a => Return a
               | Raise e =>
                   Return (false, lit "Error processing PDF: " ++ exn_msg e)
               end).
Proof.
  intros run. subst run.
  destruct (save_upload uploaded_file st) as [st1 [pdf_path|e]] eqn:Hsave.
  - right. rewrite (process_pdf_after_save _ _ _ _ _ _ Hsave).
    pose proof (saved_file_is_on_disk _ _ _ _ Hsave) as Hdisk.
    apply save_upload_inv in Hsave as (w1 & w2 & _ & _ & Hst1).
    assert (Hsaved : log st1
                     = log st ++ [EvNamedTemporaryFile (Return pdf_path);
                                  EvWrite pdf_path uploaded_file (Return tt)]
                       ∧ chat_manager st1 = chat_manager st)
      by now rewrite Hst1.
    clear Hst1. destruct Hsaved as [Hsaved Hcm].
    unfold try_finally.
    match goal with
    | |- context [try_except ?body ?handler st1] =>
        pose proof (steps_keep_files pdf_path index_name status_callback
                      handler (fun e st => eq_refl) st1) as Hfiles;
        unfold try_except in Hfiles |- *
    end.
    destruct (follows_process_pdf_steps pdf_path status_callback st1)
      as (tr & s' & Hlog & Hrun & Hret & Hmm & Hmem & Hpp).
    pose proof Hdisk as Hdisk1.
    destruct (process_pdf_steps pdf_path index_name status_callback st1)
      as [st2 [[success message]|e]] eqn:Hsteps;
      simpl in Hfiles, Hlog, Hret, Hmm, Hmem, Hpp;
      unfold same_files in Hfiles; rewrite <- Hfiles in Hdisk;
      destruct (cleanup_inv _ _ _ Hdisk) as (st3 & u & Hclean & Hlog3 & Hcm3).
    + rewrite Hclean. simpl.
      exists pdf_path, tr, s', u, success, message.
      rewrite Hlog3, Hlog, Hsaved, Hcm3, Hmm, Hmem, Hpp, Hcm, <- !app_assoc.
      repeat split; try assumption; [intros _; eapply Hret; reflexivity|].
      exists st1. rewrite Hsteps. simpl. now rewrite Hlog, Hsaved.
    + unfold mret, M_ret in *. rewrite Hclean. simpl.
      eexists pdf_path, tr, s', u, false, _.
      rewrite Hlog3, Hlog, Hsaved, Hcm3, Hmm, Hmem, Hpp, Hcm, <- !app_assoc.
      repeat split; try assumption; [discriminate|].
      exists st1. rewrite Hsteps. simpl. now rewrite Hlog, Hsaved.
  - left. unfold process_pdf, mbind, M_bind. rewrite Hsave. simpl.
    destruct (save_upload_raises _ _ _ _ Hsave) as [Hcm Hlog].
    exists e. repeat split; assumption.
Qed.

(** *** The protocol of [process_pdf] *)


(** X7: [process_pdf] uploads documents only into the index it was asked
    for, and only after a call told that this index can take them: the
    listing of the indexes contained its name, or a poll reported it
    ready. *)
Theorem upload_only_into_an_available_index
    (st : State W) (uploaded_file : bytes)
    (status_callback : option (W -> str -> W * outcome unit)) :
  exists tr : list event,
    log (process_pdf uploaded_file index_name status_callback st).1
    = log st ++ tr
    ∧ forall (pre post : list event) (documents : list Document) (name : str)
        (r : outcome PineconeVectorStore),
        tr = pre ++ EvFromDocuments documents name r :: post ->
        name = index_name
        ∧ exists ev, ev ∈ pre ∧ index_is_available index_name ev = true.
Proof.
  destruct (process_pdf_shape st uploaded_file status_callback)
    as [(e & _ & _ & [Hlog|(pdf_path & Hlog & _)])
       |(pdf_path & tr & s' & u & success & message & _ & Hlog & Hrun & _)];
    eexists; (split; [exact Hlog|]);
    intros pre post documents name r Heq.
  - now destruct pre as [|? [|? ?]].
  - now destruct pre as [|? [|? [|? ?]]].
  - apply split_bracketed
      in Heq as [[_ [=]]|[[_ [=]]|[[[=] _]|(pre' & post' & -> & -> & _)]]].
    destruct (stage_after_upload _ _ _ _ _ _ _ Hrun)
      as [Hname [[=]|(ev & Hin & Hev)]].
    split; [exact Hname|]. exists ev. split; [|exact Hev].
    now do 2 apply list_elem_of_further.
Qed.

(** X8: [process_pdf] stops at the first outside call that raises: the
    only call that can follow it is the [unlink] of the temporary file. *)
Theorem nothing_but_the_unlink_follows_a_raised_call
    (st : State W) (uploaded_file : bytes)
    (status_callback : option (W -> str -> W * outcome unit)) :
  exists tr : list event,
    log (process_pdf uploaded_file index_name status_callback st).1
    = log st ++ tr
    ∧ forall (pre post : list event) (ev : event),
        tr = pre ++ ev :: post ->
        raised ev = true ->
        post = [] ∨ exists pdf_path u, post = [EvUnlink pdf_path u].
Proof.
  destruct (process_pdf_shape st uploaded_file status_callback)
    as [(e & _ & _ & [Hlog|(pdf_path & Hlog & _)])
       |(pdf_path & tr & s' & u & success & message & _ & Hlog & Hrun & _)];
    eexists; (split; [exact Hlog|]);
    intros pre post ev Heq Hraised.
  - destruct pre as [|? [|? ?]]; [|discriminate..].
    injection Heq as _ <-. now left.
  - destruct pre as [|? [|? [|? ?]]]; [| |discriminate..].
    + injection Heq as <- _. discriminate.
    + injection Heq as _ _ <-. now left.
  - apply split_bracketed
      in Heq as [[_ ->]|[[_ ->]|[[_ ->]|(pre' & post' & -> & -> & ->)]]];
      [discriminate..|now left|].
    rewrite (stage_after_raised_last _ _ _ _ _ Hrun Hraised). eauto.
Qed.

(** X9: [process_pdf] never changes the model manager or the memory, and
    the fields of the PDF processor are what the uploads of its log that
    returned tell: without one they are as before, whatever else
    failed. *)
Theorem ingestion_changes_only_the_vector_store
    (st : State W) (uploaded_file : bytes)
    (status_callback : option (W -> str -> W * outcome unit)) :
  let run := process_pdf uploaded_file index_name status_callback st in
  model_manager (chat_manager run.1) = model_manager (chat_manager st)
  ∧ memory (chat_manager run.1) = memory (chat_manager st)
  ∧ exists tr : list event,
      log run.1 = log st ++ tr
      ∧ pdf_processor (chat_manager run.1)
        = store_after tr (pdf_processor (chat_manager st)).
Proof.
  intros run. subst run.
  destruct (process_pdf_shape st uploaded_file status_callback)
    as [(e & _ & Hcm & [Hlog|(pdf_path & Hlog & _)])
       |(pdf_path & tr & s' & u & success & message & _ & Hlog & _ & _
         & Hmm & Hmem & Hpp & _)].
  - rewrite Hcm. split; [reflexivity|split; [reflexivity|]].
    eexists. split; [exact Hlog|reflexivity].
  - rewrite Hcm. split; [reflexivity|split; [reflexivity|]].
    eexists. split; [exact Hlog|reflexivity].
  - split; [exact Hmm|split; [exact Hmem|]].
    eexists. split; [exact Hlog|].
    rewrite Hpp. unfold store_after. simpl. now rewrite fold_left_app.
Qed.

(** X10: when [process_pdf] reports success, the documents were uploaded
    into the index it was asked for, and the PDF processor holds the vector
    store this upload returned and the name of the index. *)
Theorem success_means_the_store_is_set
    (st st' : State W) (uploaded_file : bytes)
    (status_callback : option (W -> str -> W * outcome unit))
    (message : str) :
  process_pdf uploaded_file index_name status_callback st
  = (st', Return (true, message)) ->
  exists (tr : list event) (documents : list Document)
    (vs : PineconeVectorStore),
    log st' = log st ++ tr
    ∧ EvFromDocuments documents index_name (Return vs) ∈ tr
    ∧ vectorstore (pdf_processor (chat_manager st')) = Some vs
    ∧ current_index_name (pdf_processor (chat_manager st')) = Some index_name.
Proof.
  intros Hrun'.
  destruct (process_pdf_shape st uploaded_file status_callback)
    as [(e & Hres & _)
       |(pdf_path & tr & s' & u & success & message' & Hres & Hlog & Hrun
         & Hok & _ & _ & Hpp & _)];
    rewrite Hrun' in *; simpl in *; [discriminate|].
  injection Hres as <- _. rewrite (Hok eq_refl) in Hrun.
  destruct (stage_after_uploaded _ _ Hrun)
    as [[=]|(documents & vs & Hin & Hstore)].
  eexists _, documents, vs. split; [exact Hlog|].
  rewrite Hpp, Hstore. repeat split.
  do 2 apply list_elem_of_further. apply elem_of_app. now left.
Qed.

(** X11: when the upload cannot be written to the temporary file,
    [process_pdf] raises the error of the write after these two calls, and
    the file it created stays on disk: nothing unlinks it. *)
Theorem failed_write_leaves_the_temporary_file
    (st : State W) (uploaded_file : bytes)
    (status_callback : option (W -> str -> W * outcome unit))
    (pdf_path : str) (w1 w2 : W) (e : exn) :
  NamedTemporaryFile (services st) = (w1, Return pdf_path) ->
  write w1 pdf_path uploaded_file = (w2, Raise e) ->
  let run := process_pdf uploaded_file index_name status_callback st in
  run.2 = Raise e
  ∧ log run.1
    = log st ++ [EvNamedTemporaryFile (Return pdf_path);
                 EvWrite pdf_path uploaded_file (Raise e)]
  ∧ is_Some (files run.1 !! pdf_path).
Proof.
  intros Hcreate Hwrite.
  unfold process_pdf, save_upload, service, update_files, mbind, M_bind,
    mret, M_ret.
  rewrite Hcreate. simpl. rewrite Hwrite. simpl.
  rewrite <- app_assoc. repeat split.
  rewrite lookup_insert_eq. now eexists.
Qed.

End Protocol.

(** ** What the steps of an ingestion return and raise *)

Section Steps.

Context {W : Type} `{Services W}.

Variable I : State W -> Prop.
Variable allowed : event -> Prop.
Variable Ecb : exn -> Prop.
Variable index_name : str.
Variable pdf_path : str.
Variable uploaded_file : bytes.
Variable status_callback : option (W -> str -> W * outcome unit).

Hypothesis I_file : forall st, I st -> files st !! pdf_path = Some uploaded_file.
Hypothesis I_call :
  forall st w ev,
    I st -> allowed ev ->
    I (mkState (chat_manager st) (files st) w (log st ++ [ev])).
Hypothesis I_store :
  forall st pp,
    I st ->
    I (mkState
         {| model_manager := model_manager (chat_manager st);
            pdf_processor := pp;
            memory := memory (chat_manager st) |}
         (files st) (services st) (log st)).
Hypothesis allowed_call :
  forall ev, ingestion_event index_name ev -> is_upload ev = false -> allowed ev.
Hypothesis allowed_upload :
  forall documents r,
    chunks_of_upload uploaded_file documents ->
    allowed (EvFromDocuments documents index_name r).
Hypothesis callback_raises :
  forall callback w message e,
    status_callback = Some callback ->
    (callback w message).2 = Raise e -> Ecb e.

Lemma ensures_ret {A} (a : A) (Q : A -> Prop) (E : exn -> Prop) :
  Q a -> ensures I (mret a) Q E.
Proof. intros Ha st HI. now split. Qed.

Lemma ensures_raise {A} (e : exn) (Q : A -> Prop) (E : exn -> Prop) :
  E e -> ensures I (raise e : M W A) Q E.
Proof. intros He st HI. now split. Qed.

Lemma ensures_bind {A B} (m : M W A) (k : A -> M W B) (Q1 : A -> Prop)
    (Q : B -> Prop) (E : exn -> Prop) :
  ensures I m Q1 E ->
  (forall a, Q1 a -> ensures I (k a) Q E) ->
  ensures I (m ≫= k) Q E.
Proof.
  intros Hm Hk st HI. unfold mbind, M_bind.
  destruct (Hm st HI) as [HI1 Hres].
  destruct (m st) as [st1 [a|e]]; simpl in *.
  - now apply Hk.
  - now split.
Qed.

Lemma ensures_try_except {A} (body : M W A) (handler : exn -> M W A)
    (Q : A -> Prop) (E1 E : exn -> Prop) :
  ensures I body Q E1 ->
  (forall e, E1 e -> ensures I (handler e) Q E) ->
  ensures I (try_except body handler) Q E.
Proof.
  intros Hbody Hhandler st HI. unfold try_except.
  destruct (Hbody st HI) as [HI1 Hres].
  destruct (body st) as [st1 [a|e]]; simpl in *.
  - now split.
  - now apply Hhandler.
Qed.

Lemma ensures_service {A} (op : W -> W * outcome A) (ev : outcome A -> event)
    (Q : A -> Prop) (E : exn -> Prop) :
  (forall r, allowed (ev r)) ->
  (forall w,
     match (op w).2 with
     | Return a => Q a
     | Raise e => E e
     end) ->
  ensures I (service op ev) Q E.
Proof.
  intros Hev Hres st HI. unfold service.
  specialize (Hres (services st)).
  destruct (op (services st)) as [w r]. simpl in *.
  split; [apply I_call; auto|exact Hres].
Qed.

(** The exceptions that leave a step method. *)
Lemma ensures_wrapped {A} (body : M W A) (prefix : str) (Q : A -> Prop) :
  prefix ∈ step_prefixes ->
  ensures I body Q (fun _ => True) ->
  ensures I
    (try_except body (fun e => raise_Exception (prefix ++ exn_msg e)))
    Q (fun e => Ecb e ∨ raised_by_a_step e).
Proof.
  intros Hprefix Hbody.
  apply ensures_try_except with (E1 := fun _ => True); [exact Hbody|].
  intros e _. apply ensures_raise. right.
  split; [reflexivity|]. now exists prefix, (exn_msg e).
Qed.

Lemma try_except_wraps {A} (body : M W A) (prefix : str) (st st' : State W)
    (e : exn) :
  try_except body (fun e => raise_Exception (prefix ++ exn_msg e)) st
  = (st', Raise e) ->
  exn_cls e = Exception ∧ exists detail, exn_msg e = prefix ++ detail.
Proof.
  unfold try_except, raise_Exception, raise.
  destruct (body st) as [st1 [a|e1]]; [discriminate|].
  intros [= _ <-]. simpl. eauto.
Qed.

Ltac is_step_prefix :=
  unfold step_prefixes;
  repeat first [apply list_elem_of_here | apply list_elem_of_further].

Lemma ensures_report (message : str) :
  ensures I (report status_callback message) (fun _ => True)
    (fun e => Ecb e ∨ raised_by_a_step e).
Proof.
  destruct status_callback as [callback|] eqn:Hcallback; simpl.
  - apply ensures_service.
    + intros r. now apply allowed_call.
    + intros w.
      destruct (callback w message) as [w' [[]|e]] eqn:Hcall; simpl;
        [exact Logic.I|left].
      apply (callback_raises callback w message e eq_refl).
      now rewrite Hcall.
  - now apply ensures_ret.
Qed.

Lemma extract_text_from_pdf_keeps_state (st : State W) :
  (extract_text_from_pdf pdf_path st).1 = st.
Proof.
  revert st.
  apply (respects_extract_text_from_pdf (fun st st' : State W => st' = st));
    [reflexivity|congruence].
Qed.

Lemma split_text_into_chunks_keeps_state (text : str) (st : State W) :
  (split_text_into_chunks text st).1 = st.
Proof.
  revert st.
  apply (respects_split_text_into_chunks (fun st st' : State W => st' = st));
    [reflexivity|congruence].
Qed.

Lemma ensures_extract_text_from_pdf :
  ensures I (extract_text_from_pdf pdf_path)
    (fun r =>
       exists pages,
         PdfReader uploaded_file = Return pages
         ∧ r.1 = join Config.NL (omap kept_page pages))
    (fun e => Ecb e ∨ raised_by_a_step e).
Proof.
  intros st HI. rewrite extract_text_from_pdf_keeps_state.
  split; [exact HI|].
  destruct (extract_text_from_pdf pdf_path st) as [st' [[text n]|e]] eqn:Hrun;
    simpl.
  - destruct (extract_text_from_pdf_returns _ _ _ _ _ _ (I_file _ HI) Hrun)
      as (pages & Hpages & -> & _).
    now exists pages.
  - right. apply try_except_wraps in Hrun as [Hcls [detail Hmsg]].
    split; [exact Hcls|]. eexists _, detail. split; [|exact Hmsg].
    is_step_prefix.
Qed.

Lemma ensures_split_text_into_chunks (text : str) :
  ensures I (split_text_into_chunks text)
    (fun texts =>
       TextSplitter.split_text Config.TEXT_CHUNK_SIZE Config.TEXT_CHUNK_OVERLAP
         Config.TEXT_SEPARATORS text = Return texts
       ∧ texts <> [])
    (fun e => Ecb e ∨ raised_by_a_step e).
Proof.
  intros st HI. rewrite split_text_into_chunks_keeps_state.
  split; [exact HI|].
  destruct (split_text_into_chunks text st) as [st' [texts|e]] eqn:Hrun;
    simpl.
  - split; [exact (split_text_into_chunks_returns _ _ _ _ Hrun)|].
    intros ->. revert Hrun.
    unfold split_text_into_chunks, try_except, lift, mbind, M_bind.
    destruct (TextSplitter.split_text _ _ _ text) as [[|c chunks]|e];
      discriminate.
  - right. apply try_except_wraps in Hrun as [Hcls [detail Hmsg]].
    split; [exact Hcls|]. eexists _, detail. split; [|exact Hmsg].
    is_step_prefix.
Qed.

Lemma ensures_get_chat_manager (Q : ChatManager -> Prop) (E : exn -> Prop) :
  (forall cm, Q cm) -> ensures I get_chat_manager Q E.
Proof. intros HQ st HI. split; [exact HI|apply HQ]. Qed.

Lemma ensures_test_embeddings (sample_text : str) :
  ensures I (test_embeddings sample_text) (fun _ => True)
    (fun e => Ecb e ∨ raised_by_a_step e).
Proof.
  apply ensures_wrapped; [is_step_prefix|].
  apply ensures_bind with (Q1 := fun _ => True);
    [now apply ensures_get_chat_manager|intros cm _].
  destruct (embeddings (model_manager cm)) as [client|];
    [|now apply ensures_raise].
  apply ensures_bind with (Q1 := fun _ => True);
    [|intros v _; now apply ensures_ret].
  apply ensures_service.
  - intros r. now apply allowed_call.
  - intros w. now destruct (embed_query w sample_text) as [w' [v|e]].
Qed.

Lemma ensures_wait_until_ready (polls : nat) :
  ensures I (wait_until_ready index_name polls) (fun _ => True)
    (fun _ => True).
Proof.
  induction polls as [|polls IH]; [now apply ensures_raise|].
  change (ensures I
            (ready ← service (fun w => describe_index w index_name)
                       (EvDescribeIndex index_name);
             if ready : bool then mret tt
             else time_sleep 1;; wait_until_ready index_name polls)
            (fun _ => True) (fun _ => True)).
  apply ensures_bind with (Q1 := fun _ => True).
  - apply ensures_service.
    + intros r. now apply allowed_call.
    + intros w. now destruct (describe_index w index_name) as [w' [b|e]].
  - intros [|] _; [now apply ensures_ret|].
    apply ensures_bind with (Q1 := fun _ => True); [|intros _ _; exact IH].
    intros st HI. unfold time_sleep. simpl. split; [|exact Logic.I].
    apply I_call; [exact HI|]. now apply allowed_call.
Qed.

Lemma ensures_setup_pinecone_index :
  ensures I (setup_pinecone_index index_name) (fun _ => True)
    (fun e => Ecb e ∨ raised_by_a_step e).
Proof.
  unfold setup_pinecone_index.
  pose proof (ensures_wait_until_ready 30) as Hwait.
  remember 30%nat as polls eqn:Hpolls.
  apply ensures_wrapped; [is_step_prefix|].
  apply ensures_bind with (Q1 := fun _ => True);
    [now apply ensures_get_chat_manager|intros cm _].
  destruct (pc (model_manager cm)) as [client|];
    [|now apply ensures_raise].
  apply ensures_bind with (Q1 := fun _ => True).
  { apply ensures_service.
    - intros r. now apply allowed_call.
    - intros w. now destruct (list_indexes w) as [w' [names|e]]. }
  intros existing_indexes _.
  destruct (negb (bool_decide (index_name ∈ existing_indexes)));
    [|now apply ensures_ret].
  apply ensures_bind with (Q1 := fun _ => True).
  { apply ensures_service.
    - intros r. apply allowed_call; [|reflexivity]. repeat split.
    - intros w.
      now destruct (create_index w index_name Config.VECTOR_DIMENSION
                      Config.VECTOR_METRIC Config.PINECONE_CLOUD
                      Config.PINECONE_REGION) as [w' [[]|e]]. }
  intros _ _.
  apply ensures_bind with (Q1 := fun _ => True); [exact Hwait|].
  intros _ _. now apply ensures_ret.
Qed.

Lemma ensures_upload_to_pinecone (documents : list Document) :
  chunks_of_upload uploaded_file documents ->
  ensures I (upload_to_pinecone documents index_name) (fun _ => True)
    (fun e => Ecb e ∨ raised_by_a_step e).
Proof.
  intros Hdocuments.
  apply ensures_wrapped; [is_step_prefix|].
  intros st HI.
  unfold get_chat_manager, set_chat_manager, service, mbind, M_bind, mret,
    M_ret.
  simpl.
  destruct (from_documents (services st) documents
              (embeddings (model_manager (chat_manager st))) index_name)
    as [w [vs|e]]; simpl.
  - split; [|exact Logic.I].
    apply (I_store
             (mkState (chat_manager st) (files st) w
                (log st ++ [EvFromDocuments documents index_name (Return vs)]))).
    apply I_call; [exact HI|now apply allowed_upload].
  - split; [|exact Logic.I].
    apply I_call; [exact HI|now apply allowed_upload].
Qed.

Lemma ensures_process_pdf_steps :
  ensures I (process_pdf_steps pdf_path index_name status_callback)
    (fun r => r.1 = true) (fun e => Ecb e ∨ raised_by_a_step e).
Proof.
  pose proof ensures_report as Hreport.
  unfold process_pdf_steps.
  eapply ensures_bind; [apply Hreport|intros _ _].
  eapply ensures_bind; [apply ensures_extract_text_from_pdf|].
  intros [text num_pages] (pages & Hpages & Htext). simpl in Htext.
  eapply ensures_bind; [apply Hreport|intros _ _].
  eapply ensures_bind; [apply Hreport|intros _ _].
  eapply ensures_bind; [apply ensures_split_text_into_chunks|].
  intros texts [Hsplit Hsome].
  eapply ensures_bind; [apply Hreport|intros _ _].
  eapply ensures_bind; [apply Hreport|intros _ _].
  apply ensures_bind with (Q1 := fun _ => True).
  { destruct texts; [contradiction|]. now apply ensures_ret. }
  intros sample _.
  eapply ensures_bind; [apply ensures_test_embeddings|intros vector_dim _].
  eapply ensures_bind; [apply Hreport|intros _ _].
  eapply ensures_bind; [apply Hreport|intros _ _].
  eapply ensures_bind; [apply ensures_setup_pinecone_index|].
  intros [success index_status] _.
  eapply ensures_bind; [apply Hreport|intros _ _].
  eapply ensures_bind; [apply Hreport|intros _ _].
  cbv zeta.
  eapply ensures_bind; [apply Hreport|intros _ _].
  eapply ensures_bind; [apply Hreport|intros _ _].
  eapply ensures_bind.
  { apply ensures_upload_to_pinecone. exists pages, texts. now subst text. }
  intros _ _.
  eapply ensures_bind; [apply Hreport|intros _ _].
  now apply ensures_ret.
Qed.

End Steps.

(** ** What an ingestion uploads and reports *)

Section IngestionResults.

Context {W : Type} `{Services W}.


(** X13: whatever [process_pdf] uploads is the text of the uploaded PDF in
    chunks: the pages with text, stripped and joined by newlines, split by
    the text splitter, one document for each chunk, in their order. *)
Theorem uploaded_documents_are_the_chunks
    (st : State W) (uploaded_file : bytes) (index_name : str)
    (status_callback : option (W -> str -> W * outcome unit)) :
  exists tr : list event,
    log (process_pdf uploaded_file index_name status_callback st).1
    = log st ++ tr
    ∧ forall (documents : list Document) (name : str)
        (r : outcome PineconeVectorStore),
        EvFromDocuments documents name r ∈ tr ->
        chunks_of_upload uploaded_file documents.
Proof.
  destruct (process_pdf_shape index_name st uploaded_file status_callback)
    as [(e & _ & _ & [Hlog|(pdf_path & Hlog & _)])
       |(pdf_path & tr & s' & u & success & message & _ & Hlog & _ & _ & _
         & _ & _ & st1 & Hdisk & Hsteps & _)];
    eexists; (split; [exact Hlog|]); intros documents name r Hin.
  - apply list_elem_of_singleton in Hin. discriminate.
  - apply elem_of_cons in Hin as [Hin|Hin]; [discriminate|].
    apply list_elem_of_singleton in Hin. discriminate.
  - set (allowed := fun ev : event =>
           forall documents name r,
             ev = EvFromDocuments documents name r ->
             chunks_of_upload uploaded_file documents).
    destruct (ensures_process_pdf_steps
                (fun s : State W =>
                   files s !! pdf_path = Some uploaded_file
                   ∧ exists tr', log s = log st1 ++ tr' ∧ Forall allowed tr')
                allowed (fun _ => True)
                index_name pdf_path uploaded_file status_callback)
      with (st := st1) as [[_ (tr' & Hlog' & Hall)] _]; simpl; auto.
    + tauto.
    + intros s w ev [Hfile (tr' & Hlog' & Hall)] Hev. split; [exact Hfile|].
      exists (tr' ++ [ev]). rewrite Hlog', app_assoc. split; [reflexivity|].
      apply Forall_app. split; [exact Hall|now constructor].
    + intros ev _ Hquiet ? ? ? ->. discriminate.
    + intros docs r' Hdocs ? ? ? [= <- _ _]. exact Hdocs.
    + split; [exact Hdisk|]. exists []. now rewrite app_nil_r.
    + rewrite Hsteps in Hlog'. apply app_inv_head in Hlog' as ->.
      apply elem_of_cons in Hin as [Hin|Hin]; [discriminate|].
      apply elem_of_cons in Hin as [Hin|Hin]; [discriminate|].
      apply elem_of_app in Hin as [Hin|Hin].
      * rewrite Forall_forall in Hall. exact (Hall _ Hin _ _ _ eq_refl).
      * apply list_elem_of_singleton in Hin. discriminate.
Qed.

End IngestionResults.

(** ** The model manager *)

Section ModelManagement.

Context {W : Type} `{Clients W}.

Ltac run_method :=
  unfold initialize_components, initialize_azure_model,
    initialize_huggingface_model, try_except, construct,
    update_model_manager, get_chat_manager, set_chat_manager, lift,
    raise_Exception, raise, mbind, M_bind, mret, M_ret.

(** X15: [initialize_components] changes nothing but the two clients of the
    model manager.  When it returns, it returns [True] and both clients are
    set.  When it raises, it raises an [Exception] whose message starts
    with ["Error initializing components: "]; the embeddings client is then
    as before, and the Pinecone client is as before or, when the embeddings
    client could not be constructed, already set. *)
Theorem components_are_set_or_an_exception_is_raised (st : State W) :
  let run := initialize_components st in
  files run.1 = files st
  ∧ log run.1 = log st
  ∧ pdf_processor (chat_manager run.1) = pdf_processor (chat_manager st)
  ∧ memory (chat_manager run.1) = memory (chat_manager st)
  ∧ current_model (model_manager (chat_manager run.1))
    = current_model (model_manager (chat_manager st))
  ∧ model_type (model_manager (chat_manager run.1))
    = model_type (model_manager (chat_manager st))
  ∧ match run.2 with
    | Return ok =>
        ok = true
        ∧ pc (model_manager (chat_manager run.1)) = Some Pinecone
        ∧ embeddings (model_manager (chat_manager run.1))
          = Some AzureOpenAIEmbeddings
    | Raise e =>
        exn_cls e = Exception
        ∧ (exists detail,
             exn_msg e = lit "Error initializing components: " ++ detail)
        ∧ embeddings (model_manager (chat_manager run.1))
          = embeddings (model_manager (chat_manager st))
        ∧ (pc (model_manager (chat_manager run.1))
           = pc (model_manager (chat_manager st))
           ∨ pc (model_manager (chat_manager run.1)) = Some Pinecone)
    end.
Proof.
  run_method.
  destruct (Settings.validate_pinecone_config environ) as [ok1|e1];
    [|simpl; repeat split; eauto].
  destruct (Settings.validate_azure_config environ) as [ok2|e2];
    [|simpl; repeat split; eauto].
  cbn [fst snd].
  destruct (new_Pinecone (services st) (Settings.PINECONE_API_KEY environ))
    as [w1 [[]|e3]]; [|simpl; repeat split; eauto].
  cbn [fst snd services chat_manager files log model_manager pdf_processor
       memory].
  match goal with
  | |- context [new_AzureOpenAIEmbeddings ?w ?a ?b ?c ?d ?e ?f ?g] =>
      destruct (new_AzureOpenAIEmbeddings w a b c d e f g) as [w2 [[]|e4]]
  end; simpl; repeat split; eauto.
Qed.

(** X16: initializing a model, Azure or HuggingFace, changes nothing but
    the model and the model type of the model manager.  When it returns,
    it returns [True], the manager holds the new model and its type is
    ["azure"] or ["huggingface"].  When it raises, it raises an [Exception]
    whose message starts with the prefix of the method, and the manager is
    as before: a model initialized earlier stays in use. *)
Theorem model_is_switched_or_kept (st : State W) (huggingface : bool) :
  let run :=
    (if huggingface then initialize_huggingface_model
     else initialize_azure_model) st in
  files run.1 = files st
  ∧ log run.1 = log st
  ∧ match run.2 with
    | Return ok =>
        ok = true
        ∧ chat_manager run.1
          = {| model_manager :=
                 {| current_model :=
                      Some (if huggingface then HuggingFaceEndpoint
                            else AzureChatOpenAI);
                    model_type :=
                      Some (if huggingface then lit "huggingface"
                            else lit "azure");
                    embeddings := embeddings (model_manager (chat_manager st));
                    pc := pc (model_manager (chat_manager st)) |};
               pdf_processor := pdf_processor (chat_manager st);
               memory := memory (chat_manager st) |}
    | Raise e =>
        exn_cls e = Exception
        ∧ (exists detail,
             exn_msg e
             = (if huggingface then lit "Error initializing HuggingFace model: "
                else lit "Error initializing Azure model: ") ++ detail)
        ∧ chat_manager run.1 = chat_manager st
    end.
Proof.
  destruct huggingface; run_method.
  - destruct (Settings.validate_huggingface_config environ) as [ok1|e1];
      [|simpl; repeat split; eauto].
    cbn [fst snd].
    match goal with
    | |- context [new_HuggingFaceEndpoint ?w ?a ?b ?c ?d] =>
        destruct (new_HuggingFaceEndpoint w a b c d) as [w1 [[]|e2]]
    end; simpl; repeat split; eauto.
  - destruct (Settings.validate_azure_config environ) as [ok1|e1];
      [|simpl; repeat split; eauto].
    cbn [fst snd].
    match goal with
    | |- context [new_AzureChatOpenAI ?w ?a ?b ?c ?d ?e ?f] =>
        destruct (new_AzureChatOpenAI w a b c d e f) as [w1 [[]|e2]]
    end; simpl; repeat split; eauto.
Qed.

Lemma validated_azure (ok : bool) :
  Settings.validate_azure_config environ = Return ok ->
  Settings.is_set (Settings.AZURE_OPENAI_KEY environ) = true
  ∧ Settings.is_set (Settings.AZURE_OPENAI_ENDPOINT environ) = true
  ∧ Settings.is_set (Settings.AZURE_DEPLOYMENT_NAME environ) = true.
Proof.
  unfold Settings.validate_azure_config. cbn [forallb].
  destruct (Settings.is_set (Settings.AZURE_OPENAI_KEY environ)),
    (Settings.is_set (Settings.AZURE_OPENAI_ENDPOINT environ)),
    (Settings.is_set (Settings.AZURE_DEPLOYMENT_NAME environ));
    simpl; intros [=]; auto.
Qed.

(** X17: nothing is initialized without its credentials.  The components
    are initialized only when the Pinecone key and the key, the endpoint
    and the deployment name of Azure OpenAI are set and not empty; the
    Azure model only with the latter three; the HuggingFace model only
    with the HuggingFace key. *)
Theorem nothing_is_initialized_without_credentials (st st' : State W) :
  (initialize_components st = (st', Return true) ->
   Settings.is_set (Settings.PINECONE_API_KEY environ) = true
   ∧ Settings.is_set (Settings.AZURE_OPENAI_KEY environ) = true
   ∧ Settings.is_set (Settings.AZURE_OPENAI_ENDPOINT environ) = true
   ∧ Settings.is_set (Settings.AZURE_DEPLOYMENT_NAME environ) = true)
  ∧ (initialize_azure_model st = (st', Return true) ->
     Settings.is_set (Settings.AZURE_OPENAI_KEY environ) = true
     ∧ Settings.is_set (Settings.AZURE_OPENAI_ENDPOINT environ) = true
     ∧ Settings.is_set (Settings.AZURE_DEPLOYMENT_NAME environ) = true)
  ∧ (initialize_huggingface_model st = (st', Return true) ->
     Settings.is_set (Settings.HUGGINGFACE_API_KEY environ) = true).
Proof.
  run_method. split; [|split].
  - destruct (Settings.validate_pinecone_config environ) as [ok1|e1] eqn:Hp;
      [|discriminate].
    destruct (Settings.validate_azure_config environ) as [ok2|e2] eqn:Ha;
      [|discriminate].
    intros _. split; [|exact (validated_azure _ Ha)].
    unfold Settings.validate_pinecone_config in Hp.
    now destruct (Settings.is_set (Settings.PINECONE_API_KEY environ)).
  - destruct (Settings.validate_azure_config environ) as [ok2|e2] eqn:Ha;
      [|discriminate].
    intros _. exact (validated_azure _ Ha).
  - destruct (Settings.validate_huggingface_config environ) as [ok|e] eqn:Hh;
      [|discriminate].
    intros _. unfold Settings.validate_huggingface_config in Hh.
    now destruct (Settings.is_set (Settings.HUGGINGFACE_API_KEY environ)).
Qed.

(** X18: the model type always names the model the manager holds: it does
    in a new manager, and every method that writes the two fields keeps it
    so ([initialize_components], [initialize_azure_model],
    [initialize_huggingface_model], [reset_system]).  Then
    [get_current_model_info] tells which model is held. *)
Theorem model_type_always_names_the_model :
  model_type_names_the_model new_ModelManager
  ∧ (forall (st : State W) (method : M W bool),
       method = initialize_components ∨ method = initialize_azure_model
       ∨ method = initialize_huggingface_model ->
       model_type_names_the_model (model_manager (chat_manager st)) ->
       model_type_names_the_model (model_manager (chat_manager (method st).1)))
  ∧ (forall cm : ChatManager,
       model_type_names_the_model (model_manager (reset_system cm)))
  ∧ (forall self : ModelManager,
       model_type_names_the_model self ->
       get_current_model_info self
       = match current_model self with
         | Some AzureChatOpenAI => lit "Azure OpenAI"
         | Some HuggingFaceEndpoint => lit "HuggingFace"
         | None => lit "No model selected"
         end).
Proof.
  split; [reflexivity|split; [|split; [reflexivity|]]].
  - intros st method [->|[->| ->]] Hnames; run_method.
    + destruct (Settings.validate_pinecone_config environ) as [ok1|e1];
        [|exact Hnames].
      destruct (Settings.validate_azure_config environ) as [ok2|e2];
        [|exact Hnames].
      cbn [fst snd].
      destruct (new_Pinecone (services st) (Settings.PINECONE_API_KEY environ))
        as [w1 [[]|e3]]; [|exact Hnames].
      cbn [fst snd services chat_manager files log model_manager pdf_processor
           memory].
      match goal with
      | |- context [new_AzureOpenAIEmbeddings ?w ?a ?b ?c ?d ?e ?f ?g] =>
          destruct (new_AzureOpenAIEmbeddings w a b c d e f g) as [w2 [[]|e4]]
      end; exact Hnames.
    + destruct (Settings.validate_azure_config environ) as [ok1|e1];
        [|exact Hnames].
      cbn [fst snd].
      match goal with
      | |- context [new_AzureChatOpenAI ?w ?a ?b ?c ?d ?e ?f] =>
          destruct (new_AzureChatOpenAI w a b c d e f) as [w1 [[]|e2]]
      end; [reflexivity|exact Hnames].
    + destruct (Settings.validate_huggingface_config environ) as [ok1|e1];
        [|exact Hnames].
      cbn [fst snd].
      match goal with
      | |- context [new_HuggingFaceEndpoint ?w ?a ?b ?c ?d] =>
          destruct (new_HuggingFaceEndpoint w a b c d) as [w1 [[]|e2]]
      end; [reflexivity|exact Hnames].
  - intros self. unfold model_type_names_the_model, get_current_model_info.
    destruct (current_model self) as [[|]|]; intros ->; reflexivity.
Qed.

End ModelManagement.

(** ** The session *)

Section SessionInvariants.

Context {W : Type} `{Services W} `{Clients W}.

Lemma call_manager_run {A} (m : M W A) (app : App W) :
  call_manager m app
  = let run :=
      m (mkState (Session.chat_manager (session_state app)) (app_files app)
           (app_services app) (app_log app)) in
    (mkApp (with_chat_manager (chat_manager run.1) (session_state app))
       (files run.1) (services run.1) (log run.1),
     run.2).
Proof. unfold call_manager. now destruct (m _). Qed.

(** What the method of a choice does to the manager. *)
Lemma initialize_model_inv (choice : model_choice) (st : State W) :
  let run :=
    (if str_eqb (choice_str choice) (lit "azure") then initialize_azure_model
     else initialize_huggingface_model) st in
  match run.2 with
  | Return ok =>
      ok = true
      ∧ is_initialized (model_manager (chat_manager run.1)) = true
      ∧ model_type (model_manager (chat_manager run.1))
        = Some (choice_str choice)
      ∧ pdf_processor (chat_manager run.1) = pdf_processor (chat_manager st)
  | Raise _ => chat_manager run.1 = chat_manager st
  end.
Proof.
  destruct choice; cbv beta zeta.
  - change (str_eqb (choice_str RadioAzure) (lit "azure")) with true.
    cbv iota.
    unfold initialize_azure_model, try_except, construct,
      update_model_manager, get_chat_manager, set_chat_manager, lift,
      raise_Exception, raise, mbind, M_bind, mret, M_ret.
    destruct (Settings.validate_azure_config environ) as [ok1|e1];
      [|reflexivity].
    cbn [fst snd].
    match goal with
    | |- context [new_AzureChatOpenAI ?w ?a ?b ?c ?d ?e ?f] =>
        destruct (new_AzureChatOpenAI w a b c d e f) as [w1 [[]|e2]]
    end; simpl; auto.
  - change (str_eqb (choice_str RadioHuggingFace) (lit "azure")) with false.
    cbv iota.
    unfold initialize_huggingface_model, try_except, construct,
      update_model_manager, get_chat_manager, set_chat_manager, lift,
      raise_Exception, raise, mbind, M_bind, mret, M_ret.
    destruct (Settings.validate_huggingface_config environ) as [ok1|e1];
      [|reflexivity].
    cbn [fst snd].
    match goal with
    | |- context [new_HuggingFaceEndpoint ?w ?a ?b ?c ?d] =>
        destruct (new_HuggingFaceEndpoint w a b c d) as [w1 [[]|e2]]
    end; simpl; auto.
Qed.

(** What [process_pdf] does to the manager. *)
Lemma process_pdf_inv (st : State W) (uploaded_file : bytes)
    (index_name : str)
    (status_callback : option (W -> str -> W * outcome unit)) :
  let run := process_pdf uploaded_file index_name status_callback st in
  model_manager (chat_manager run.1) = model_manager (chat_manager st)
  ∧ forall message,
      run.2 = Return (true, message) ->
      is_Some (vectorstore (pdf_processor (chat_manager run.1))).
Proof.
  intros run. subst run.
  destruct (process_pdf_shape index_name st uploaded_file status_callback)
    as [(e & Hres & Hcm & _)
       |(pdf_path & tr & s' & u & success & message' & Hres & _ & Hrun
         & Hok & Hmm & _ & Hpp & _)].
  - rewrite Hcm, Hres. split; [reflexivity|discriminate].
  - split; [exact Hmm|]. rewrite Hres. intros message [= -> _].
    rewrite (Hok eq_refl) in Hrun.
    destruct (stage_after_uploaded _ _ _ Hrun)
      as [[=]|(documents & vs & _ & Hstore)].
    rewrite Hpp, Hstore. now eexists.
Qed.

(** X19: in every state the application reaches, the flags of the
    session agree with the manager: when [model_initialized] is set, the
    manager holds a model and its type is [session_state.model_type]; when
    [processed] is set, the PDF processor holds a vector store. *)
Theorem session_flags_agree_with_the_manager (app : App W) :
  reachable app -> flags_agree (session_state app).
Proof.
  induction 1 as [disk w
                 |app choice initialize_model _ IH
                 |app system_prompt_option _ IH
                 |app use_rag index_name uploaded_file process status _ IH
                 |app new_chat clear_all _ IH
                 |app prompt _ IH].
  - unfold initialize_session_state. rewrite call_manager_run.
    split; discriminate.
  - unfold render_model_selection.
    destruct ((negb (Session.model_initialized (session_state app))
               || negb (str_eqb (choice_str choice)
                          (Session.model_type (session_state app))))
              && initialize_model); [|exact IH].
    rewrite call_manager_run. cbv zeta.
    match goal with
    | |- context [(if str_eqb _ _ then _ else _) ?st] =>
        pose proof (initialize_model_inv choice st) as Hinit;
        cbv zeta in Hinit;
        destruct ((if str_eqb (choice_str choice) (lit "azure")
                   then initialize_azure_model
                   else initialize_huggingface_model) st) as [st' [ok|e]]
    end; simpl in Hinit; destruct IH as [IHmodel IHstore].
    + destruct Hinit as (-> & Hmodel & Htype & Hpp).
      split; simpl; try rewrite Hpp; auto.
    + simpl in *. rewrite Hinit. now split.
  - destruct IH as [IHmodel IHstore].
    unfold on_session, Session.render_system_prompt_selection. simpl.
    destruct (negb _); now split.
  - unfold render_rag_settings.
    destruct (negb (eqb use_rag (Session.use_rag (session_state app))));
      [exact IH|].
    destruct use_rag; [|exact IH].
    destruct uploaded_file as [data|]; [|exact IH].
    destruct (negb (Session.processed (session_state app)) && process)
      eqn:Hprocess; [|exact IH].
    apply andb_prop in Hprocess as [Hprocessed _].
    apply negb_true_iff in Hprocessed.
    unfold process_pdf_with_status. rewrite call_manager_run. cbv zeta.
    destruct IH as [IHmodel IHstore].
    match goal with
    | |- context [process_pdf data index_name (Some status) ?st] =>
        pose proof (process_pdf_inv st data index_name (Some status))
          as [Hmm Hstore];
        destruct (process_pdf data index_name (Some status) st)
          as [st' [[success message]|e]]
    end; simpl in *.
    + destruct success; split; simpl; rewrite ?Hmm; auto.
      * intros _. now apply (Hstore message).
      * rewrite Hprocessed. discriminate.
    + split; simpl; rewrite ?Hmm; auto.
      rewrite Hprocessed. discriminate.
  - unfold render_chat_management.
    destruct new_chat; [destruct IH; now split|].
    destruct clear_all; [split; discriminate|exact IH].
  - unfold render_chat_interface.
    destruct (Session.model_initialized (session_state app)); [|exact IH].
    destruct prompt as [prompt|]; [|exact IH].
    destruct (truthy prompt); [|exact IH].
    rewrite call_manager_run. cbv zeta.
    destruct IH as [IHmodel IHstore].
    match goal with
    | |- context [get_response ?q ?p ?b ?st] =>
        pose proof (get_response_keeps_the_clients st q p b) as (Hmm & Hpp);
        destruct (get_response q p b st) as [st' [[response sources]|e]]
    end; simpl in *; split; simpl; rewrite ?Hmm, ?Hpp; auto.
Qed.

Lemma exchanges_app (messages later : list Session.message) :
  exchanges later ->
  (exchanges messages -> exchanges (messages ++ later))
  ∧ (forall question,
       exchanges (question :: messages) ->
       exchanges (question :: messages ++ later)).
Proof.
  intros Hlater. induction messages as [|answer messages [IH1 IH2]].
  - split; [auto|intros question []].
  - split; [apply IH2|].
    intros question (Hquestion & Hanswer & Hrest).
    split; [exact Hquestion|split; [exact Hanswer|auto]].
Qed.

(** X20: in every state the application reaches, the log of the chat is
    a sequence of exchanges: a user message, then the answer of
    [get_response] with its model and its RAG flag.  The entry of the
    [except] branch of the chat turn, which has neither, never appears. *)
Theorem chat_log_is_a_sequence_of_exchanges (app : App W) :
  reachable app -> exchanges (Session.messages (session_state app)).
Proof.
  induction 1 as [disk w
                 |app choice initialize_model _ IH
                 |app system_prompt_option _ IH
                 |app use_rag index_name uploaded_file process status _ IH
                 |app new_chat clear_all _ IH
                 |app prompt _ IH].
  - unfold initialize_session_state. rewrite call_manager_run. exact I.
  - unfold render_model_selection.
    destruct ((negb (Session.model_initialized (session_state app))
               || negb (str_eqb (choice_str choice)
                          (Session.model_type (session_state app))))
              && initialize_model); [|exact IH].
    rewrite call_manager_run. cbv zeta.
    match goal with
    | |- context [(if str_eqb ?a ?b then ?m1 else ?m2) ?st] =>
        destruct ((if str_eqb a b then m1 else m2) st) as [st' [[|]|e]]
    end; exact IH.
  - unfold on_session, Session.render_system_prompt_selection. simpl.
    destruct (negb (str_eqb (Session.selected_prompt system_prompt_option)
                      (Session.system_prompt (session_state app))));
      [exact I|exact IH].
  - unfold render_rag_settings.
    destruct (negb (eqb use_rag (Session.use_rag (session_state app))));
      [exact IH|].
    destruct use_rag; [|exact IH].
    destruct uploaded_file as [data|]; [|exact IH].
    destruct (negb (Session.processed (session_state app)) && process);
      [|exact IH].
    unfold process_pdf_with_status. rewrite call_manager_run. cbv zeta.
    match goal with
    | |- context [process_pdf ?a ?b ?c ?st] =>
        destruct (process_pdf a b c st) as [st' [[[|] message]|e]]
    end; exact IH.
  - unfold render_chat_management.
    destruct new_chat; [exact I|]. destruct clear_all; [exact I|exact IH].
  - unfold render_chat_interface.
    destruct (Session.model_initialized (session_state app)); [|exact IH].
    destruct prompt as [prompt|]; [|exact IH].
    destruct (truthy prompt); [|exact IH].
    rewrite call_manager_run. cbv zeta.
    match goal with
    | |- context [get_response ?q ?p ?b ?st] =>
        destruct (get_response_returns st q p b)
          as (st' & response & sources & ->)
    end.
    simpl. rewrite <- app_assoc.
    apply exchanges_app; [|exact IH].
    split; [now eexists|split; [now eexists _, _, _|exact I]].
Qed.

End SessionInvariants.

(** ** An index that exists *)

Section ExistingIndex.

Context {W : Type} `{Services W}.

(** X14: when the listing of the indexes contains the name,
    [setup_pinecone_index] returns [(True, "existing")] after this one
    call: it neither creates the index nor polls it. *)
Theorem existing_index_is_reused
    (st : State W) (index_name : str) (names : list str) (w : W) :
  is_Some (pc (model_manager (chat_manager st))) ->
  list_indexes (services st) = (w, Return names) ->
  index_name ∈ names ->
  setup_pinecone_index index_name st
  = (mkState (chat_manager st) (files st) w
       (log st ++ [EvListIndexes (Return names)]),
     Return (true, lit "existing")).
Proof.
  intros [client Hpc] Hlist Hin.
  unfold setup_pinecone_index.
  remember 30%nat as polls eqn:Hpolls.
  unfold try_except, get_chat_manager, service, mbind, M_bind, mret, M_ret.
  rewrite Hpc, Hlist. simpl.
  rewrite bool_decide_eq_true_2 by exact Hin. reflexivity.
Qed.

End ExistingIndex.

(** ** More properties at work *)

(** X1 at work: a question in a session without a model. *)
Lemma no_model_gives_fixed_message_witness :
  @get_response nat (scenario_services fair_weather) (lit "What is it about?")
    (Config.SYSTEM_PROMPTS Config.HelpfulAssistant) true initial_state
  = (initial_state,
     Return
       (lit "No model initialized. Please select and initialize a model first.",
        [])).
Proof.
  apply (@no_model_gives_fixed_message nat (scenario_services fair_weather)
           initial_state (lit "What is it about?")
           (Config.SYSTEM_PROMPTS Config.HelpfulAssistant) true).
  reflexivity.
Defined.



(** X10 at work: a successful ingestion. *)
Lemma success_means_the_store_is_set_witness :
  exists (tr : list event) (documents : list Document)
    (vs : PineconeVectorStore),
    log (@process_pdf nat (scenario_services fair_weather) pdf_payload
           index_name0 None initial_state).1
    = log initial_state ++ tr
    ∧ EvFromDocuments documents index_name0 (Return vs) ∈ tr
    ∧ vectorstore
        (pdf_processor
           (chat_manager
              (@process_pdf nat (scenario_services fair_weather) pdf_payload
                 index_name0 None initial_state).1))
      = Some vs
    ∧ current_index_name
        (pdf_processor
           (chat_manager
              (@process_pdf nat (scenario_services fair_weather) pdf_payload
                 index_name0 None initial_state).1))
      = Some index_name0.
Proof.
  eapply (@success_means_the_store_is_set nat (scenario_services fair_weather)
            index_name0 initial_state
            (@process_pdf nat (scenario_services fair_weather) pdf_payload
               index_name0 None initial_state).1
            pdf_payload None).
  vm_compute. reflexivity.
Defined.

(** X11 at work: a disk that fills up while the upload is written. *)
Lemma failed_write_leaves_the_temporary_file_witness :
  is_Some
    (files (@process_pdf nat (scenario_services unwritable) pdf_payload
              index_name0 None initial_state).1 !! tmp_pdf).
Proof.
  apply (@failed_write_leaves_the_temporary_file nat
           (scenario_services unwritable) index_name0 initial_state
           pdf_payload None tmp_pdf 0%nat 0%nat disk_full eq_refl eq_refl).
Defined.


(** X14 at work: the index of an earlier ingestion. *)
Lemma existing_index_is_reused_witness :
  @setup_pinecone_index nat (scenario_services persona_answers) index_name0
    initial_state
  = (mkState fresh_manager ∅ 0%nat [EvListIndexes (Return [index_name0])],
     Return (true, lit "existing")).
Proof.
  apply (@existing_index_is_reused nat (scenario_services persona_answers)
           initial_state index_name0 [index_name0] 0%nat).
  - now eexists.
  - reflexivity.
  - apply list_elem_of_here.
Defined.

(** X17 at work: the components of an installation with every
    credential. *)
Lemma nothing_is_initialized_without_credentials_witness :
  Settings.is_set (Settings.PINECONE_API_KEY credentials) = true
  ∧ Settings.is_set (Settings.AZURE_OPENAI_KEY credentials) = true
  ∧ Settings.is_set (Settings.AZURE_OPENAI_ENDPOINT credentials) = true
  ∧ Settings.is_set (Settings.AZURE_DEPLOYMENT_NAME credentials) = true.
Proof.
  eapply (proj1 (@nothing_is_initialized_without_credentials nat
                   working_clients (mkState new_ChatManager ∅ 0%nat []) _)).
  vm_compute. reflexivity.
Defined.

(** X19 at work: the session after the Azure model was initialized. *)
Lemma session_flags_agree_with_the_manager_witness :
  flags_agree (session_state model_chosen).
Proof.
  apply (@session_flags_agree_with_the_manager nat
           (scenario_services fair_weather) working_clients model_chosen).
  apply reach_model_selection, reach_first_run.
Defined.

(** X20 at work: the session after a greeting. *)
Lemma chat_log_is_a_sequence_of_exchanges_witness :
  exchanges
    (Session.messages
       (session_state
          (@render_chat_interface nat (scenario_services fair_weather)
             (Some (lit "Hello!")) model_chosen))).
Proof.
  apply (@chat_log_is_a_sequence_of_exchanges nat
           (scenario_services fair_weather) working_clients).
  apply reach_chat_interface, reach_model_selection, reach_first_run.
Defined.

(** ** The RAG flag of an answer *)

Section RagFlag.

Context {W : Type} `{Services W} `{Clients W}.

(** The calls of the RAG path of [get_response]. *)
Lemma get_response_retrieves (st : State W) (question system_prompt : str)
    (vs : PineconeVectorStore) :
  is_initialized (model_manager (chat_manager st)) = true ->
  vectorstore (pdf_processor (chat_manager st)) = Some vs ->
  exists (response : str) (sources : list Document) (tr : list event),
    (get_response question system_prompt true st).2
    = Return (response, sources)
    ∧ log (get_response question system_prompt true st).1 = log st ++ tr
    ∧ (1 <= length tr <= 2)%nat
    ∧ Forall (fun ev => is_retrieval_call ev = true) tr.
Proof.
  intros Hmodel Hstore.
  unfold get_response, try_except, get_chat_manager, create_rag_chain,
    call_rag_wrapper, fallback_chain, service, none_has_no_attribute, raise,
    mbind, M_bind, mret, M_ret.
  rewrite Hmodel. cbn [negb andb]. rewrite Hstore. simpl. rewrite ?Hstore.
  match goal with
  | |- context [RetrievalQA_invoke ?a ?b ?c ?d] =>
      destruct (RetrievalQA_invoke a b c d) as [w1 [r1|e1]]
  end; simpl.
  { eexists _, _, [_]. split; [reflexivity|]. split; [reflexivity|].
    split; [simpl; lia|]. now repeat constructor. }
  rewrite ?Hstore.
  match goal with
  | |- context [RetrievalQA_invoke ?a ?b ?c ?d] =>
      destruct (RetrievalQA_invoke a b c d) as [w2 [r2|e2]]
  end; simpl; eexists _, _, [_; _]; rewrite <- app_assoc;
    (split; [reflexivity|]); (split; [reflexivity|]);
    (split; [simpl; lia|]); now repeat constructor.
Qed.

(** X21: in a session whose flags agree with the manager, a chat turn
    made while the model is initialized, RAG is switched on and a PDF is
    shown as processed appends the question and an answer flagged as RAG
    to the log of the chat, and this answer was retrieved: the outside
    calls of the turn are one or two invocations of retrieval chains, and
    nothing else. *)
Theorem rag_flag_means_retrieval (app : App W) (prompt : str) :
  flags_agree (session_state app) ->
  Session.model_initialized (session_state app) = true ->
  Session.use_rag (session_state app) = true ->
  Session.processed (session_state app) = true ->
  truthy prompt = true ->
  exists (response : str) (tr : list event),
    Session.messages (session_state (render_chat_interface (Some prompt) app))
    = Session.messages (session_state app)
      ++ [user_message prompt;
          assistant_message response (Session.model_type (session_state app))
            true]
    ∧ app_log (render_chat_interface (Some prompt) app) = app_log app ++ tr
    ∧ (1 <= length tr <= 2)%nat
    ∧ Forall (fun ev => is_retrieval_call ev = true) tr.
Proof.
  intros [Hmodel Hstore] Hinitialized Hrag Hprocessed Hprompt.
  destruct (Hmodel Hinitialized) as [Hready _].
  destruct (Hstore Hprocessed) as [vs Hvs].
  unfold render_chat_interface.
  rewrite Hinitialized, Hprompt, call_manager_run. cbv zeta.
  match goal with
  | |- context [get_response ?q ?p ?b ?st] =>
      change b with (Session.use_rag (session_state app)); rewrite Hrag;
      destruct (get_response_retrieves st q p vs Hready Hvs)
        as (response & sources & tr & Hres & Hlog & Hlen & Hall);
      destruct (get_response q p true st) as [st' r]
  end.
  simpl in Hres, Hlog. subst r. simpl.
  exists response, tr. rewrite Hrag, Hprocessed, <- app_assoc.
  repeat split; try assumption; lia.
Qed.

End RagFlag.

(** X21 at work: a question about the PDF in a session that has one. *)
Lemma rag_flag_means_retrieval_witness :
  exists (response : str) (tr : list event),
    Session.messages
      (session_state
         (@render_chat_interface nat (scenario_services fair_weather)
            (Some (lit "What is it about?")) (mkApp busy_session ∅ 0%nat [])))
    = Session.messages busy_session
      ++ [user_message (lit "What is it about?");
          assistant_message response (Session.model_type busy_session) true]
    ∧ app_log
        (@render_chat_interface nat (scenario_services fair_weather)
           (Some (lit "What is it about?")) (mkApp busy_session ∅ 0%nat []))
      = [] ++ tr
    ∧ (1 <= length tr <= 2)%nat
    ∧ Forall (fun ev => is_retrieval_call ev = true) tr.
Proof.
  apply (@rag_flag_means_retrieval nat (scenario_services fair_weather)
           (mkApp busy_session ∅ 0%nat []) (lit "What is it about?"));
    try reflexivity.
  split; intros _; [split; reflexivity|now eexists].
Defined.
